(** * NewKidGame2025: puzzle generators, pairing handlers, remote fallback
      and worksheet export, embedded from the TypeScript sources. *)

From Stdlib Require Import ZArith QArith Qround Lia.
From Stdlib Require Import Permutation Ascii String.
From stdpp Require Import base option list strings pretty gmap.

Local Open Scope Z_scope.

(** ** The JavaScript runtime the sources rely on *)

Module Runtime.

(** The random source.  [Math.random()] is read as an exact rational; the
    [n]-th future call returns [g n].  A source is [fair] when every draw
    lies in the half-open unit interval, which is the contract of
    [Math.random]. *)
Definition rng : Type := nat -> Q.

Definition fair (g : rng) : Prop := forall n, (0 <= g n)%Q /\ (g n < 1)%Q.

(** A periodic source, used to run the generators on concrete draws. *)
Definition cycle (l : list Q) : rng :=
  fun n => nth (n mod length l)%nat l 0%Q.

(** Computations that consume random draws: state passing over [rng]. *)
Definition Rand (A : Type) : Type := rng -> A * rng.

#[export] Instance Rand_ret : MRet Rand := fun A x g => (x, g).
#[export] Instance Rand_bind : MBind Rand :=
  fun A B f m g => let (x, g') := m g in f x g'.

(** [ensures m P]: on every fair source, [m] returns a value satisfying [P]
    and leaves a fair source behind. *)
Definition ensures {A} (m : Rand A) (P : A -> Prop) : Prop :=
  forall g, fair g -> P (m g).1 /\ fair (m g).2.

(** [Math.random()] *)
Definition random : Rand Q := fun g => (g 0%nat, fun n => g (S n)).

(** [Math.random() > 0.5] *)
Definition coin : Rand bool :=
  r ← random; mret (match (r ?= 1 # 2)%Q with Gt => true | _ => false end).

(** [xs.map(f)] and [Array.from({length}, (_, i) => f i)] for a callback that
    draws: elements are produced left to right. *)
Fixpoint mapR {A B} (f : A -> Rand B) (xs : list A) : Rand (list B) :=
  match xs with
  | [] => mret []
  | x :: xs' => y ← f x; ys ← mapR f xs'; mret (y :: ys)
  end.

Definition array_from {A} (len : nat) (f : nat -> Rand A) : Rand (list A) :=
  mapR f (seq 0 len).

Section Sort.
Context {T : Type}.
Variable compareFn : T -> T -> Rand Q.

(** [Array.prototype.sort(compareFn)] for a comparator that may draw.  Which
    pairs are compared, and in which order, is left to the engine; the
    model is an insertion sort that consults the comparator once per
    comparison and looks at the sign of its result only: a positive result
    moves the new element past the one it is compared with. *)
Fixpoint sort_insert (x : T) (sorted : list T) : Rand (list T) :=
  match sorted with
  | [] => mret [x]
  | y :: rest =>
      v ← compareFn x y;
      match (v ?= 0)%Q with
      | Gt => rest' ← sort_insert x rest; mret (y :: rest')
      | _ => mret (x :: y :: rest)
      end
  end.

Fixpoint sort_from (sorted pending : list T) : Rand (list T) :=
  match pending with
  | [] => mret sorted
  | x :: pending' => s ← sort_insert x sorted; sort_from s pending'
  end.

Definition array_sort (xs : list T) : Rand (list T) := sort_from [] xs.

(** Arrays as references: a store maps references to contents.  The spread
    [[...array]] allocates a fresh array with the contents of its argument;
    [sort] rearranges an array in place. *)
Definition alloc (xs : list T) (h : gmap nat (list T))
  : nat * gmap nat (list T) :=
  let l := fresh (dom h) in (l, <[l := xs]> h).

Definition sort_in_place (l : nat) (h : gmap nat (list T))
  : Rand (option (gmap nat (list T))) :=
  match h !! l with
  | None => mret None
  | Some xs => ys ← array_sort xs; mret (Some (<[l := ys]> h))
  end.

End Sort.

End Runtime.

Import Runtime.

(** ** utils.ts (src/unnamed/part_000) *)

Module Utils.

(** [getRandomInt(min, max)]:
    [Math.floor(Math.random() * (max - min + 1)) + min] *)
Definition getRandomInt (min max : Z) : Rand Z :=
  r ← random; mret (Qfloor (r * inject_Z (max - min + 1)) + min).

Section Shuffle.
Context {T : Type}.

(** The comparator [() => Math.random() - 0.5]. *)
Definition coin_flip (_ _ : T) : Rand Q :=
  r ← random; mret (r - (1 # 2))%Q.

(** [shuffleArray(array)] on array contents:
    [[...array].sort(() => Math.random() - 0.5)]. *)
Definition shuffleArray (array : list T) : Rand (list T) :=
  array_sort coin_flip array.

(** The same call on references: [sort] returns the reference of the copy
    it has rearranged. *)
Definition shuffleArray_ref (array : nat) (h : gmap nat (list T))
  : Rand (option (nat * gmap nat (list T))) :=
  match h !! array with
  | None => mret None
  | Some xs =>
      let (copy, h1) := alloc xs h in
      oh ← sort_in_place coin_flip copy h1;
      mret (h2 ← oh; Some (copy, h2))
  end.

End Shuffle.

End Utils.

Import Utils.

(** ** CongSo.tsx, first component: CongSoGame *)

Module CongSo.

Record SumProblem := { id : Z; numbers : list Z; answer : Z }.

(** [generateProblems]: the problem list handed to [setProblems]. *)
Definition generateProblems : Rand (list SumProblem) :=
  array_from 6 (fun i =>
    numCount ← getRandomInt 2 3;
    numbers ← array_from (Z.to_nat numCount) (fun _ => getRandomInt 0 9);
    let answer := fold_left Z.add numbers 0 in
    mret {| id := Z.of_nat i; numbers := numbers; answer := answer |}).

End CongSo.

(** ** CongSo.tsx, second component: MaHoaPhepTinhGame (local generation) *)

Module MaHoaLocal.

(** [Object.keys(ICONS)]: string keys come out in insertion order. *)
Definition iconKeys : list string :=
  ["holly"; "gift"; "skate"; "gingerbread"; "tree";
   "stocking"; "igloo"; "snowman"; "bells"].

(** [xs[i]] for a number [i]; [None] is [undefined]. *)
Definition at_index {A} (xs : list A) (i : Z) : option A :=
  if i <? 0 then None else xs !! Z.to_nat i.

(** [Legend = Record<string, number>]; a stored [None] is a key whose value
    is [undefined]. *)
Record SymbolProblem :=
  { id : Z; symbol1 : option string; symbol2 : option string;
    answer : option Z }.

Record game :=
  { legend : gmap string (option Z); problems : list SymbolProblem }.

(** [legend[s]], with [s] possibly [undefined]. *)
Definition legend_get (lg : gmap string (option Z)) (s : option string)
  : option Z :=
  match s with
  | Some key => default None (lg !! key)
  | None => default None (lg !! "undefined")
  end.

(** [a + b] on numbers; [None] is [NaN] (an [undefined] operand). *)
Definition js_add (a b : option Z) : option Z :=
  match a, b with Some x, Some y => Some (x + y) | _, _ => None end.

(** The body of [iconKeys.forEach((key, index) => ...)]. *)
Definition assign_legend (numbers : list Z) (keys : list string)
  : gmap string (option Z) :=
  fold_left (fun lg '(index, key) => <[key := numbers !! index]> lg)
            (imap (fun index key => (index, key)) keys) ∅.

Definition generateGame : Rand game :=
  numbers ← shuffleArray ((fun i => Z.of_nat i + 1) <$> seq 0 9);
  let newLegend := assign_legend numbers iconKeys in
  newProblems ← array_from 12 (fun i =>
    k1 ← getRandomInt 0 8;
    let s1 := at_index iconKeys k1 in
    k2 ← getRandomInt 0 8;
    let s2 := at_index iconKeys k2 in
    mret {| id := Z.of_nat i; symbol1 := s1; symbol2 := s2;
            answer := js_add (legend_get newLegend s1)
                             (legend_get newLegend s2) |});
  mret {| legend := newLegend; problems := newProblems |}.

End MaHoaLocal.

(** ** Games/NoiPhepTinh.tsx: equations against their sums *)

Module NoiPhepTinh.

Record BaseItem := { b_content : string; b_matchId : string }.
Record MatchItem := { id : string; content : string; matchId : string }.

Record state :=
  { leftItems : list MatchItem;
    rightItems : list MatchItem;
    selectedLeft : option MatchItem;
    connections : gmap string string }.

Definition generateItems : Rand state :=
  baseItems ← array_from 5 (fun _ =>
    a ← getRandomInt 0 5;
    b ← getRandomInt 1 5;
    mret {| b_content := pretty a +:+ " + " +:+ pretty b;
            b_matchId := pretty (a + b) |});
  let newLeftItems :=
    imap (fun i item =>
            {| id := "l-" +:+ pretty i; content := b_content item;
               matchId := b_matchId item |}) baseItems in
  newRightItems ← shuffleArray
    (imap (fun i item =>
             {| id := "r-" +:+ pretty i; content := b_matchId item;
                matchId := b_content item |}) baseItems);
  mret {| leftItems := newLeftItems; rightItems := newRightItems;
          selectedLeft := None; connections := ∅ |}.

Definition handleLeftClick (item : MatchItem) (st : state) : state :=
  {| leftItems := leftItems st; rightItems := rightItems st;
     selectedLeft := Some item; connections := connections st |}.

(** No validation here: every attempted connection is recorded. *)
Definition handleRightClick (item : MatchItem) (st : state) : state :=
  match selectedLeft st with
  | Some sel =>
      {| leftItems := leftItems st; rightItems := rightItems st;
         selectedLeft := None;
         connections := <[id sel := id item]> (connections st) |}
  | None => st
  end.

End NoiPhepTinh.

(** ** NoiBongGame (src/unnamed/part_007): outlines against filled icons *)

Module NoiBong.

Definition iconKeys : list string :=
  ["leaf"; "acorn"; "pumpkin"; "mushroom"; "house"].

Record MatchItem := { id : string; iconId : string }.

Record state :=
  { leftItems : list MatchItem;
    rightItems : list MatchItem;
    selectedLeft : option MatchItem;
    connections : gmap string string }.

Definition generateItems : Rand state :=
  shuffled ← shuffleArray iconKeys;
  let chosenIcons := take 5 shuffled in
  let newLeftItems :=
    imap (fun i iconId => {| id := "l-" +:+ pretty i; iconId := iconId |})
         chosenIcons in
  reshuffled ← shuffleArray chosenIcons;
  let newRightItems :=
    imap (fun i iconId => {| id := "r-" +:+ pretty i; iconId := iconId |})
         reshuffled in
  mret {| leftItems := newLeftItems; rightItems := newRightItems;
          selectedLeft := None; connections := ∅ |}.

Definition handleLeftClick (item : MatchItem) (st : state) : state :=
  {| leftItems := leftItems st; rightItems := rightItems st;
     selectedLeft := Some item; connections := connections st |}.

Definition handleRightClick (item : MatchItem) (st : state) : state :=
  match selectedLeft st with
  | Some sel =>
      {| leftItems := leftItems st; rightItems := rightItems st;
         selectedLeft := None;
         connections :=
           if decide (iconId sel = iconId item)
           then <[id sel := id item]> (connections st)
           else connections st |}
  | None => st
  end.

End NoiBong.

(** ** MeCungToanHocGame (src/unnamed/part_005): the number maze *)

Module MeCung.

Record MazeNode :=
  { id : Z; value : Z; isInput : bool; pos : Z * Z }.

Record MazeConnection :=
  { from : MazeNode; to : MazeNode; op : string }.

Record maze :=
  { nodes : list MazeNode; connections : list MazeConnection }.

Definition simpleMazeLayout : list (Z * Z) :=
  [ (170, 20); (320, 20);
    (320, 120); (170, 220);
    (170, 320); (170, 420);
    (320, 420); (320, 520);
    (170, 620); (320, 620) ].

Definition complexMazeLayout : list (Z * Z) :=
  [ (20, 20); (170, 20); (170, 120);
    (20, 220); (20, 320); (20, 420);
    (170, 420); (170, 520); (20, 620);
    (170, 620); (320, 620); (320, 520);
    (320, 420); (470, 420); (320, 320);
    (320, 220); (470, 120); (470, 20);
    (620, 20); (620, 120); (620, 220);
    (620, 320); (620, 420); (620, 520);
    (470, 620); (620, 620) ].

(** The loop [for (let i = 1; i < structure.length; i++)], started at index
    [i] with the entries [rest] of the layout still to visit.  [len] is
    [structure.length]; the accumulators are the loop's variables. *)
Fixpoint walk (len : nat) (i : nat) (rest : list (Z * Z))
    (currentValue : Z) (prevNode : MazeNode)
    (newNodes : list MazeNode) (newConnections : list MazeConnection)
  : Rand maze :=
  match rest with
  | [] => mret {| nodes := newNodes; connections := newConnections |}
  | p :: rest' =>
      let isEndNode := bool_decide (i = (len - 1)%nat) in
      add ← coin;
      amount ← getRandomInt 1 9;
      let op := (if add : bool then "+" else "-")%string +:+ pretty amount in
      let currentValue' :=
        if add then currentValue + amount
        else Z.max 0 (currentValue - amount) in
      let currentNode :=
        {| id := Z.of_nat i; value := currentValue';
           isInput := negb isEndNode; pos := p |} in
      walk len (S i) rest' currentValue' currentNode
           (newNodes ++ [currentNode])
           (newConnections ++
              [{| from := prevNode; to := currentNode; op := op |}])
  end.

(** [generateMaze]; [None] stands for the [TypeError] of reading
    [structure[0].pos] on an empty layout. *)
Definition generateMaze : Rand (option maze) :=
  complex ← coin;
  let structure :=
    if complex : bool then complexMazeLayout else simpleMazeLayout in
  start ← getRandomInt 5 15;
  match structure with
  | [] => mret None
  | p0 :: rest =>
      let prevNode :=
        {| id := 0; value := start; isInput := false; pos := p0 |} in
      m ← walk (length structure) 1 rest start prevNode [prevNode] [];
      mret (Some m)
  end.

(** Reading an operation label back: a sign followed by decimal digits. *)
Definition digit_value (c : ascii) : option Z :=
  let n := Z.of_N (Ascii.N_of_ascii c) in
  if (48 <=? n) && (n <=? 57) then Some (n - 48) else None.

Fixpoint digits_value (acc : Z) (s : string) : option Z :=
  match s with
  | EmptyString => Some acc
  | String c s' =>
      match digit_value c with
      | Some d => digits_value (10 * acc + d) s'
      | None => None
      end
  end.

Definition parse_op (s : string) : option (bool * Z) :=
  match s with
  | String sign (String c rest as ds) =>
      if decide (sign = "+"%char) then
        k ← digits_value 0 ds; Some (true, k)
      else if decide (sign = "-"%char) then
        k ← digits_value 0 ds; Some (false, k)
      else None
  | _ => None
  end.

(** One replay step: additions are exact, subtractions stop at zero. *)
Definition apply_op (v : Z) (o : bool * Z) : Z :=
  if o.1 then v + o.2 else Z.max 0 (v - o.2).

(** Replaying a list of labels from a start value: the values visited after
    the start, or [None] on an unreadable label. *)
Fixpoint replay (v : Z) (ops : list string) : option (list Z) :=
  match ops with
  | [] => Some []
  | o :: ops' =>
      step ← parse_op o;
      let v' := apply_op v step in
      vs ← replay v' ops';
      Some (v' :: vs)
  end.

Definition NODE_WIDTH : Z := 60.
Definition NODE_HEIGHT : Z := 60.

(** The bounds [exportPdf] computes over the nodes on screen:
    [computedWidth] and [computedHeight]. *)
Definition content_bounds (nodes : list MazeNode) : Z * Z :=
  if (0 <? length nodes)%nat then
    fold_left (fun '(maxX, maxY) node =>
                 (Z.max maxX ((pos node).1 + NODE_WIDTH),
                  Z.max maxY ((pos node).2 + NODE_HEIGHT)))
              nodes (0, 0)
  else (0, 0).

(** The size written into the style of the clone, if any:
    [if (computedWidth > 0 && computedHeight > 0)]. *)
Definition clone_size (nodes : list MazeNode) : option (Z * Z) :=
  let '(computedWidth, computedHeight) := content_bounds nodes in
  if (computedWidth >? 0) && (computedHeight >? 0)
  then Some (computedWidth, computedHeight)
  else None.

End MeCung.

(** ** Values exchanged with the content service *)

Module Js.

(** Parsed JSON, plus [undefined] for absent properties.  Numbers are the
    integers of the declared schemas.  A string is held in UTF-8, in its
    generalised form: one to three bytes for a code unit that is not half
    of a pair (a surrogate on its own included), four bytes for a
    surrogate pair. *)
#[warnings="-register-all"] Inductive jsval :=
| JUndefined
| JNull
| JBool (b : bool)
| JNum (z : Z)
| JStr (s : string)
| JArr (items : list jsval)
| JObj (fields : list (string * jsval)).

(** What a [catch] clause receives: an [Error] with its message, or a value
    that is not an [Error]. *)
Inductive thrown :=
| Err (message : string)
| NonErr.

(** The outcome of [await ai.models.generateContent(...)] followed by
    [JSON.parse(response.text.trim())]: either something was thrown on the
    way (request rejected, no text, unreadable JSON), or a value was
    parsed. *)
Inductive remote :=
| Threw (e : thrown)
| Parsed (data : jsval).

(** Results of a [try] body. *)
Inductive attempt (A : Type) :=
| Raise (e : thrown)
| Done (x : A).
Arguments Raise {A} e.
Arguments Done {A} x.

#[export] Instance attempt_ret : MRet attempt := fun A x => Done x.
#[export] Instance attempt_bind : MBind attempt :=
  fun A B f m => match m with Raise e => Raise e | Done x => f x end.

(** [a || b] on conditions that may throw: [b] is not evaluated once [a]
    holds. *)
Definition orA (a b : attempt bool) : attempt bool :=
  x ← a; if x : bool then Done true else b.

(** What the sources leave to the engine that runs them.  [error_text site
    v] is the message of the [TypeError] or [RangeError] raised at the
    expression [site] on the value [v]; its wording is the engine's.
    [loose_lt v n] is [v < n] for a string, an array or an object [v], which
    the engine first converts to a number (a conversion that can throw).
    [upper c] is the upper case of the character [c] outside ASCII.
    Nothing is assumed of the three: what is proved holds for every
    engine. *)
Class Engine :=
  { error_text : string -> jsval -> string;
    loose_lt : jsval -> Z -> attempt bool;
    upper : string -> string }.

(** *** Strings *)

Definition byte (c : ascii) : nat := Ascii.nat_of_ascii c.

(** A byte that continues a character begun before it. *)
Definition is_continuation (c : ascii) : bool :=
  (128 <=? byte c)%nat && (byte c <? 192)%nat.

(** [s.length]: the number of UTF-16 code units.  A character of one to
    three bytes is one unit, a character of four bytes is a pair. *)
Fixpoint length16 (s : string) : nat :=
  match s with
  | EmptyString => 0%nat
  | String c s' =>
      ((if is_continuation c then 0
        else if (240 <=? byte c)%nat then 2 else 1) + length16 s')%nat
  end.

(** [[...s]]: the characters of [s], each with its continuation bytes. *)
Fixpoint chars (s : string) : list string :=
  match s with
  | EmptyString => []
  | String c s' =>
      match chars s' with
      | (String d _ as next) :: rest =>
          if is_continuation d then String c next :: rest
          else String c EmptyString :: next :: rest
      | rest => String c EmptyString :: rest
      end
  end.

(** A code unit on its own, in three bytes. *)
Definition unit3 (u : N) : string :=
  String (Ascii.ascii_of_N (224 + u / 4096))
    (String (Ascii.ascii_of_N (128 + (u / 64) mod 64))
      (String (Ascii.ascii_of_N (128 + u mod 64)) EmptyString)).

(** The code units of a character: itself, or the two halves of its
    pair. *)
Definition halves (ch : string) : list string :=
  match ch with
  | String b0 (String b1 (String b2 (String b3 EmptyString))) =>
      if (240 <=? byte b0)%nat then
        let n := Ascii.N_of_ascii in
        let cp := ((n b0 mod 8) * 262144 + (n b1 mod 64) * 4096
                   + (n b2 mod 64) * 64 + n b3 mod 64)%N in
        let v := (cp - 65536)%N in
        [unit3 (55296 + v / 1024)%N; unit3 (56320 + v mod 1024)%N]
      else [ch]
  | _ => [ch]
  end.

(** The code units of [s], each as a string of its own: [s[0]], [s[1]],
    and so on. *)
Definition units (s : string) : list string :=
  concat (halves <$> chars s).

(** White space and line terminators, which [trim] and [parseInt] strip:
    U+0009 to U+000D and U+0020 in one byte; U+00A0 in two; U+1680,
    U+2000 to U+200A, U+2028, U+2029, U+202F, U+205F, U+3000 and U+FEFF in
    three. *)
Definition space1 (c : ascii) : bool :=
  (byte c =? 32)%nat || ((9 <=? byte c)%nat && (byte c <=? 13)%nat).

Definition space2 (c d : ascii) : bool :=
  (byte c =? 194)%nat && (byte d =? 160)%nat.

Definition space3 (c d e : ascii) : bool :=
  ((byte c =? 225)%nat && (byte d =? 154)%nat && (byte e =? 128)%nat)
  || ((byte c =? 226)%nat && (byte d =? 128)%nat
      && (((128 <=? byte e)%nat && (byte e <=? 138)%nat)
          || (byte e =? 168)%nat || (byte e =? 169)%nat
          || (byte e =? 175)%nat))
  || ((byte c =? 226)%nat && (byte d =? 129)%nat && (byte e =? 159)%nat)
  || ((byte c =? 227)%nat && (byte d =? 128)%nat && (byte e =? 128)%nat)
  || ((byte c =? 239)%nat && (byte d =? 187)%nat && (byte e =? 191)%nat).

(** [s.trimStart()] *)
Fixpoint trimStart (s : string) : string :=
  match s with
  | EmptyString => EmptyString
  | String c s1 =>
      if space1 c then trimStart s1
      else
        match s1 with
        | EmptyString => s
        | String d s2 =>
            if space2 c d then trimStart s2
            else
              match s2 with
              | EmptyString => s
              | String e s3 => if space3 c d e then trimStart s3 else s
              end
        end
  end.

(** [!s.trim()]: nothing is left once the white space is stripped, which
    stripping from the start alone decides. *)
Definition is_blank (s : string) : bool :=
  match trimStart s with
  | EmptyString => true
  | String _ _ => false
  end.

(** [s.includes(sub)] *)
Definition includes (s sub : string) : bool :=
  match String.index 0 sub s with Some _ => true | None => false end.

(** [s.indexOf(sub)] for an ASCII text [sub]: the code units ahead of its
    first occurrence. *)
Definition index16 (s sub : string) : Z :=
  match String.index 0 sub s with
  | Some i => Z.of_nat (length16 (String.substring 0 i s))
  | None => -1
  end.

(** [s.toUpperCase()]: character by character; the ASCII letters here, the
    rest by the engine. *)
Definition upper_char (c : ascii) : ascii :=
  if (97 <=? byte c)%nat && (byte c <=? 122)%nat
  then Ascii.ascii_of_nat (byte c - 32)
  else c.

Definition upper_of `{!Engine} (ch : string) : string :=
  match ch with
  | String c EmptyString =>
      if (byte c <? 128)%nat then String (upper_char c) EmptyString
      else upper ch
  | _ => upper ch
  end.

Definition toUpperCase `{!Engine} (s : string) : string :=
  foldr (fun ch rest => upper_of ch +:+ rest) EmptyString (chars s).

(** The test shared by the [catch] clauses:
    [m.includes("429") || m.toUpperCase().includes("RESOURCE_EXHAUSTED")]. *)
Definition rate_limited `{!Engine} (m : string) : bool :=
  includes m "429" || includes (toUpperCase m) "RESOURCE_EXHAUSTED".

(** Markup literals are written with an apostrophe wherever the source has a
    double quote; [markup] puts the double quotes back. *)
Definition requote (c : ascii) : ascii :=
  if decide (c = "'"%char) then Ascii.ascii_of_nat 34 else c.

Fixpoint markup (s : string) : string :=
  match s with
  | EmptyString => EmptyString
  | String c s' => String (requote c) (markup s')
  end.

(** *** Values *)

Fixpoint assoc (k : string) (fields : list (string * jsval)) : option jsval :=
  match fields with
  | [] => None
  | (k', v) :: rest => if decide (k = k') then Some v else assoc k rest
  end.

(** [v.k] for a data property [k] of response data; [None] where the read
    throws, on [null] and [undefined]. *)
Definition get (v : jsval) (k : string) : option jsval :=
  match v with
  | JUndefined | JNull => None
  | JObj fields => Some (default JUndefined (assoc k fields))
  | JArr items =>
      if decide (k = "length") then Some (JNum (Z.of_nat (length items)))
      else Some JUndefined
  | JStr s =>
      if decide (k = "length") then Some (JNum (Z.of_nat (length16 s)))
      else Some JUndefined
  | JBool _ | JNum _ => Some JUndefined
  end.

(** The same read inside a [try] body, where [site] is the text of the
    expression read from. *)
Definition prop `{!Engine} (site : string) (v : jsval) (k : string)
  : attempt jsval :=
  match get v k with
  | Some x => Done x
  | None => Raise (Err (error_text (site +:+ "." +:+ k) v))
  end.

(** [!v] is [negb (truthy v)]. *)
Definition truthy (v : jsval) : bool :=
  match v with
  | JUndefined | JNull => false
  | JBool b => b
  | JNum z => negb (z =? 0)
  | JStr s => negb (bool_decide (s = ""))
  | JArr _ | JObj _ => true
  end.

Definition isArray (v : jsval) : bool :=
  match v with JArr _ => true | _ => false end.

(** [v < n] for a number [n].  [undefined] converts to [NaN] and compares
    false; strings, arrays and objects go through the engine's
    conversion. *)
Definition lt_num `{!Engine} (v : jsval) (n : Z) : attempt bool :=
  match v with
  | JNum z => Done (z <? n)
  | JNull => Done (0 <? n)
  | JBool b => Done ((if b then 1 else 0) <? n)
  | JUndefined => Done false
  | JStr _ | JArr _ | JObj _ => loose_lt v n
  end.

(** [v === n] for a number [n]. *)
Definition is_num (v : jsval) (n : Z) : bool :=
  match v with JNum z => z =? n | _ => false end.

(** [v === s] for a string [s]. *)
Definition is_str (v : jsval) (s : string) : bool :=
  match v with JStr t => bool_decide (t = s) | _ => false end.

(** [items.indexOf(s)] on an array. *)
Fixpoint index_of (s : string) (items : list jsval) (i : Z) : Z :=
  match items with
  | [] => -1
  | v :: rest => if is_str v s then i else index_of s rest (i + 1)
  end.

(** [v.indexOf(s)] for an ASCII text [s], where [site] is the text of the
    callee: arrays and strings have the method, on anything else the call
    throws. *)
Definition indexOf `{!Engine} (site : string) (v : jsval) (s : string)
  : attempt Z :=
  match v with
  | JArr items => Done (index_of s items 0)
  | JStr t => Done (index16 t s)
  | _ => Raise (Err (error_text site v))
  end.

(** The own enumerable properties copied by an object spread [{...v}]. *)
Definition own_props (v : jsval) : list (string * jsval) :=
  match v with
  | JObj fields => fields
  | JArr items => imap (fun i x => (pretty i, x)) items
  | JStr s => imap (fun i u => (pretty i, JStr u)) (units s)
  | _ => []
  end.

(** Writing a property into an object literal under construction: an
    existing key keeps its place, a new key goes last. *)
Fixpoint obj_set (k : string) (v : jsval) (fields : list (string * jsval))
  : list (string * jsval) :=
  match fields with
  | [] => [(k, v)]
  | (k', v') :: rest =>
      if decide (k = k') then (k, v) :: rest
      else (k', v') :: obj_set k v rest
  end.

(** [xs.map(f)] for a callback that may throw. *)
Fixpoint mapA {A B} (f : A -> attempt B) (xs : list A) : attempt (list B) :=
  match xs with
  | [] => Done []
  | x :: xs' =>
      match f x with
      | Raise e => Raise e
      | Done y =>
          match mapA f xs' with
          | Raise e => Raise e
          | Done ys => Done (y :: ys)
          end
      end
  end.

(** [a === b] for two values that are not one and the same array or
    object: primitives compare by value, and two different arrays or
    objects are never equal. *)
Definition strict_eq (a b : jsval) : bool :=
  match a, b with
  | JUndefined, JUndefined => true
  | JNull, JNull => true
  | JBool x, JBool y => bool_decide (x = y)
  | JNum x, JNum y => x =? y
  | JStr x, JStr y => bool_decide (x = y)
  | _, _ => false
  end.

(** [a === b] where [a] and [b] may be one and the same array or object,
    which [same] says: an array or an object is equal to itself and to
    nothing else. *)
Definition strict_eq_ref (same : bool) (a b : jsval) : bool :=
  match a, b with
  | JArr _, JArr _ | JObj _, JObj _ => same
  | _, _ => strict_eq a b
  end.

(** An engine to run the definitions on where a concrete one is needed.
    Its answers are place holders: the message of an error is the text of
    its site, a conversion finds no number, and a character outside ASCII
    is its own upper case.  What is stated of a run holds on every
    engine. *)
Definition plain_engine : Engine :=
  {| error_text := fun site _ => site;
     loose_lt := fun _ _ => Done false;
     upper := fun ch => ch |}.

End Js.

(** ** Games/NoiSo.tsx: pictures against their counts (remote generation) *)

Module NoiSo.
Import Js.

(** An entry of [defaultGameData]. *)
Record Pair := { p_svg : string; p_count : Z }.

(** Items are built from parsed data without conversion, so their fields
    hold whatever the response carried.  The left and the right item built
    from one entry hold the same [count]: when it is an array or an object
    they hold one and the same, and [entry], the position of the entry in
    its response, tells which.  The items on screen at a time come from one
    response. *)
Record LeftItem := { id : string; svg : jsval; count : jsval; entry : nat }.
Record RightItem := { r_id : string; r_count : jsval; r_entry : nat }.

Record state :=
  { theme : string;
    isLoading : bool;
    error : option string;
    leftItems : list LeftItem;
    rightItems : list RightItem;
    selectedLeft : option LeftItem;
    connections : gmap string string }.

Definition setIsLoading (b : bool) (st : state) : state :=
  {| theme := theme st; isLoading := b; error := error st;
     leftItems := leftItems st; rightItems := rightItems st;
     selectedLeft := selectedLeft st; connections := connections st |}.

Definition setError (e : option string) (st : state) : state :=
  {| theme := theme st; isLoading := isLoading st; error := e;
     leftItems := leftItems st; rightItems := rightItems st;
     selectedLeft := selectedLeft st; connections := connections st |}.

Definition setLeftItems (l : list LeftItem) (st : state) : state :=
  {| theme := theme st; isLoading := isLoading st; error := error st;
     leftItems := l; rightItems := rightItems st;
     selectedLeft := selectedLeft st; connections := connections st |}.

Definition setRightItems (l : list RightItem) (st : state) : state :=
  {| theme := theme st; isLoading := isLoading st; error := error st;
     leftItems := leftItems st; rightItems := l;
     selectedLeft := selectedLeft st; connections := connections st |}.

Definition setSelectedLeft (s : option LeftItem) (st : state) : state :=
  {| theme := theme st; isLoading := isLoading st; error := error st;
     leftItems := leftItems st; rightItems := rightItems st;
     selectedLeft := s; connections := connections st |}.

Definition setConnections (c : gmap string string) (st : state) : state :=
  {| theme := theme st; isLoading := isLoading st; error := error st;
     leftItems := leftItems st; rightItems := rightItems st;
     selectedLeft := selectedLeft st; connections := c |}.

Definition defaultGameData : list Pair :=
  [ {| p_svg := markup "<svg viewBox='0 0 100 100'><circle cx='50' cy='50' r='15' fill='#e74c3c'/></svg>";
       p_count := 1 |};
    {| p_svg := markup "<svg viewBox='0 0 100 100'><rect x='20' y='35' width='30' height='30' fill='#3498db'/><rect x='55' y='35' width='30' height='30' fill='#3498db'/></svg>";
       p_count := 2 |};
    {| p_svg := markup "<svg viewBox='0 0 100 100'><polygon points='50,15 85,50 50,85 15,50' fill='#f1c40f'/><polygon points='15,15 45,15 45,45 15,45' fill='#f1c40f'/><polygon points='55,55 85,55 85,85 55,85' fill='#f1c40f'/></svg>";
       p_count := 3 |};
    {| p_svg := markup "<svg viewBox='0 0 100 100'><path d='M50 20 L60 40 L80 40 L65 55 L70 75 L50 65 L30 75 L35 55 L20 40 L40 40 Z' fill='#2ecc71'/><path d='M20 70 L30 90 L10 90 Z' fill='#2ecc71'/><path d='M80 70 L90 90 L70 90 Z' fill='#2ecc71'/><path d='M50 80 L60 95 L40 95 Z' fill='#2ecc71'/></svg>";
       p_count := 4 |};
    {| p_svg := markup "<svg viewBox='0 0 100 100'><circle cx='25' cy='25' r='10' fill='#9b59b6'/><circle cx='75' cy='25' r='10' fill='#9b59b6'/><circle cx='50' cy='50' r='10' fill='#9b59b6'/><circle cx='25' cy='75' r='10' fill='#9b59b6'/><circle cx='75' cy='75' r='10' fill='#9b59b6'/></svg>";
       p_count := 5 |} ].

Definition loadDefaultData (st : state) : Rand state :=
  baseItems ← shuffleArray defaultGameData;
  let newLeftItems :=
    imap (fun i item =>
            {| id := "l-" +:+ pretty i; svg := JStr (p_svg item);
               count := JNum (p_count item); entry := i |}) baseItems in
  newRightItems ← shuffleArray
    (imap (fun i item =>
             {| r_id := "r-" +:+ pretty i; r_count := JNum (p_count item);
                r_entry := i |})
          baseItems);
  mret (setError None
         (setSelectedLeft None
           (setConnections ∅
             (setRightItems newRightItems
               (setLeftItems newLeftItems st))))).

Section Remote.
Context `{!Engine}.

(** The [try] body up to the shuffle: validation, then the two [data.map]
    calls. *)
Definition read_pairs (data : jsval)
  : attempt (list LeftItem * list RightItem) :=
  match data with
  | JArr items =>
      if Z.of_nat (length items) <? 5
      then Raise (Err "Dữ liệu từ AI không hợp lệ.")
      else
        lefts ← mapA (fun '(i, item) =>
                   s ← prop "item" item "svg";
                   c ← prop "item" item "count";
                   Done {| id := "l-" +:+ pretty i; svg := s; count := c;
                           entry := i |})
                 (imap (fun (i : nat) item => (i, item)) items);
        rights ← mapA (fun '(i, item) =>
                   c ← prop "item" item "count";
                   Done {| r_id := "r-" +:+ pretty i; r_count := c;
                           r_entry := i |})
                 (imap (fun (i : nat) item => (i, item)) items);
        Done (lefts, rights)
  | _ => Raise (Err "Dữ liệu từ AI không hợp lệ.")
  end.

Definition try_body (r : remote)
  : attempt (list LeftItem * list RightItem) :=
  match r with
  | Threw e => Raise e
  | Parsed data => read_pairs data
  end.

(** The message chosen by the [catch] clause. *)
Definition catch_message (e : thrown) : string :=
  let errorMessage := "Lỗi không xác định. Đang tải dữ liệu mặc định." in
  match e with
  | Err m =>
      if rate_limited m
      then "Lượt truy cập API đã hết. Đang tải dữ liệu mặc định."
      else errorMessage
  | NonErr => errorMessage
  end.

(** [generateNew], run to completion against the outcome [r] of its
    request; state setters take effect in call order. *)
Definition generateNew (r : remote) (st : state) : Rand state :=
  let st := setError None (setIsLoading true st) in
  if is_blank (theme st) then
    mret (setIsLoading false (setError (Some "Vui lòng nhập chủ đề.") st))
  else
    st' ← match try_body r with
          | Done (newLeftItems, rights) =>
              newRightItems ← shuffleArray rights;
              mret (setSelectedLeft None
                     (setConnections ∅
                       (setRightItems newRightItems
                         (setLeftItems newLeftItems st))))
          | Raise e =>
              loadDefaultData (setError (Some (catch_message e)) st)
          end;
    mret (setIsLoading false st').

End Remote.

Definition handleLeftClick (item : LeftItem) (st : state) : state :=
  setSelectedLeft (Some item) st.

(** [selectedLeft.count === item.count] decides. *)
Definition handleRightClick (item : RightItem) (st : state) : state :=
  match selectedLeft st with
  | Some sel =>
      let st' :=
        if strict_eq_ref (bool_decide (entry sel = r_entry item))
                         (count sel) (r_count item)
        then setConnections (<[id sel := r_id item]> (connections st)) st
        else st in
      setSelectedLeft None st'
  | None => st
  end.

End NoiSo.

(** ** TimHinhDungGame (src/unnamed/part_001): the missing grid cell *)

Module TimHinhDung.
Import Js.

(** [puzzle] holds the object [{...data, missingIndex}]. *)
Record state :=
  { puzzle : option jsval;
    isLoading : bool;
    error : option string;
    selection : option (Z * bool) }.

Definition setPuzzle (p : option jsval) (st : state) : state :=
  {| puzzle := p; isLoading := isLoading st; error := error st;
     selection := selection st |}.

Definition setIsLoading (b : bool) (st : state) : state :=
  {| puzzle := puzzle st; isLoading := b; error := error st;
     selection := selection st |}.

Definition setError (e : option string) (st : state) : state :=
  {| puzzle := puzzle st; isLoading := isLoading st; error := e;
     selection := selection st |}.

Definition setSelection (s : option (Z * bool)) (st : state) : state :=
  {| puzzle := puzzle st; isLoading := isLoading st; error := error st;
     selection := s |}.

(** [defaultPuzzles[0]] *)
Definition default_grid : list jsval :=
  [ JStr (markup "<svg viewBox='0 0 100 100'><rect x='25' y='25' width='50' height='50' fill='red'/></svg>");
    JStr (markup "<svg viewBox='0 0 100 100'><circle cx='50' cy='50' r='25' fill='red'/></svg>");
    JStr (markup "<svg viewBox='0 0 100 100'><polygon points='50,15 85,85 15,85' fill='red'/></svg>");
    JStr (markup "<svg viewBox='0 0 100 100'><rect x='25' y='25' width='50' height='50' fill='blue'/></svg>");
    JStr "MISSING";
    JStr (markup "<svg viewBox='0 0 100 100'><polygon points='50,15 85,85 15,85' fill='blue'/></svg>");
    JStr (markup "<svg viewBox='0 0 100 100'><rect x='25' y='25' width='50' height='50' fill='green'/></svg>");
    JStr (markup "<svg viewBox='0 0 100 100'><circle cx='50' cy='50' r='25' fill='green'/></svg>");
    JStr (markup "<svg viewBox='0 0 100 100'><polygon points='50,15 85,85 15,85' fill='green'/></svg>") ].

Definition default_options : list jsval :=
  [ JStr (markup "<svg viewBox='0 0 100 100'><circle cx='50' cy='50' r='25' fill='red'/></svg>");
    JStr (markup "<svg viewBox='0 0 100 100'><circle cx='50' cy='50' r='25' fill='blue'/></svg>");
    JStr (markup "<svg viewBox='0 0 100 100'><rect x='25' y='25' width='50' height='50' fill='blue'/></svg>");
    JStr (markup "<svg viewBox='0 0 100 100'><polygon points='50,15 85,85 15,85' fill='green'/></svg>");
    JStr (markup "<svg viewBox='0 0 100 100'><circle cx='50' cy='50' r='25' fill='green'/></svg>") ].

Definition defaultPuzzle : list (string * jsval) :=
  [ ("grid", JArr default_grid);
    ("options", JArr default_options);
    ("correctOptionIndex", JNum 1) ].

Definition loadDefaultPuzzle (st : state) : state :=
  let missingIndex := index_of "MISSING" default_grid 0 in
  setError None
    (setPuzzle
       (Some (JObj (obj_set "missingIndex" (JNum missingIndex) defaultPuzzle)))
       st).

Section Remote.
Context `{!Engine}.

Definition try_body (r : remote) : attempt jsval :=
  match r with
  | Threw e => Raise e
  | Parsed data =>
      grid ← prop "data" data "grid";
      missingIndex ← indexOf "data.grid.indexOf" grid "MISSING";
      if missingIndex =? -1 then Raise (Err "Invalid data structure from AI.")
      else
        options ← prop "data" data "options";
        len ← prop "data.options" options "length";
        if negb (is_num len 5)
        then Raise (Err "Invalid data structure from AI.")
        else Done (JObj (obj_set "missingIndex" (JNum missingIndex)
                                 (own_props data)))
  end.

Definition catch_message (e : thrown) : string :=
  let errorMessage :=
    "Đã xảy ra lỗi khi tạo câu đố. Đang tải câu đố mặc định." in
  match e with
  | Err m =>
      if rate_limited m
      then "Lượt truy cập API đã hết. Đang tải câu đố mặc định."
      else errorMessage
  | NonErr => errorMessage
  end.

Definition generateNew (r : remote) (st : state) : state :=
  let st :=
    setPuzzle None (setSelection None (setError None (setIsLoading true st))) in
  let st' :=
    match try_body r with
    | Done p => setPuzzle (Some p) st
    | Raise e => loadDefaultPuzzle (setError (Some (catch_message e)) st)
    end in
  setIsLoading false st'.

End Remote.

(** [puzzle.correctOptionIndex].  A stored puzzle is an object, so the
    read does not throw. *)
Definition correct_option (p : jsval) : jsval :=
  default JUndefined (get p "correctOptionIndex").

Definition handleOptionClick (index : Z) (st : state) : state :=
  match puzzle st with
  | None => st
  | Some p =>
      let isCorrect := strict_eq (JNum index) (correct_option p) in
      setSelection (Some (index, isCorrect)) st
  end.

(** The [className] computed for the option at [index] when the puzzle [p]
    is rendered. *)
Definition option_class (p : jsval) (sel : option (Z * bool)) (index : Z)
  : string :=
  let className := "pattern-option-cell" in
  match sel with
  | Some (selected, isCorrect) =>
      if selected =? index
      then className +:+ (if isCorrect then " correct" else " incorrect")
      else if negb isCorrect && strict_eq (JNum index) (correct_option p)
           then className +:+ " correct"
           else className
  | None => className
  end.

End TimHinhDung.

(** ** MaHoaPhepTinhGame (src/unnamed/part_004): emoji arithmetic (remote) *)

Module MaHoaAI.
Import Js.

(** [legend] receives [puzzleData.iconMap] as parsed; [problems] is always
    the array built by [problems.map]. *)
Record state :=
  { theme : string;
    isLoading : bool;
    error : option string;
    legend : jsval;
    problems : list jsval;
    userAnswers : gmap Z string }.

Definition setTheme (t : string) (st : state) : state :=
  {| theme := t; isLoading := isLoading st; error := error st;
     legend := legend st; problems := problems st;
     userAnswers := userAnswers st |}.

Definition setIsLoading (b : bool) (st : state) : state :=
  {| theme := theme st; isLoading := b; error := error st;
     legend := legend st; problems := problems st;
     userAnswers := userAnswers st |}.

Definition setError (e : option string) (st : state) : state :=
  {| theme := theme st; isLoading := isLoading st; error := e;
     legend := legend st; problems := problems st;
     userAnswers := userAnswers st |}.

Definition setLegend (l : jsval) (st : state) : state :=
  {| theme := theme st; isLoading := isLoading st; error := error st;
     legend := l; problems := problems st;
     userAnswers := userAnswers st |}.

Definition setProblems (p : list jsval) (st : state) : state :=
  {| theme := theme st; isLoading := isLoading st; error := error st;
     legend := legend st; problems := p;
     userAnswers := userAnswers st |}.

Definition setUserAnswers (u : gmap Z string) (st : state) : state :=
  {| theme := theme st; isLoading := isLoading st; error := error st;
     legend := legend st; problems := problems st;
     userAnswers := u |}.

Definition default_iconMap : list jsval :=
  [ JObj [("icon", JStr "🐶"); ("value", JNum 1)];
    JObj [("icon", JStr "🐱"); ("value", JNum 2)];
    JObj [("icon", JStr "🐭"); ("value", JNum 3)];
    JObj [("icon", JStr "🦊"); ("value", JNum 4)];
    JObj [("icon", JStr "🐻"); ("value", JNum 5)];
    JObj [("icon", JStr "🐼"); ("value", JNum 6)];
    JObj [("icon", JStr "🐨"); ("value", JNum 7)];
    JObj [("icon", JStr "🐯"); ("value", JNum 8)];
    JObj [("icon", JStr "🦁"); ("value", JNum 9)] ].

Definition default_problems : list jsval :=
  [ JObj [("operand1", JStr "🐱"); ("operand2", JStr "🐶");
          ("operator", JStr "+"); ("result", JNum 3)];
    JObj [("operand1", JStr "🦁"); ("operand2", JStr "🦊");
          ("operator", JStr "-"); ("result", JNum 5)];
    JObj [("operand1", JStr "🐻"); ("operand2", JStr "🐭");
          ("operator", JStr "+"); ("result", JNum 8)];
    JObj [("operand1", JStr "🐯"); ("operand2", JStr "🐨");
          ("operator", JStr "-"); ("result", JNum 1)];
    JObj [("operand1", JStr "🐼"); ("operand2", JStr "🐱");
          ("operator", JStr "+"); ("result", JNum 8)];
    JObj [("operand1", JStr "🦊"); ("operand2", JStr "🐶");
          ("operator", JStr "+"); ("result", JNum 5)];
    JObj [("operand1", JStr "🐨"); ("operand2", JStr "🐻");
          ("operator", JStr "-"); ("result", JNum 2)];
    JObj [("operand1", JStr "🐭"); ("operand2", JStr "🐭");
          ("operator", JStr "+"); ("result", JNum 6)];
    JObj [("operand1", JStr "🦁"); ("operand2", JStr "🐯");
          ("operator", JStr "-"); ("result", JNum 1)];
    JObj [("operand1", JStr "🐼"); ("operand2", JStr "🦊");
          ("operator", JStr "-"); ("result", JNum 2)];
    JObj [("operand1", JStr "🐶"); ("operand2", JStr "🐨");
          ("operator", JStr "+"); ("result", JNum 8)];
    JObj [("operand1", JStr "🐯"); ("operand2", JStr "🐭");
          ("operator", JStr "-"); ("result", JNum 5)] ].

(** [problems.map((p, i) => ({ ...p, id: i }))] *)
Definition number_problems (ps : list jsval) : list jsval :=
  imap (fun i p => JObj (obj_set "id" (JNum (Z.of_nat i)) (own_props p))) ps.

Definition loadDefaultData (st : state) : state :=
  setError None
    (setUserAnswers ∅
      (setProblems (number_problems default_problems)
        (setLegend (JArr default_iconMap)
          (setTheme "động vật" st)))).

Section Remote.
Context `{!Engine}.

(** The test of the [if]:
    [!puzzleData.iconMap || puzzleData.iconMap.length < 9
     || !puzzleData.problems] *)
Definition invalid (puzzleData : jsval) : attempt bool :=
  orA (iconMap ← prop "puzzleData" puzzleData "iconMap";
       Done (negb (truthy iconMap)))
    (orA (iconMap ← prop "puzzleData" puzzleData "iconMap";
          len ← prop "puzzleData.iconMap" iconMap "length";
          lt_num len 9)
       (ps ← prop "puzzleData" puzzleData "problems";
        Done (negb (truthy ps)))).

Definition try_body (r : remote) : attempt (jsval * list jsval) :=
  match r with
  | Threw e => Raise e
  | Parsed puzzleData =>
      bad ← invalid puzzleData;
      if bad : bool
      then Raise (Err "Cấu trúc dữ liệu nhận từ AI không hợp lệ. Vui lòng tạo lại.")
      else
        newLegend ← prop "puzzleData" puzzleData "iconMap";
        ps ← prop "puzzleData" puzzleData "problems";
        match ps with
        | JArr items => Done (newLegend, number_problems items)
        | _ => Raise (Err (error_text "puzzleData.problems.map" ps))
        end
  end.

(** [generateGame], run to completion against the outcome [r] of its
    request. *)
Definition generateGame (r : remote) (st : state) : state :=
  if is_blank (theme st) then
    setError (Some "Vui lòng nhập chủ đề để tạo trò chơi.") st
  else
    let st := setError None (setIsLoading true st) in
    let st' :=
      match try_body r with
      | Done (newLegend, newProblems) =>
          setUserAnswers ∅ (setProblems newProblems (setLegend newLegend st))
      | Raise e =>
          let errorMessage :=
            match e with
            | Err m => m
            | NonErr => "Đã xảy ra lỗi không xác định. Vui lòng thử lại."
            end in
          if rate_limited errorMessage then loadDefaultData st
          else setError (Some errorMessage) st
      end in
    setIsLoading false st'.

(** The same component in its earlier version (src/unnamed/part_003):
    the same request and validation, and a [catch] clause that shows the
    message whatever it says. *)
Definition generateGame_v1 (r : remote) (st : state) : state :=
  if is_blank (theme st) then
    setError (Some "Vui lòng nhập chủ đề để tạo trò chơi.") st
  else
    let st := setError None (setIsLoading true st) in
    let st' :=
      match try_body r with
      | Done (newLegend, newProblems) =>
          setUserAnswers ∅ (setProblems newProblems (setLegend newLegend st))
      | Raise e =>
          let errorMessage :=
            match e with
            | Err m => m
            | NonErr => "Đã xảy ra lỗi không xác định. Vui lòng thử lại."
            end in
          setError (Some errorMessage) st
      end in
    setIsLoading false st'.

End Remote.

End MaHoaAI.

(** ** Games/ToTracNghiem.tsx: dot patterns of characters (remote) *)

Module ToTracNghiem.
Import Js.

Record PatternRow :=
  { id : Z; model : list jsval; userGrid : list Z }.

Record state :=
  { patterns : list PatternRow;
    isLoading : bool;
    error : option string }.

Definition setPatterns (p : list PatternRow) (st : state) : state :=
  {| patterns := p; isLoading := isLoading st; error := error st |}.

Definition setIsLoading (b : bool) (st : state) : state :=
  {| patterns := patterns st; isLoading := b; error := error st |}.

Definition setError (e : option string) (st : state) : state :=
  {| patterns := patterns st; isLoading := isLoading st; error := e |}.

(** ['0123456789abcdefghijklmnopqrstuvwxyz'.split('')] *)
Definition characters : list string :=
  (fun c => String c EmptyString) <$>
    list_ascii_of_string "0123456789abcdefghijklmnopqrstuvwxyz".

(** The outcome of [await Promise.all(patternPromises)] followed, for each
    response in turn, by its [JSON.parse]: the batch rejects as a whole, or
    every request resolved and each text was parsed or threw. *)
Inductive batch :=
| BatchRejected (e : thrown)
| BatchResolved (responses : list remote).

(** [selectedChars[index]] inside a template literal. *)
Definition char_at (selectedChars : list string) (index : nat) : string :=
  default "undefined" (selectedChars !! index).

Section Remote.
Context `{!Engine}.

Definition read_pattern (selectedChars : list string)
    (index : nat) (r : remote) : attempt PatternRow :=
  match r with
  | Threw e => Raise e
  | Parsed data =>
      grid ← prop "data" data "grid";
      match grid with
      | JArr cells =>
          if bool_decide (length cells = 25%nat)
          then Done {| id := Z.of_nat index; model := cells;
                       userGrid := replicate 25 0 |}
          else Raise (Err ("Invalid grid data received for character '"
                           +:+ char_at selectedChars index +:+ "'."))
      | _ => Raise (Err ("Invalid grid data received for character '"
                         +:+ char_at selectedChars index +:+ "'."))
      end
  end.

Definition try_body (selectedChars : list string) (b : batch)
  : attempt (list PatternRow) :=
  match b with
  | BatchRejected e => Raise e
  | BatchResolved responses =>
      mapA (fun '(index, r) => read_pattern selectedChars index r)
           (imap (fun (index : nat) r => (index, r)) responses)
  end.

(** [generateNew], run to completion against the outcome [b] of its batch
    of requests. *)
Definition generateNew (b : batch) (st : state) : Rand state :=
  let st := setError None (setIsLoading true st) in
  shuffled ← shuffleArray characters;
  let selectedChars := take 8 shuffled in
  let st' :=
    match try_body selectedChars b with
    | Done newPatterns => setPatterns newPatterns st
    | Raise e =>
        let errorMessage :=
          match e with
          | Err m => m
          | NonErr => "Đã xảy ra lỗi khi tạo mẫu. Vui lòng thử lại."
          end in
        setError (Some errorMessage) st
    end in
  mret (setIsLoading false st').

End Remote.

(** [newUserGrid[dotIndex] = newUserGrid[dotIndex] === 1 ? 0 : 1] on a copy
    of the row's grid.  [None]: the index lies past the end, where the write
    would leave holes that a list of numbers cannot hold; the clicks come
    from the rendered cells, which are in range. *)
Definition toggle (userGrid : list Z) (dotIndex : nat) : option (list Z) :=
  v ← userGrid !! dotIndex;
  Some (<[dotIndex := if v =? 1 then 0 else 1]> userGrid).

(** [handleDotClick(rowId, dotIndex)] *)
Definition handleDotClick (rowId : Z) (dotIndex : nat) (st : state)
  : option state :=
  rows ← mapM (fun row =>
                 if id row =? rowId then
                   newUserGrid ← toggle (userGrid row) dotIndex;
                   Some {| id := id row; model := model row;
                           userGrid := newUserGrid |}
                 else Some row) (patterns st);
  Some (setPatterns rows st).

End ToTracNghiem.

(** ** The worksheet export shared by the components *)

Module Exporter.
Import Js.

(** The part of the DOM the exporters touch. *)
#[warnings="-register-all"] Inductive node :=
| Element (tag : string) (classes : list string) (value : string)
          (styleWidth : option Z) (children : list node).

(** [gameContentRef.current] when mounted, with its laid-out
    [scrollWidth]. *)
Record mounted := { element : node; scrollWidth : Z }.

(** [document.body]: attached children by identity, and the next identity
    [document.createElement] hands out. *)
Record document := { next_id : nat; body : list (nat * node) }.

(** The bitmap [html2canvas] resolves with; [png] is its
    [toDataURL('image/png')]. *)
Record canvas := { width : Z; height : Z; png : string }.

(** How the promise of [html2canvas] settles. *)
Inductive raster :=
| Resolved (c : canvas)
| Rejected (e : thrown).

Inductive orientation := landscape | portrait.

Record image :=
  { imageData : string; imageFormat : string;
    x : Z; y : Z; w : Z; h : Z }.

(** A [jsPDF] instance as the calls made on it: the constructor options,
    the images added, the name it was saved under. *)
Record jsPDF :=
  { pdf_orientation : orientation;
    pdf_unit : string;
    pdf_format : Z * Z;
    pdf_images : list image;
    pdf_saved : option string }.

Definition has_class (cls : string) (n : node) : bool :=
  match n with Element _ classes _ _ _ => bool_decide (cls ∈ classes) end.

(** [inputs.forEach(input => input.value = '')] over
    [clone.querySelectorAll('input')]: the descendants, not the root. *)
Fixpoint clear_inputs (n : node) : node :=
  match n with
  | Element tag classes value sw children =>
      Element tag classes (if decide (tag = "input") then "" else value) sw
              (map clear_inputs children)
  end.

Definition clear_descendant_inputs (n : node) : node :=
  match n with
  | Element tag classes value sw children =>
      Element tag classes value sw (map clear_inputs children)
  end.

(** [clone.querySelector(sel)?.remove()] for a class selector: the first
    descendant in document order is detached; [None] when nothing
    matches. *)
Fixpoint remove_first (cls : string) (n : node) : option node :=
  match n with
  | Element tag classes value sw children =>
      Element tag classes value sw <$>
        (fix go (l : list node) : option (list node) :=
           match l with
           | [] => None
           | c :: l' =>
               if has_class cls c then Some l'
               else match remove_first cls c with
                    | Some c' => Some (c' :: l')
                    | None => cons c <$> go l'
                    end
           end) children
  end.

Definition set_width (wd : Z) (n : node) : node :=
  match n with
  | Element tag classes value _ children =>
      Element tag classes value (Some wd) children
  end.

(** [document.body.appendChild(printContainer)] for a newly created
    element: returns its identity. *)
Definition appendChild (n : node) (d : document) : nat * document :=
  (next_id d, {| next_id := S (next_id d);
                 body := body d ++ [(next_id d, n)] |}).

(** [document.body.removeChild(child)]; a node that is not a child raises
    [NotFoundError]. *)
Definition removeChild (child : nat) (d : document) : attempt document :=
  if bool_decide (child ∈ (body d).*1)
  then Done {| next_id := next_id d;
               body := filter (fun e => e.1 ≠ child) (body d) |}
  else Raise (Err "NotFoundError").

(** The continuation passed to [.then]: it runs when rasterization
    resolves. *)
Definition on_rasterized (name : string) (printContainer : nat)
    (c : canvas) (d : document) : attempt (document * jsPDF) :=
  d' ← removeChild printContainer d;
  let imgData := png c in
  let margin := 40 in
  let pdfWidth := width c + margin * 2 in
  let pdfHeight := height c + margin * 2 in
  let pdf :=
    {| pdf_orientation := if pdfWidth >? pdfHeight then landscape else portrait;
       pdf_unit := "pt";
       pdf_format := (pdfWidth, pdfHeight);
       pdf_images := [];
       pdf_saved := None |} in
  let pdf :=
    {| pdf_orientation := pdf_orientation pdf; pdf_unit := pdf_unit pdf;
       pdf_format := pdf_format pdf;
       pdf_images :=
         pdf_images pdf ++
           [{| imageData := imgData; imageFormat := "PNG";
               x := margin; y := margin; w := width c; h := height c |}];
       pdf_saved := pdf_saved pdf |} in
  Done (d', {| pdf_orientation := pdf_orientation pdf;
               pdf_unit := pdf_unit pdf; pdf_format := pdf_format pdf;
               pdf_images := pdf_images pdf; pdf_saved := Some name |}).

(** What an export leaves behind: the document body, the file saved if any,
    and an error nobody handled if one was raised. *)
Record outcome :=
  { page : document; file : option jsPDF; unhandled : option thrown }.

(** [html2canvas(printContainer, { scale: 2 }).then(canvas => ...)]: there
    is no rejection handler. *)
Definition settle (name : string) (printContainer : nat) (r : raster)
    (d : document) : outcome :=
  match r with
  | Resolved c =>
      match on_rasterized name printContainer c d with
      | Done (d', pdf) =>
          {| page := d'; file := Some pdf; unhandled := None |}
      | Raise e => {| page := d; file := None; unhandled := Some e |}
      end
  | Rejected e => {| page := d; file := None; unhandled := Some e |}
  end.

(** The state between mounting the duplicate and the settling of the
    rasterization: the body with the container attached. *)
Definition mount (clone : node) (d : document) : nat * document :=
  appendChild (Element "div" ["pdf-print-container"] "" None [clone]) d.

(** [exportPdf] of CongSoGame (CongSo.tsx). *)
Definition exportPdf_CongSo (current : option mounted) (r : raster)
    (d : document) : outcome :=
  match current with
  | None => {| page := d; file := None; unhandled := None |}
  | Some gameElement =>
      let gameClone := set_width (scrollWidth gameElement)
                                 (element gameElement) in
      let gameClone := clear_descendant_inputs gameClone in
      let (printContainer, d1) := mount gameClone d in
      settle "cong-so.pdf" printContainer r d1
  end.

(** [exportPdf] of NoiSoGame (Games/NoiSo.tsx). *)
Definition exportPdf_NoiSo (current : option mounted) (r : raster)
    (d : document) : outcome :=
  match current with
  | None => {| page := d; file := None; unhandled := None |}
  | Some gameElement =>
      let gameClone := set_width (scrollWidth gameElement)
                                 (element gameElement) in
      let gameClone :=
        default gameClone (remove_first "matching-canvas" gameClone) in
      let (printContainer, d1) := mount gameClone d in
      settle "noi-so.pdf" printContainer r d1
  end.

End Exporter.

(** ** Answer fields (CongSo.tsx, MaHoaPhepTinh, MeCungToanHoc) *)

Module Input.

(** A character outside [[^0-9]]. *)
Definition is_digit (c : ascii) : bool :=
  let n := Ascii.nat_of_ascii c in (48 <=? n)%nat && (n <=? 57)%nat.

(** [value.replace(/[^0-9]/g, '')] *)
Fixpoint keep_digits (value : string) : string :=
  match value with
  | EmptyString => EmptyString
  | String c rest =>
      if is_digit c then String c (keep_digits rest) else keep_digits rest
  end.

(** [handleInputChange] of the numeric games:
    [setUserAnswers(prev => ({ ...prev, [id]: value.replace(/[^0-9]/g, '') }))] *)
Definition handleInputChange (id : Z) (value : string) (prev : gmap Z string)
  : gmap Z string :=
  <[id := keep_digits value]> prev.

(** The text an input shows: [userAnswers[id] || '']. *)
Definition shown (userAnswers : gmap Z string) (id : Z) : string :=
  default "" (userAnswers !! id).

End Input.

(** ** Writing into an array by index *)

Module Arrays.

(** [xs[i] = v] for an index [i >= 0].  Inside the array the element is
    replaced; past the end the array grows to length [i + 1] and the
    positions skipped stay empty ([None]). *)
Definition assign {A} (xs : list (option A)) (i : nat) (v : A)
  : list (option A) :=
  if bool_decide (i < length xs)%nat then <[i := Some v]> xs
  else xs ++ replicate (i - length xs) None ++ [Some v].

End Arrays.

(** ** DienKiTuGame (src/unnamed/part_008): stick figures against symbols *)

Module DienKiTu.

(** [poses.length] and [SYMBOLS.length] *)
Definition poses_length : nat := 15.
Definition SYMBOLS_length : nat := 5.

(** [symbolIndex] is [None] where [symbolIndices[i]] is [undefined]. *)
Record LegendItem := { poseIndex : Z; symbolIndex : option Z }.
Record ProblemItem := { id : Z; p_poseIndex : Z }.

Record state :=
  { legend : list LegendItem;
    problems : list ProblemItem;
    userAnswers : gmap Z string }.

Definition generateNew : Rand state :=
  let allPoseIndices := (fun i => Z.of_nat i) <$> seq 0 poses_length in
  shuffledPoses ← shuffleArray allPoseIndices;
  let legendPoses := take 5 shuffledPoses in
  symbolIndices ← shuffleArray ((fun i => Z.of_nat i) <$> seq 0 SYMBOLS_length);
  let newLegend :=
    imap (fun i poseIndex =>
            {| poseIndex := poseIndex; symbolIndex := symbolIndices !! i |})
         legendPoses in
  newProblems ← array_from 20 (fun i =>
    p ← getRandomInt 0 (Z.of_nat poses_length - 1);
    mret {| id := Z.of_nat i; p_poseIndex := p |});
  mret {| legend := newLegend; problems := newProblems; userAnswers := ∅ |}.

(** [handleInputChange]: the value is stored as typed. *)
Definition handleInputChange (id : Z) (value : string) (st : state) : state :=
  {| legend := legend st; problems := problems st;
     userAnswers := <[id := value]> (userAnswers st) |}.

End DienKiTu.

(** ** DienKiTuGame (src/unnamed/part_004): emoji against symbols (remote) *)

Module DienKiTuAI.
Import Js.

Definition SYMBOLS : list string := ["O"; "X"; "+"; "✓"; "—"].

(** [symbol] is [None] where [shuffledSymbols[index]] is [undefined]. *)
Record EmojiLegendItem := { emoji : jsval; symbol : option string }.
Record EmojiProblemItem := { id : Z; p_emoji : jsval }.

Record state :=
  { theme : string;
    isLoading : bool;
    error : option string;
    legend : list EmojiLegendItem;
    problems : list EmojiProblemItem;
    userAnswers : gmap Z string }.

Definition setIsLoading (b : bool) (st : state) : state :=
  {| theme := theme st; isLoading := b; error := error st;
     legend := legend st; problems := problems st;
     userAnswers := userAnswers st |}.

Definition setError (e : option string) (st : state) : state :=
  {| theme := theme st; isLoading := isLoading st; error := e;
     legend := legend st; problems := problems st;
     userAnswers := userAnswers st |}.

Definition setLegend (l : list EmojiLegendItem) (st : state) : state :=
  {| theme := theme st; isLoading := isLoading st; error := error st;
     legend := l; problems := problems st;
     userAnswers := userAnswers st |}.

Definition setProblems (p : list EmojiProblemItem) (st : state) : state :=
  {| theme := theme st; isLoading := isLoading st; error := error st;
     legend := legend st; problems := p;
     userAnswers := userAnswers st |}.

Definition setUserAnswers (u : gmap Z string) (st : state) : state :=
  {| theme := theme st; isLoading := isLoading st; error := error st;
     legend := legend st; problems := problems st;
     userAnswers := u |}.

Section Remote.
Context `{!Engine}.

(** The test of the [if]:
    [!puzzleData.legendEmojis || puzzleData.legendEmojis.length < 5
     || !puzzleData.problemEmojis || puzzleData.problemEmojis.length < 20] *)
Definition invalid (puzzleData : jsval) : attempt bool :=
  orA (legendEmojis ← prop "puzzleData" puzzleData "legendEmojis";
       Done (negb (truthy legendEmojis)))
    (orA (legendEmojis ← prop "puzzleData" puzzleData "legendEmojis";
          len ← prop "puzzleData.legendEmojis" legendEmojis "length";
          lt_num len 5)
       (orA (problemEmojis ← prop "puzzleData" puzzleData "problemEmojis";
             Done (negb (truthy problemEmojis)))
          (problemEmojis ← prop "puzzleData" puzzleData "problemEmojis";
           len ← prop "puzzleData.problemEmojis" problemEmojis "length";
           lt_num len 20))).

(** The [try] body: the state after the setters that were reached, and what
    was thrown, if anything.  [setLegend] runs before the problems are
    mapped. *)
Definition try_body (r : remote) (st : state)
  : Rand (state * option thrown) :=
  match r with
  | Threw e => mret (st, Some e)
  | Parsed puzzleData =>
      match invalid puzzleData with
      | Raise e => mret (st, Some e)
      | Done true =>
          mret (st, Some (Err "Cấu trúc dữ liệu nhận từ AI không hợp lệ. Vui lòng tạo lại."))
      | Done false =>
          shuffledSymbols ← shuffleArray SYMBOLS;
          let legendEmojis :=
            default JUndefined (get puzzleData "legendEmojis") in
          let problemEmojis :=
            default JUndefined (get puzzleData "problemEmojis") in
          match legendEmojis with
          | JArr emojis =>
              let newLegend :=
                imap (fun index e =>
                        {| emoji := e; symbol := shuffledSymbols !! index |})
                     emojis in
              let st1 := setLegend newLegend st in
              match problemEmojis with
              | JArr ps =>
                  let newProblems :=
                    imap (fun i e => {| id := Z.of_nat i; p_emoji := e |}) ps in
                  mret (setUserAnswers ∅ (setProblems newProblems st1), None)
              | _ =>
                  mret (st1,
                        Some (Err (error_text "puzzleData.problemEmojis.map"
                                              problemEmojis)))
              end
          | _ =>
              mret (st,
                    Some (Err (error_text "puzzleData.legendEmojis.map"
                                          legendEmojis)))
          end
      end
  end.

(** [generateGame], run to completion against the outcome [r] of its
    request. *)
Definition generateGame (r : remote) (st : state) : Rand state :=
  if is_blank (theme st) then
    mret (setError (Some "Vui lòng nhập chủ đề để tạo trò chơi.") st)
  else
    let st := setError None (setIsLoading true st) in
    '(st', thrown) ← try_body r st;
    let st'' :=
      match thrown with
      | Some e =>
          let errorMessage :=
            match e with
            | Err m => m
            | NonErr => "Đã xảy ra lỗi không xác định. Vui lòng thử lại."
            end in
          setError (Some errorMessage) st'
      | None => st'
      end in
    mret (setIsLoading false st'').

End Remote.

End DienKiTuAI.

(** ** ToMauManhGhepGame with remote generation (src/unnamed/part_002) *)

Module ToMauAI.
Import Js.

(** Colours are held as received. *)
Record PuzzleState :=
  { id : Z; palette : list jsval; pieceColors : list jsval }.

Record state :=
  { currentTemplate : option jsval;
    referenceColors : list jsval;
    puzzles : list PuzzleState;
    selectedColor : option jsval;
    isLoading : bool;
    error : option string }.

Definition setCurrentTemplate (t : option jsval) (st : state) : state :=
  {| currentTemplate := t; referenceColors := referenceColors st;
     puzzles := puzzles st; selectedColor := selectedColor st;
     isLoading := isLoading st; error := error st |}.

Definition setReferenceColors (c : list jsval) (st : state) : state :=
  {| currentTemplate := currentTemplate st; referenceColors := c;
     puzzles := puzzles st; selectedColor := selectedColor st;
     isLoading := isLoading st; error := error st |}.

Definition setPuzzles (p : list PuzzleState) (st : state) : state :=
  {| currentTemplate := currentTemplate st;
     referenceColors := referenceColors st;
     puzzles := p; selectedColor := selectedColor st;
     isLoading := isLoading st; error := error st |}.

Definition setSelectedColor (c : option jsval) (st : state) : state :=
  {| currentTemplate := currentTemplate st;
     referenceColors := referenceColors st;
     puzzles := puzzles st; selectedColor := c;
     isLoading := isLoading st; error := error st |}.

Definition setIsLoading (b : bool) (st : state) : state :=
  {| currentTemplate := currentTemplate st;
     referenceColors := referenceColors st;
     puzzles := puzzles st; selectedColor := selectedColor st;
     isLoading := b; error := error st |}.

Definition setError (e : option string) (st : state) : state :=
  {| currentTemplate := currentTemplate st;
     referenceColors := referenceColors st;
     puzzles := puzzles st; selectedColor := selectedColor st;
     isLoading := isLoading st; error := e |}.

Definition default_pieces : list jsval :=
  [ JStr "M0 50 V0 H50 C50 25 75 25 75 50 H50 C25 50 25 75 0 75 V50";
    JStr "M100 50 V100 H50 C50 75 25 75 25 50 H50 C75 50 75 25 100 25 V50";
    JStr "M50 100 H0 V50 H25 C25 75 50 75 50 100";
    JStr "M50 0 H100 V50 H75 C75 25 50 25 50 0";
    JStr "M50 50 C25 50 25 25 0 25 V50 H50 M50 50 C75 50 75 25 100 25 V50 H50 M50 50 C75 50 75 75 100 75 V50 H50 M50 50 C25 50 25 75 0 75 V50 H50" ].

Definition default_colors : list jsval :=
  [ JStr "#2ecc71"; JStr "#f1c40f"; JStr "#3498db"; JStr "#e74c3c";
    JStr "#e84393" ].

Definition defaultGameData : jsval :=
  JObj [ ("pieces", JArr default_pieces);
         ("colors", JArr default_colors);
         ("viewBox", JStr "-2 -2 104 104") ].

Section Remote.
Context `{!Engine}.

(** [[...v]]: the elements of an array, the characters of a string;
    nothing else that a response can hold is iterable. *)
Definition spread (v : jsval) : attempt (list jsval) :=
  match v with
  | JArr items => Done items
  | JStr s => Done (JStr <$> chars s)
  | _ => Raise (Err (error_text "[...array]" v))
  end.

(** [Array(len).fill(x)]: a number must be a valid array length; any
    other value makes an array of that one element. *)
Definition filled (len x : jsval) : attempt (list jsval) :=
  match len with
  | JNum z =>
      if (0 <=? z) && (z <? 2 ^ 32) then Done (replicate (Z.to_nat z) x)
      else Raise (Err (error_text "Array(template.pieces.length)" len))
  | _ => Done [x]
  end.

(** One element of [Array.from({ length: 4 }, (_, i) => ...)]: the palette
    is shuffled before the pieces are made. *)
Definition puzzle_at (template : jsval) (shuffledColors : list jsval)
    (i : nat) : Rand (attempt PuzzleState) :=
  pal ← shuffleArray shuffledColors;
  mret (pieces ← prop "template" template "pieces";
        len ← prop "template.pieces" pieces "length";
        colors ← filled len (JStr "white");
        Done {| id := Z.of_nat i; palette := pal; pieceColors := colors |}).

(** The elements in turn, up to the first that throws. *)
Fixpoint puzzles_at (template : jsval) (shuffledColors : list jsval)
    (indices : list nat) : Rand (attempt (list PuzzleState)) :=
  match indices with
  | [] => mret (Done [])
  | i :: rest =>
      p ← puzzle_at template shuffledColors i;
      match p with
      | Raise e => mret (Raise e)
      | Done x =>
          ps ← puzzles_at template shuffledColors rest;
          mret (match ps with
                | Raise e => Raise e
                | Done xs => Done (x :: xs)
                end)
      end
  end.

(** [setupPuzzleState(template)]: the state after the setters that were
    reached, and what was thrown, if anything. *)
Definition setupPuzzleState (template : jsval) (st : state)
  : Rand (state * option thrown) :=
  let st := setCurrentTemplate (Some template) st in
  match (colors ← prop "template" template "colors"; spread colors) with
  | Raise e => mret (st, Some e)
  | Done array =>
      shuffledColors ← shuffleArray array;
      let st := setReferenceColors shuffledColors st in
      newPuzzles ← puzzles_at template shuffledColors (seq 0 4);
      match newPuzzles with
      | Raise e => mret (st, Some e)
      | Done ps => mret (setSelectedColor None (setPuzzles ps st), None)
      end
  end.

Definition loadDefaultData (st : state) : Rand (state * option thrown) :=
  '(st', thrown) ← setupPuzzleState defaultGameData st;
  mret (match thrown with
        | Some e => (st', Some e)
        | None => (setError None st', None)
        end).

(** The test of the [if]:
    [!data.pieces || !data.colors
     || data.pieces.length !== data.colors.length].  The two lengths are
    read from two objects, so they are never one and the same array or
    object. *)
Definition invalid (data : jsval) : attempt bool :=
  orA (pieces ← prop "data" data "pieces"; Done (negb (truthy pieces)))
    (orA (colors ← prop "data" data "colors"; Done (negb (truthy colors)))
       (pieces ← prop "data" data "pieces";
        colors ← prop "data" data "colors";
        a ← prop "data.pieces" pieces "length";
        b ← prop "data.colors" colors "length";
        Done (negb (strict_eq a b)))).

Definition try_body (r : remote) (st : state)
  : Rand (state * option thrown) :=
  match r with
  | Threw e => mret (st, Some e)
  | Parsed data =>
      match invalid data with
      | Raise e => mret (st, Some e)
      | Done true => mret (st, Some (Err "Invalid data structure from AI."))
      | Done false => setupPuzzleState data st
      end
  end.

Definition catch_message (e : thrown) : string :=
  let errorMessage := "Đã xảy ra lỗi khi tạo câu đố." in
  match e with
  | Err m =>
      if rate_limited m
      then "Lượt truy cập API đã hết. Đang tải câu đố mặc định."
      else errorMessage
  | NonErr => errorMessage
  end.

(** [generateNew], run to completion against the outcome [r] of its
    request: the final state, and what the [catch] clause itself threw, if
    anything, which is what reaches the caller. *)
Definition generateNew (r : remote) (st : state)
  : Rand (state * option thrown) :=
  let st := setError None (setIsLoading true st) in
  '(st1, thrown) ← try_body r st;
  '(st2, escaped) ←
    match thrown with
    | None => mret (st1, None)
    | Some e => loadDefaultData (setError (Some (catch_message e)) st1)
    end;
  mret (setIsLoading false st2, escaped).

End Remote.

End ToMauAI.

(** ** ToMauManhGhep.tsx: colouring puzzle pieces after a model *)

Module ToMauManhGhep.

(** A template; [pieces] names the piece components. *)
Record PuzzleTemplate :=
  { t_id : string; pieces : list string; colors : list string;
    viewBox : string }.

(** [pieceColors] may have empty positions ([None]) once it has grown. *)
Record PuzzleState :=
  { id : Z; palette : list string; pieceColors : list (option string) }.

Record state :=
  { currentTemplate : PuzzleTemplate;
    referenceColors : list string;
    puzzles : list PuzzleState;
    selectedColor : option string }.

Definition puzzleTemplates : list PuzzleTemplate :=
  [ {| t_id := "l-shape";
       pieces := ["LPiece1"; "LPiece3"; "LPiece4"; "LPiece2"; "LPiece5"];
       colors := ["#2ecc71"; "#f1c40f"; "#3498db"; "#e74c3c"; "#e84393"];
       viewBox := "-2 -2 104 104" |};
    {| t_id := "square-shape";
       pieces := ["SquarePiece1"; "SquarePiece2"; "SquarePiece3";
                  "SquarePiece4"];
       colors := ["#e67e22"; "#1abc9c"; "#9b59b6"; "#34495e"];
       viewBox := "-2 -2 104 104" |} ].

(** [generateNew].  [None] stands for the [TypeError] of reading
    [template.colors] when the index picks no template. *)
Definition generateNew : Rand (option state) :=
  r ← random;
  let index := Qfloor (r * inject_Z (Z.of_nat (length puzzleTemplates))) in
  match MaHoaLocal.at_index puzzleTemplates index with
  | None => mret None
  | Some template =>
      shuffledColors ← shuffleArray (colors template);
      newPuzzles ← array_from 4 (fun i =>
        pal ← shuffleArray shuffledColors;
        mret {| id := Z.of_nat i; palette := pal;
                pieceColors :=
                  replicate (length (pieces template)) (Some "white") |});
      mret (Some {| currentTemplate := template;
                    referenceColors := shuffledColors;
                    puzzles := newPuzzles;
                    selectedColor := None |})
  end.

(** [onClick={() => setSelectedColor(color)}] of a swatch *)
Definition selectColor (color : string) (st : state) : state :=
  {| currentTemplate := currentTemplate st;
     referenceColors := referenceColors st;
     puzzles := puzzles st; selectedColor := Some color |}.

(** [handlePieceClick(puzzleId, pieceIndex)]; an empty string is as good as
    no selection. *)
Definition handlePieceClick (puzzleId : Z) (pieceIndex : nat) (st : state)
  : state :=
  match selectedColor st with
  | None => st
  | Some color =>
      if bool_decide (color = "") then st
      else
        {| currentTemplate := currentTemplate st;
           referenceColors := referenceColors st;
           puzzles :=
             (fun p =>
                if id p =? puzzleId then
                  {| id := id p; palette := palette p;
                     pieceColors :=
                       Arrays.assign (pieceColors p) pieceIndex color |}
                else p) <$> puzzles st;
           selectedColor := selectedColor st |}
  end.

(** The fill of the piece at [index] in [renderPuzzle]:
    [colors[index] || 'white']. *)
Definition fill_of (pieceColors : list (option string)) (index : nat)
  : string :=
  match pieceColors !! index with
  | Some (Some c) => if bool_decide (c = "") then "white" else c
  | _ => "white"
  end.

End ToMauManhGhep.

(** ** The single-file version of the games (src/unnamed/part_007) *)

Module Legacy.

(** [parseInt(x, 10)]: leading blanks are skipped, a sign is read, then the
    longest run of decimal digits; [None] is [NaN].  An absent value
    converts to the text [undefined], which has no digits.  Values are
    exact integers: a JavaScript number agrees with them up to 2^53, and
    past it rounding never brings a value back below. *)
Fixpoint digits_prefix (acc : option Z) (s : string) : option Z :=
  match s with
  | EmptyString => acc
  | String c s' =>
      match MeCung.digit_value c with
      | Some d => digits_prefix (Some (10 * default 0 acc + d)) s'
      | None => acc
      end
  end.

Definition parseInt (x : option string) : option Z :=
  match x with
  | None => None
  | Some s =>
      match Js.trimStart s with
      | EmptyString => None
      | String sign rest as text =>
          if decide (sign = "-"%char) then Z.opp <$> digits_prefix None rest
          else if decide (sign = "+"%char) then digits_prefix None rest
          else digits_prefix None text
      end
  end.

(** [parseInt(x, 10) === answer] *)
Definition parses_to (x : option string) (answer : Z) : bool :=
  match parseInt x with
  | Some n => n =? answer
  | None => false
  end.

(** *** SumItUpGame *)

Module SumItUp.

Record state :=
  { problems : list CongSo.SumProblem;
    userAnswers : gmap Z string;
    checked : bool }.

Definition generateProblems : Rand state :=
  newProblems ← array_from 6 (fun i =>
    numCount ← getRandomInt 2 3;
    numbers ← array_from (Z.to_nat numCount) (fun _ => getRandomInt 0 9);
    let answer := fold_left Z.add numbers 0 in
    mret {| CongSo.id := Z.of_nat i; CongSo.numbers := numbers;
            CongSo.answer := answer |});
  mret {| problems := newProblems; userAnswers := ∅; checked := false |}.

Definition handleInputChange (id : Z) (value : string) (st : state) : state :=
  {| problems := problems st;
     userAnswers := <[id := Input.keep_digits value]> (userAnswers st);
     checked := false |}.

(** [onClick={() => setChecked(true)}] *)
Definition check (st : state) : state :=
  {| problems := problems st; userAnswers := userAnswers st;
     checked := true |}.

Definition getStatus (st : state) (id : Z) (answer : Z) : string :=
  if negb (checked st) then ""
  else if parses_to (userAnswers st !! id) answer then "correct"
       else "incorrect".

End SumItUp.

(** *** MatchingGame *)

Module Matching.

Inductive kind := equation | object.

Record MatchItem := { id : string; content : string; matchId : string }.

Record state :=
  { leftItems : list MatchItem;
    rightItems : list MatchItem;
    selectedLeft : option MatchItem;
    connections : gmap string string;
    checked : bool }.

Definition icons : list string :=
  ["🍎"; "⭐"; "🚗"; "☀️"; "⚽"; "☂️"; "🎈"].

(** [baseItems] as pairs of [content] and [matchId]. *)
Definition generateItems (type : kind) : Rand state :=
  baseItems ←
    match type with
    | equation =>
        array_from 5 (fun _ =>
          a ← getRandomInt 0 5;
          b ← getRandomInt 1 5;
          mret (pretty a +:+ " + " +:+ pretty b, pretty (a + b)))
    | object =>
        shuffled ← shuffleArray icons;
        mret ((fun icon => (icon, icon)) <$> take 5 shuffled)
    end;
  let newLeftItems :=
    imap (fun i (item : string * string) =>
            {| id := "l-" +:+ pretty i; content := item.1;
               matchId := item.2 |}) baseItems in
  newRightItems ← shuffleArray
    (imap (fun i (item : string * string) =>
             {| id := "r-" +:+ pretty i; content := item.2;
                matchId := item.1 |}) baseItems);
  mret {| leftItems := newLeftItems; rightItems := newRightItems;
          selectedLeft := None; connections := ∅; checked := false |}.

Definition handleLeftClick (item : MatchItem) (st : state) : state :=
  {| leftItems := leftItems st; rightItems := rightItems st;
     selectedLeft := Some item; connections := connections st;
     checked := false |}.

Definition handleRightClick (item : MatchItem) (st : state) : state :=
  match selectedLeft st with
  | Some sel =>
      {| leftItems := leftItems st; rightItems := rightItems st;
         selectedLeft := None;
         connections := <[id sel := id item]> (connections st);
         checked := checked st |}
  | None => st
  end.

Definition check (st : state) : state :=
  {| leftItems := leftItems st; rightItems := rightItems st;
     selectedLeft := selectedLeft st; connections := connections st;
     checked := true |}.

(** [items.find(i => i.id === wanted)] *)
Definition find (wanted : string) (items : list MatchItem)
  : option MatchItem :=
  snd <$> list_find (fun i => id i = wanted) items.

(** The value assigned to [ctx.strokeStyle] before the line of the
    connection from [leftId] to [rightId] is drawn; an item that is not
    found gives [undefined] on its side of the comparison. *)
Definition strokeStyle (st : state) (leftId rightId : string) : string :=
  let isCorrect :=
    checked st &&
    bool_decide (matchId <$> find leftId (leftItems st)
                 = content <$> find rightId (rightItems st)) in
  if checked st then
    if isCorrect then "var(--correct-color)" else "var(--incorrect-color)"
  else "var(--primary-color)".

End Matching.

(** *** MathMazeGame *)

Module MathMaze.

(** [value] is always a number here; [arrow] is [None] where the property
    is absent. *)
Record MazeNode :=
  { value : Z; op : string; isInput : bool;
    gridPos : Z * Z; arrow : option string }.

Record state :=
  { path : list MazeNode;
    userAnswers : gmap nat string;
    checked : bool }.

(** Positions as (row, col). *)
Definition structure : list ((Z * Z) * option string) :=
  [ ((1, 1), Some "right"); ((1, 2), Some "down"); ((2, 2), Some "down");
    ((3, 2), Some "left"); ((3, 1), Some "down"); ((4, 1), Some "right");
    ((4, 2), Some "right"); ((4, 3), Some "up"); ((3, 3), Some "up");
    ((2, 3), Some "right"); ((2, 4), None) ].

(** The loop [for (let i = 0; i < structure.length - 1; i++)], which reads
    [structure[i + 1]]: [rest] holds the entries still to visit. *)
Fixpoint walk (rest : list ((Z * Z) * option string))
    (currentValue : Z) (newPath : list MazeNode) : Rand (list MazeNode) :=
  match rest with
  | [] => mret newPath
  | s :: rest' =>
      add ← coin;
      amount ← getRandomInt 1 9;
      let op := (if add : bool then "+" else "-")%string
                  +:+ " " +:+ pretty amount in
      let currentValue' :=
        if add then currentValue + amount
        else Z.max 0 (currentValue - amount) in
      walk rest' currentValue'
           (newPath ++ [{| value := currentValue'; isInput := true;
                           op := op; gridPos := s.1; arrow := s.2 |}])
  end.

(** [generatePath]; [None] stands for the [TypeError] of reading
    [structure[0].pos] on an empty structure. *)
Definition generatePath : Rand (option state) :=
  start ← getRandomInt 3 10;
  match structure with
  | [] => mret None
  | s0 :: rest =>
      newPath ← walk rest start
        [{| value := start; isInput := false; op := "";
            gridPos := s0.1; arrow := s0.2 |}];
      mret (Some {| path := newPath; userAnswers := ∅; checked := false |})
  end.

Definition handleInputChange (index : nat) (value : string) (st : state)
  : state :=
  {| path := path st;
     userAnswers := <[index := Input.keep_digits value]> (userAnswers st);
     checked := false |}.

Definition check (st : state) : state :=
  {| path := path st; userAnswers := userAnswers st; checked := true |}.

Definition getStatus (st : state) (index : nat) (answer : Z) : string :=
  if negb (checked st) then ""
  else if parses_to (userAnswers st !! index) answer then "correct"
       else "incorrect".

(** The cell rendered at [index]: an [input] for a node with [isInput],
    with [readOnly={index === path.length - 1}]; the number otherwise. *)
Inductive cell :=
| Shown (value : Z)
| InputCell (className : string) (shown : string) (readOnly : bool).

Definition render_cell (st : state) (index : nat) : option cell :=
  node ← path st !! index;
  Some (if isInput node then
          InputCell ("maze-input " +:+ getStatus st index (value node))
                    (default "" (userAnswers st !! index))
                    (bool_decide (index = (length (path st) - 1)%nat))
        else Shown (value node)).

End MathMaze.

End Legacy.

(** * Specifications *)

(** ** The addition worksheet *)

(** What [generateProblems] guarantees of the problem numbered [i]. *)
Definition sum_problem_ok (i : nat) (p : CongSo.SumProblem) : Prop :=
  CongSo.id p = Z.of_nat i /\
  (2 <= length (CongSo.numbers p) <= 3)%nat /\
  Forall (fun n => 0 <= n <= 9) (CongSo.numbers p) /\
  CongSo.answer p = foldr Z.add 0 (CongSo.numbers p).

(** ** The number maze *)

Section MazeSpec.
Import MeCung.

(** Consecutive connections: the first leaves [prev], each one arrives at
    the next recorded node, and the next one leaves from there. *)
Fixpoint chained (prev : MazeNode) (cs : list MazeConnection)
    (ns : list MazeNode) : Prop :=
  match cs, ns with
  | [], [] => True
  | c :: cs', n :: ns' => from c = prev /\ to c = n /\ chained n cs' ns'
  | _, _ => False
  end.

(** A label of the form [+k] or [-k] with [k] between 1 and 9. *)
Definition step_label (s : string) : Prop :=
  exists (add : bool) (k : Z), parse_op s = Some (add, k) /\ 1 <= k <= 9.

End MazeSpec.

(** ** The pairing generators *)

Section Pairing.
Context {L R : Type}.
Variables (lid : L -> string) (lanswer lkey : L -> string).
Variables (rvalue rkey : R -> string).

(** A pairing instance with 5 base pairs: 5 left items with pairwise
    distinct identifiers, the right column showing a permutation of the
    left items' answers, and for each left item exactly one right item
    with the same match-key. *)
Definition well_paired (left : list L) (right : list R) : Prop :=
  length left = 5%nat /\
  NoDup (lid <$> left) /\
  rvalue <$> right ≡ₚ lanswer <$> left /\
  forall l, l ∈ left ->
    exists r, r ∈ right /\ rkey r = lkey l /\
              forall r', r' ∈ right -> rkey r' = lkey l -> r' = r.

End Pairing.

(** The two columns of the equation game over its base items. *)
Definition NoiPhepTinh_left (i : nat) (item : NoiPhepTinh.BaseItem)
  : NoiPhepTinh.MatchItem :=
  {| NoiPhepTinh.id := "l-" +:+ pretty i;
     NoiPhepTinh.content := NoiPhepTinh.b_content item;
     NoiPhepTinh.matchId := NoiPhepTinh.b_matchId item |}.

Definition NoiPhepTinh_right (i : nat) (item : NoiPhepTinh.BaseItem)
  : NoiPhepTinh.MatchItem :=
  {| NoiPhepTinh.id := "r-" +:+ pretty i;
     NoiPhepTinh.content := NoiPhepTinh.b_matchId item;
     NoiPhepTinh.matchId := NoiPhepTinh.b_content item |}.

(** ** Worksheet export *)

Section ExportSpec.
Import Exporter.

(** Identities handed out so far are below [next_id]. *)
Definition well_formed (d : document) : Prop :=
  Forall (fun e => (e.1 < next_id d)%nat) (body d).

(** The body is what it was before the export began. *)
Definition no_leak (before : document) (o : outcome) : Prop :=
  body (page o) = body before.

(** The document a resolved export saves, for a bitmap [c]. *)
Definition expected_pdf (name : string) (c : canvas) : jsPDF :=
  {| pdf_orientation :=
       if bool_decide (width c + 2 * 40 > height c + 2 * 40)
       then landscape else portrait;
     pdf_unit := "pt";
     pdf_format := (width c + 2 * 40, height c + 2 * 40);
     pdf_images := [{| imageData := png c; imageFormat := "PNG";
                       x := 40; y := 40; w := width c; h := height c |}];
     pdf_saved := Some name |}.

(** What C8 asks of an export outcome for a bitmap [c] and margin 40. *)
Definition page_fits (name : string) (c : canvas) (o : outcome) : Prop :=
  let margin := 40 in
  exists pdf,
    file o = Some pdf /\
    unhandled o = None /\
    pdf_unit pdf = "pt" /\
    pdf_format pdf = (width c + 2 * margin, height c + 2 * margin) /\
    pdf_images pdf =
      [{| imageData := png c; imageFormat := "PNG";
          x := margin; y := margin; w := width c; h := height c |}] /\
    (pdf_orientation pdf = landscape <->
     width c + 2 * margin > height c + 2 * margin) /\
    (pdf_orientation pdf = portrait <->
     width c + 2 * margin <= height c + 2 * margin) /\
    pdf_saved pdf = Some name.

End ExportSpec.

(** ** Draws *)

(** A draw on which [getRandomInt min max] returns [k]: of the
    [max - min + 1] equal parts of the unit interval, the multiple of 2^-52
    at or just below the middle of the part numbered [k - min]. *)
Definition draw_for (min max k : Z) : Q :=
  Qmake ((2 * (k - min) + 1) * 2 ^ 51 / (max - min + 1)) (2 ^ 52).

(** ** Remote generation *)

Section RemoteSpec.
Import Js.

(** The emoji game shows its fixed fallback puzzle. *)
Definition MaHoaAI_fallen_back (st : MaHoaAI.state) : Prop :=
  MaHoaAI.legend st = JArr MaHoaAI.default_iconMap /\
  MaHoaAI.problems st = MaHoaAI.number_problems MaHoaAI.default_problems.

(** The number game shows its fixed fallback pairs, in some order. *)
Definition NoiSo_fallen_back (st : NoiSo.state) : Prop :=
  exists baseItems,
    baseItems ≡ₚ NoiSo.defaultGameData /\
    NoiSo.leftItems st =
      imap (fun i item =>
              {| NoiSo.id := "l-" +:+ pretty i;
                 NoiSo.svg := JStr (NoiSo.p_svg item);
                 NoiSo.count := JNum (NoiSo.p_count item);
                 NoiSo.entry := i |}) baseItems /\
    NoiSo.rightItems st ≡ₚ
      imap (fun i item =>
              {| NoiSo.r_id := "r-" +:+ pretty i;
                 NoiSo.r_count := JNum (NoiSo.p_count item);
                 NoiSo.r_entry := i |}) baseItems /\
    NoiSo.selectedLeft st = None /\
    NoiSo.connections st = ∅.

(** The grid game shows its fixed fallback puzzle. *)
Definition TimHinhDung_fallen_back (st : TimHinhDung.state) : Prop :=
  TimHinhDung.puzzle st =
    Some (JObj (TimHinhDung.defaultPuzzle ++ [("missingIndex", JNum 4)])).

(** The colouring game shows its fixed fallback puzzle: the default
    template, its colours in some order, and four boards of white pieces,
    each with the colours in an order of its own. *)
Definition ToMauAI_fallen_back (st : ToMauAI.state) : Prop :=
  ToMauAI.currentTemplate st = Some ToMauAI.defaultGameData /\
  ToMauAI.referenceColors st ≡ₚ ToMauAI.default_colors /\
  length (ToMauAI.puzzles st) = 4%nat /\
  (forall i p, ToMauAI.puzzles st !! i = Some p ->
     ToMauAI.id p = Z.of_nat i /\
     ToMauAI.palette p ≡ₚ ToMauAI.default_colors /\
     ToMauAI.pieceColors p = replicate 5 (JStr "white")) /\
  ToMauAI.selectedColor st = None.



End RemoteSpec.

(** ** Playing the pairing games *)

(** A click on an item of the left or of the right column. *)
Inductive click (L R : Type) :=
| OnLeft (item : L)
| OnRight (item : R).
Arguments OnLeft {L R} item.
Arguments OnRight {L R} item.

Definition NoiBong_click (st : NoiBong.state)
    (c : click NoiBong.MatchItem NoiBong.MatchItem) : NoiBong.state :=
  match c with
  | OnLeft item => NoiBong.handleLeftClick item st
  | OnRight item => NoiBong.handleRightClick item st
  end.

Definition NoiSo_click (st : NoiSo.state)
    (c : click NoiSo.LeftItem NoiSo.RightItem) : NoiSo.state :=
  match c with
  | OnLeft item => NoiSo.handleLeftClick item st
  | OnRight item => NoiSo.handleRightClick item st
  end.

(** The clicks all land on items of the two columns. *)
Definition on_board {L R} (left : list L) (right : list R)
    (cs : list (click L R)) : Prop :=
  Forall (fun c => match c with
                   | OnLeft item => item ∈ left
                   | OnRight item => item ∈ right
                   end) cs.

(** Every recorded edge joins a left item and a right item of the columns
    whose match-keys agree. *)
Definition NoiBong_edges_match (st : NoiBong.state) : Prop :=
  forall l r, NoiBong.connections st !! l = Some r ->
    exists li ri,
      li ∈ NoiBong.leftItems st /\ ri ∈ NoiBong.rightItems st /\
      NoiBong.id li = l /\ NoiBong.id ri = r /\
      NoiBong.iconId li = NoiBong.iconId ri.

(** [li.count === ri.count] for a left and a right item: by value for
    primitives; an array or an object is equal to itself only, and two
    items hold the same one when they were built from the same entry. *)
Definition NoiSo_same_count (li : NoiSo.LeftItem) (ri : NoiSo.RightItem)
  : bool :=
  Js.strict_eq_ref (bool_decide (NoiSo.entry li = NoiSo.r_entry ri))
                   (NoiSo.count li) (NoiSo.r_count ri).

(** Arrays and objects, the values [===] compares by identity. *)
Definition is_reference (v : Js.jsval) : Prop :=
  match v with Js.JArr _ | Js.JObj _ => True | _ => False end.

(** Two values of one type in the sense of [===]. *)
Definition same_kind (a b : Js.jsval) : Prop :=
  match a, b with
  | Js.JUndefined, Js.JUndefined | Js.JNull, Js.JNull
  | Js.JBool _, Js.JBool _ | Js.JNum _, Js.JNum _ | Js.JStr _, Js.JStr _
  | Js.JArr _, Js.JArr _ | Js.JObj _, Js.JObj _ => True
  | _, _ => False
  end.

Definition NoiSo_edges_match (st : NoiSo.state) : Prop :=
  forall l r, NoiSo.connections st !! l = Some r ->
    exists li ri,
      li ∈ NoiSo.leftItems st /\ ri ∈ NoiSo.rightItems st /\
      NoiSo.id li = l /\ NoiSo.r_id ri = r /\
      NoiSo_same_count li ri = true.

(** What the equation generator guarantees of an item and its base pair:
    the equation text and the decimal text of its sum. *)
Definition sum_pair (equation sum : string) : Prop :=
  exists a b, 0 <= a <= 5 /\ 1 <= b <= 5 /\
    equation = pretty a +:+ " + " +:+ pretty b /\ sum = pretty (a + b).

(** ** Reading accepted responses *)

(** U+00A0, the no-break space, in its two bytes. *)
Definition nbsp : string :=
  String (Ascii.ascii_of_nat 194) (String (Ascii.ascii_of_nat 160) EmptyString).

(** [v.k] on a value that is neither [null] nor [undefined]. *)
Definition field (v : Js.jsval) (k : string) : Js.jsval :=
  default Js.JUndefined (Js.get v k).

Definition not_nullish (v : Js.jsval) : Prop :=
  v <> Js.JNull /\ v <> Js.JUndefined.

(** A response of the dot-grid game that passes its check: a value whose
    [grid] is an array of 25 cells. *)
Definition grid_response (r : Js.remote) (cells : list Js.jsval) : Prop :=
  exists data, r = Js.Parsed data /\
    field data "grid" = Js.JArr cells /\ length cells = 25%nat.

(** What [generateNew] leaves in every row and the clicks keep: a grid of
    25 cells, each 0 or 1. *)
Definition dot_grids_ok (st : ToTracNghiem.state) : Prop :=
  Forall (fun row =>
            length (ToTracNghiem.userGrid row) = 25%nat /\
            Forall (fun v => v = 0 \/ v = 1) (ToTracNghiem.userGrid row))
         (ToTracNghiem.patterns st).

(** The row after a click on cell [dotIndex] of row [rowId]. *)
Definition flip_cell (rowId : Z) (dotIndex : nat)
    (row : ToTracNghiem.PatternRow) : ToTracNghiem.PatternRow :=
  if ToTracNghiem.id row =? rowId then
    {| ToTracNghiem.id := ToTracNghiem.id row;
       ToTracNghiem.model := ToTracNghiem.model row;
       ToTracNghiem.userGrid :=
         <[dotIndex :=
             if default 0 (ToTracNghiem.userGrid row !! dotIndex) =? 1
             then 0 else 1]> (ToTracNghiem.userGrid row) |}
  else row.

(** The values of the [input] elements of a subtree, in document order,
    the root included; and those of its proper descendants, which is what
    [querySelectorAll('input')] ranges over. *)
Fixpoint input_values (n : Exporter.node) : list string :=
  match n with
  | Exporter.Element tag _ value _ children =>
      (if decide (tag = "input") then [value] else [])
        ++ concat (map input_values children)
  end.

Definition descendant_inputs (n : Exporter.node) : list string :=
  match n with
  | Exporter.Element _ _ _ _ children => concat (map input_values children)
  end.



Definition root_value (n : Exporter.node) : string :=
  match n with Exporter.Element _ _ value _ _ => value end.

(** A run of [k] zeros, as typed in front of a numeral. *)
Fixpoint zeros (k : nat) : string :=
  match k with
  | O => EmptyString
  | S k' => String "0"%char (zeros k')
  end.

(** What a user can do with the single-file maze on screen: press the check
    button, or type into a cell, which reaches [handleInputChange] only
    when the cell is an input that is not read-only. *)
Inductive maze_action :=
| MazeTyped (index : nat) (value : string)
| MazeChecked.

Definition maze_act (st : Legacy.MathMaze.state) (a : maze_action)
  : Legacy.MathMaze.state :=
  match a with
  | MazeTyped index value =>
      match Legacy.MathMaze.render_cell st index with
      | Some (Legacy.MathMaze.InputCell _ _ false) =>
          Legacy.MathMaze.handleInputChange index value st
      | _ => st
      end
  | MazeChecked => Legacy.MathMaze.check st
  end.

(** * Properties *)

(** ** Drawing computations *)

Lemma fair_tail g : fair g -> fair (fun n => g (S n)).
Proof. intros Hg n. apply Hg. Qed.

Lemma fair_cycle l :
  l <> [] -> Forall (fun q => (0 <= q)%Q /\ (q < 1)%Q) l -> fair (cycle l).
Proof.
  intros Hne Hall n. unfold cycle.
  rewrite Forall_forall in Hall. apply Hall, list_elem_of_In, nth_In.
  apply Nat.mod_upper_bound. destruct l; [done | discriminate].
Qed.

Lemma ensures_ret {A} (x : A) (P : A -> Prop) : P x -> ensures (mret x) P.
Proof. intros HP g Hg. done. Qed.

Lemma ensures_bind {A B} (m : Rand A) (f : A -> Rand B) P Q :
  ensures m P -> (forall x, P x -> ensures (f x) Q) -> ensures (m ≫= f) Q.
Proof.
  intros Hm Hf g Hg. unfold mbind, Rand_bind.
  destruct (Hm g Hg) as [HP Hg']. destruct (m g) as [x g']. simpl in *.
  by apply Hf.
Qed.

Lemma ensures_random : ensures random (fun r => (0 <= r)%Q /\ (r < 1)%Q).
Proof. intros g Hg. split; [apply Hg | by apply fair_tail]. Qed.

Lemma ensures_coin (P : bool -> Prop) :
  (forall b, P b) -> ensures coin P.
Proof.
  intros HP. unfold coin. eapply ensures_bind; [apply ensures_random |].
  intros r _. by apply ensures_ret.
Qed.

Lemma floor_scaled_range (r : Q) (n : Z) :
  (0 <= r)%Q -> (r < 1)%Q -> 0 < n -> 0 <= Qfloor (r * inject_Z n) < n.
Proof.
  intros H0 H1 Hn. split.
  - change 0 with (Qfloor 0). apply Qfloor_resp_le.
    apply Qmult_le_0_compat; [done |].
    change 0%Q with (inject_Z 0). rewrite <- Zle_Qle. lia.
  - assert (Hlt : (r * inject_Z n < inject_Z n)%Q).
    { rewrite <- (Qmult_1_l (inject_Z n)) at 2.
      apply Qmult_lt_compat_r; [| done].
      change 0%Q with (inject_Z 0). rewrite <- Zlt_Qlt. lia. }
    pose proof (Qfloor_le (r * inject_Z n)) as Hfl.
    rewrite Zlt_Qlt. eapply Qle_lt_trans; eauto.
Qed.

Lemma ensures_getRandomInt (min max : Z) :
  min <= max -> ensures (getRandomInt min max) (fun v => min <= v <= max).
Proof.
  intros Hle. unfold getRandomInt.
  eapply ensures_bind; [apply ensures_random |].
  intros r [H0 H1]. apply ensures_ret.
  pose proof (floor_scaled_range r (max - min + 1) H0 H1). lia.
Qed.

Lemma ensures_mapR {A B} (f : A -> Rand B) (P : A -> B -> Prop) xs :
  (forall x, x ∈ xs -> ensures (f x) (P x)) ->
  ensures (mapR f xs) (Forall2 P xs).
Proof.
  induction xs as [| x xs IH]; intros Hf; simpl.
  - apply ensures_ret. constructor.
  - eapply ensures_bind; [apply Hf; left |].
    intros y Hy. eapply ensures_bind.
    + apply IH. intros x' Hx'. apply Hf. by right.
    + intros ys Hys. apply ensures_ret. by constructor.
Qed.

Lemma ensures_array_from {A} (f : nat -> Rand A) (P : nat -> A -> Prop) len :
  (forall i, (i < len)%nat -> ensures (f i) (P i)) ->
  ensures (array_from len f) (Forall2 P (seq 0 len)).
Proof.
  intros Hf. apply ensures_mapR. intros i Hi. apply Hf.
  apply elem_of_seq in Hi. lia.
Qed.

(** ** The shuffle *)

Section SortFacts.
Context {T : Type} (compareFn : T -> T -> Rand Q).
Implicit Types xs ys sorted pending : list T.

Lemma sort_insert_perm (x : T) xs g :
  (sort_insert compareFn x xs g).1 ≡ₚ x :: xs.
Proof.
  revert g. induction xs as [| y xs IH]; intros g; simpl; [done |].
  unfold mbind, Rand_bind. destruct (compareFn x y g) as [v g1].
  destruct (Qcompare v 0); simpl; try done.
  specialize (IH g1).
  destruct (sort_insert compareFn x xs g1) as [zs g2]. simpl in *.
  rewrite IH. apply perm_swap.
Qed.

Lemma sort_from_perm sorted pending g :
  (sort_from compareFn sorted pending g).1 ≡ₚ sorted ++ pending.
Proof.
  revert sorted g. induction pending as [| x pending IH]; intros sorted g.
  - simpl. by rewrite app_nil_r.
  - simpl. unfold mbind, Rand_bind.
    pose proof (sort_insert_perm x sorted g) as Hins.
    destruct (sort_insert compareFn x sorted g) as [s g']. simpl in Hins.
    rewrite IH, Hins. simpl. apply Permutation_middle.
Qed.

(** Whatever the comparator answers, sorting rearranges. *)
Lemma array_sort_perm xs g : (array_sort compareFn xs g).1 ≡ₚ xs.
Proof. apply (sort_from_perm [] xs g). Qed.

Hypothesis compareFn_fair : forall a b g, fair g -> fair (compareFn a b g).2.

Lemma sort_insert_fair (x : T) xs g :
  fair g -> fair (sort_insert compareFn x xs g).2.
Proof.
  revert g. induction xs as [| y xs IH]; intros g Hg; simpl; [done |].
  unfold mbind, Rand_bind. pose proof (compareFn_fair x y g Hg) as Hg1.
  destruct (compareFn x y g) as [v g1]. simpl in Hg1.
  destruct (Qcompare v 0); simpl; try done.
  specialize (IH g1 Hg1).
  by destruct (sort_insert compareFn x xs g1) as [zs g2].
Qed.

Lemma sort_from_fair sorted pending g :
  fair g -> fair (sort_from compareFn sorted pending g).2.
Proof.
  revert sorted g. induction pending as [| x pending IH]; intros sorted g Hg.
  - done.
  - simpl. unfold mbind, Rand_bind.
    pose proof (sort_insert_fair x sorted g Hg) as Hins.
    destruct (sort_insert compareFn x sorted g) as [s g']. by apply IH.
Qed.

End SortFacts.

Lemma shuffleArray_perm {T} (xs : list T) g : (shuffleArray xs g).1 ≡ₚ xs.
Proof. apply array_sort_perm. Qed.

Lemma ensures_shuffleArray {T} (xs : list T) :
  ensures (shuffleArray xs) (fun ys => ys ≡ₚ xs).
Proof.
  intros g Hg. split; [apply shuffleArray_perm |].
  apply sort_from_fair; [| done]. intros a b g' Hg'. by apply fair_tail.
Qed.

(** C10.  [shuffleArray] allocates a new array holding a rearrangement of
    the elements of its argument, each element as many times as before, and
    leaves the argument and every other array in the store untouched. *)
Theorem shuffleArray_permutes_fresh_copy
    {T : Type} (h : gmap nat (list T)) (array : nat) (xs : list T) (g : rng) :
  h !! array = Some xs ->
  exists result ys h',
    (shuffleArray_ref array h g).1 = Some (result, h') /\
    h' !! result = Some ys /\
    ys ≡ₚ xs /\
    ys = (shuffleArray xs g).1 /\
    result <> array /\
    h' !! array = Some xs /\
    (forall l, l <> result -> h' !! l = h !! l).
Proof.
  intros Hin. unfold shuffleArray_ref, alloc, sort_in_place. rewrite Hin.
  set (copy := fresh (dom h)).
  assert (Hfresh : h !! copy = None).
  { apply not_elem_of_dom, is_fresh. }
  assert (Hne : copy <> array) by congruence.
  unfold mbind at 1, Rand_bind. rewrite lookup_insert_eq.
  unfold mbind at 1, Rand_bind.
  pose proof (shuffleArray_perm xs g) as Hperm. unfold shuffleArray in *.
  destruct (array_sort coin_flip xs g) as [ys g']. simpl in *.
  exists copy, ys, (<[copy := ys]> (<[copy := xs]> h)).
  repeat split; try done.
  - apply lookup_insert_eq.
  - by rewrite !lookup_insert_ne.
  - intros l Hl. by rewrite !lookup_insert_ne.
Qed.

Lemma shuffleArray_permutes_fresh_copy_witness :
  exists result ys h',
    (shuffleArray_ref 0%nat ({[ 0%nat := [3; 1; 2] ]} : gmap nat (list Z))
                      (cycle [7 # 10; 1 # 5; 9 # 10])).1
      = Some (result, h') /\
    h' !! result = Some ys /\
    ys ≡ₚ [3; 1; 2] /\
    ys = (shuffleArray [3; 1; 2] (cycle [7 # 10; 1 # 5; 9 # 10])).1 /\
    result <> 0%nat /\
    h' !! 0%nat = Some [3; 1; 2] /\
    (forall l, l <> result ->
       h' !! l = ({[ 0%nat := [3; 1; 2] ]} : gmap nat (list Z)) !! l).
Proof.
  apply (shuffleArray_permutes_fresh_copy _ 0%nat [3; 1; 2]). reflexivity.
Defined.

(** ** The addition worksheet *)

Lemma Forall2_seq_length {A} (P : nat -> A -> Prop) (xs : list A) start len :
  Forall2 P (seq start len) xs -> length xs = len.
Proof. intros H. apply Forall2_length in H. by rewrite length_seq in H. Qed.

Lemma Forall2_Forall_r {A B} (P : A -> B -> Prop) (Q : B -> Prop) xs ys :
  (forall x y, P x y -> Q y) -> Forall2 P xs ys -> Forall Q ys.
Proof. intros HPQ. induction 1; constructor; eauto. Qed.

Lemma Forall2_fmap_eq {A B C} (f : B -> C) (g : A -> C) xs ys :
  Forall2 (fun x y => f y = g x) xs ys -> f <$> ys = g <$> xs.
Proof. induction 1 as [| x y xs ys Hxy _ IH]; [done |]. cbn. by rewrite Hxy, IH. Qed.

Lemma sum_left_right (l : list Z) : fold_left Z.add l 0 = foldr Z.add 0 l.
Proof. apply fold_symmetric; intros; lia. Qed.

Lemma ensures_generateProblems :
  ensures CongSo.generateProblems (Forall2 sum_problem_ok (seq 0 6)).
Proof.
  unfold CongSo.generateProblems. apply ensures_array_from. intros i _.
  eapply ensures_bind.
  { apply (ensures_getRandomInt 2 3). lia. }
  intros numCount HnumCount. eapply ensures_bind.
  { apply (ensures_array_from _ (fun _ n => 0 <= n <= 9)).
    intros _ _. apply ensures_getRandomInt. lia. }
  intros numbers Hnumbers. apply ensures_ret. unfold sum_problem_ok. simpl.
  pose proof (Forall2_seq_length _ _ _ _ Hnumbers) as Hlen.
  simpl in HnumCount. repeat split; try lia.
  - eapply Forall2_Forall_r; [| exact Hnumbers]. done.
  - apply sum_left_right.
Qed.

(** C2.  The arithmetic generator produces exactly 6 problems, numbered 0
    to 5; each has 2 or 3 operands, every operand lies in [0,9], and the
    stored answer is the sum of the operands. *)
Theorem generateProblems_six_exact_sums (g : rng) :
  fair g ->
  let problems := (CongSo.generateProblems g).1 in
  length problems = 6%nat /\
  CongSo.id <$> problems = [0; 1; 2; 3; 4; 5] /\
  Forall (fun p =>
            (2 <= length (CongSo.numbers p) <= 3)%nat /\
            Forall (fun n => 0 <= n <= 9) (CongSo.numbers p) /\
            CongSo.answer p = foldr Z.add 0 (CongSo.numbers p)) problems.
Proof.
  intros Hg problems. destruct (ensures_generateProblems g Hg) as [H _].
  fold problems in H. clearbody problems.
  split; [by eapply Forall2_seq_length |]. split.
  - change [0; 1; 2; 3; 4; 5] with (Z.of_nat <$> seq 0 6).
    apply Forall2_fmap_eq. eapply Forall2_impl; [exact H |].
    by intros i p [? _].
  - eapply Forall2_Forall_r; [| exact H]. by intros i p (_ & ? & ? & ?).
Qed.

Lemma generateProblems_six_exact_sums_witness :
  let problems :=
    (CongSo.generateProblems
       (cycle [1 # 3; 7 # 10; 9 # 10; 0 # 1; 1 # 2; 99 # 100; 3 # 5])).1 in
  length problems = 6%nat /\
  CongSo.id <$> problems = [0; 1; 2; 3; 4; 5] /\
  Forall (fun p =>
            (2 <= length (CongSo.numbers p) <= 3)%nat /\
            Forall (fun n => 0 <= n <= 9) (CongSo.numbers p) /\
            CongSo.answer p = foldr Z.add 0 (CongSo.numbers p)) problems.
Proof.
  apply generateProblems_six_exact_sums.
  apply fair_cycle; [discriminate |].
  repeat constructor; vm_compute; congruence.
Defined.

(** ** The number maze *)

Section MazeFacts.
Import MeCung.

Lemma parse_op_label (add : bool) (amount : Z) :
  1 <= amount <= 9 ->
  parse_op ((if add then "+" else "-")%string +:+ pretty amount)
    = Some (add, amount).
Proof.
  intros H.
  assert (Hc : amount = 1 \/ amount = 2 \/ amount = 3 \/ amount = 4 \/
               amount = 5 \/ amount = 6 \/ amount = 7 \/ amount = 8 \/
               amount = 9) by lia.
  destruct add;
    repeat (destruct Hc as [-> | Hc]; [reflexivity |]); subst; reflexivity.
Qed.

Lemma walk_cons len i p rest currentValue prevNode newNodes newConnections g :
  walk len i (p :: rest) currentValue prevNode newNodes newConnections g =
  let (add, g1) := coin g in
  let (amount, g2) := getRandomInt 1 9 g1 in
  let currentValue' :=
    if add then currentValue + amount else Z.max 0 (currentValue - amount) in
  let currentNode :=
    {| id := Z.of_nat i; value := currentValue';
       isInput := negb (bool_decide (i = (len - 1)%nat)); pos := p |} in
  walk len (S i) rest currentValue' currentNode (newNodes ++ [currentNode])
       (newConnections ++
          [{| from := prevNode; to := currentNode;
              op := (if add then "+" else "-")%string +:+ pretty amount |}])
       g2.
Proof.
  reflexivity.
Qed.

Lemma walk_spec len rest : forall i currentValue prevNode newNodes newConnections g,
  fair g -> 0 <= currentValue ->
  let m := (walk len i rest currentValue prevNode newNodes newConnections g).1 in
  exists ns cs,
    nodes m = newNodes ++ ns /\
    connections m = newConnections ++ cs /\
    length ns = length rest /\
    pos <$> ns = rest /\
    id <$> ns = Z.of_nat <$> seq i (length rest) /\
    chained prevNode cs ns /\
    Forall step_label (op <$> cs) /\
    replay currentValue (op <$> cs) = Some (value <$> ns) /\
    Forall (fun n => 0 <= value n) ns.
Proof.
  induction rest as [| p rest IH]; intros i cv prev nodesAcc connsAcc g Hg Hcv m.
  - exists [], []. subst m. simpl. by rewrite !app_nil_r.
  - subst m. rewrite walk_cons.
    destruct (ensures_coin (fun _ => True) (fun _ => I) g Hg) as [_ Hg1].
    destruct (coin g) as [add g1]. simpl in Hg1.
    destruct (ensures_getRandomInt 1 9 ltac:(lia) g1 Hg1) as [Hamount Hg2].
    destruct (getRandomInt 1 9 g1) as [amount g2]. simpl in Hamount, Hg2.
    cbv zeta.
    set (cv' := if add then cv + amount else Z.max 0 (cv - amount)).
    assert (Hcv' : 0 <= cv') by (unfold cv'; destruct add; lia).
    set (node := {| id := Z.of_nat i; value := cv';
                    isInput := negb (bool_decide (i = (len - 1)%nat));
                    pos := p |}).
    set (conn := {| from := prev; to := node;
                    op := (if add then "+" else "-")%string +:+ pretty amount |}).
    destruct (IH (S i) cv' node (nodesAcc ++ [node]) (connsAcc ++ [conn]) g2 Hg2 Hcv')
      as (ns & cs & Hn & Hc & Hlen & Hpos & Hid & Hch & Hlab & Hrep & Hnn).
    exists (node :: ns), (conn :: cs).
    rewrite Hn, Hc, <- !app_assoc. simpl.
    repeat split; try done.
    + by rewrite Hlen.
    + f_equal. exact Hpos.
    + f_equal. exact Hid.
    + constructor; [| exact Hlab]. exists add, amount. split; [| done].
      by apply parse_op_label.
    + rewrite parse_op_label by done. simpl.
      change (list_fmap MazeConnection string op cs) with (op <$> cs).
      replace (apply_op cv (add, amount)) with cv'
        by (unfold apply_op, cv'; by destruct add).
      by rewrite Hrep.
    + by constructor.
Qed.

(** C3.  Every maze generation succeeds; its operations are labels [+k] or
    [-k] with [k] in [1,9]; each leads from one recorded node to the next;
    replaying them from the first node's value, with subtraction stopping
    at 0, yields exactly the recorded values of the following nodes; and no
    recorded value is negative. *)
Theorem generateMaze_replay_exact (g : rng) :
  fair g ->
  exists (first : MazeNode) (others : list MazeNode) (m : maze),
    (generateMaze g).1 = Some m /\
    nodes m = first :: others /\
    length (connections m) = length others /\
    chained first (connections m) others /\
    Forall step_label (op <$> connections m) /\
    replay (value first) (op <$> connections m) = Some (value <$> others) /\
    Forall (fun n => 0 <= value n) (nodes m).
Proof.
  intros Hg. unfold generateMaze.
  unfold mbind at 1, Rand_bind.
  destruct (ensures_coin (fun _ => True) (fun _ => I) g Hg) as [_ Hg1].
  destruct (coin g) as [complex g1]. simpl in Hg1.
  unfold mbind at 1, Rand_bind.
  destruct (ensures_getRandomInt 5 15 ltac:(lia) g1 Hg1) as [Hstart Hg2].
  destruct (getRandomInt 5 15 g1) as [start g2]. simpl in Hstart, Hg2.
  assert (Hs : 0 <= start) by lia.
  assert (Hchain : forall first cs ns,
             chained first cs ns -> length cs = length ns).
  { intros first cs. revert first.
    induction cs; intros first [| n ns]; simpl; try done.
    intros (_ & _ & ?). f_equal. eauto. }
  destruct complex.
  - set (first := {| id := 0; value := start; isInput := false;
                     pos := (20, 20) |}).
    pose proof (walk_spec (length complexMazeLayout) (tail complexMazeLayout)
                  1 start first [first] [] g2 Hg2 Hs) as Hw.
    cbv zeta in Hw.
    destruct Hw as (ns & cs & Hn & Hc & Hlen & _ & _ & Hch & Hlab & Hrep & Hnn).
    exists first, ns,
      (walk (length complexMazeLayout) 1 (tail complexMazeLayout) start first
            [first] [] g2).1.
    split.
    { unfold complexMazeLayout at 1. unfold mbind, Rand_bind.
      by destruct (walk _ _ _ _ _ _ _ g2). }
    rewrite Hn, Hc. simpl. repeat split; eauto.
  - set (first := {| id := 0; value := start; isInput := false;
                     pos := (170, 20) |}).
    pose proof (walk_spec (length simpleMazeLayout) (tail simpleMazeLayout)
                  1 start first [first] [] g2 Hg2 Hs) as Hw.
    cbv zeta in Hw.
    destruct Hw as (ns & cs & Hn & Hc & Hlen & _ & _ & Hch & Hlab & Hrep & Hnn).
    exists first, ns,
      (walk (length simpleMazeLayout) 1 (tail simpleMazeLayout) start first
            [first] [] g2).1.
    split.
    { unfold simpleMazeLayout at 1. unfold mbind, Rand_bind.
      by destruct (walk _ _ _ _ _ _ _ g2). }
    rewrite Hn, Hc. simpl. repeat split; eauto.
Qed.

Lemma generateMaze_replay_exact_witness :
  exists (first : MazeNode) (others : list MazeNode) (m : maze),
    (generateMaze (cycle [3 # 10; 1 # 4; 9 # 10; 2 # 5; 4 # 5; 1 # 9])).1
      = Some m /\
    nodes m = first :: others /\
    length (connections m) = length others /\
    chained first (connections m) others /\
    Forall step_label (op <$> connections m) /\
    replay (value first) (op <$> connections m) = Some (value <$> others) /\
    Forall (fun n => 0 <= value n) (nodes m).
Proof.
  apply generateMaze_replay_exact.
  apply fair_cycle; [discriminate |].
  repeat constructor; vm_compute; congruence.
Defined.

End MazeFacts.

(** ** The local symbol legend *)

Lemma assign_fold_lookup (numbers : list Z) :
  forall (pairs : list (nat * string)) (acc : gmap string (option Z)) key,
    fold_left (fun lg '(index, key) => <[key := numbers !! index]> lg) pairs acc
      !! key
    = match last (filter (fun p => p.2 = key) pairs) with
      | Some p => Some (numbers !! p.1)
      | None => acc !! key
      end.
Proof.
  induction pairs as [| [i k] pairs IH]; intros acc key; simpl; [done |].
  rewrite IH. rewrite filter_cons. simpl.
  destruct (decide (k = key)) as [-> | Hne].
  - destruct (filter _ pairs) as [| q qs] eqn:Hf.
    + simpl. by rewrite lookup_insert_eq.
    + change (last ((i, key) :: q :: qs)) with (last (q :: qs)).
      destruct (last (q :: qs)) eqn:Hl; [done |].
      by apply last_None in Hl.
  - destruct (last (filter _ pairs)); [done |]. by rewrite lookup_insert_ne.
Qed.

Lemma legend_of_icon (numbers : list Z) (i : nat) (key : string) :
  MaHoaLocal.iconKeys !! i = Some key ->
  MaHoaLocal.assign_legend numbers MaHoaLocal.iconKeys !! key
    = Some (numbers !! i).
Proof.
  intros Hi. unfold MaHoaLocal.assign_legend. rewrite assign_fold_lookup.
  do 9 (destruct i as [| i]; [injection Hi as <-; reflexivity |]).
  discriminate.
Qed.

Lemma legend_only_icons (numbers : list Z) (key : string) :
  key ∉ MaHoaLocal.iconKeys ->
  MaHoaLocal.assign_legend numbers MaHoaLocal.iconKeys !! key = None.
Proof.
  intros Hk. unfold MaHoaLocal.assign_legend. rewrite assign_fold_lookup.
  destruct (last _) as [p |] eqn:Hl; [| done].
  apply last_Some_elem_of, list_elem_of_filter in Hl as [Hp Hin].
  apply elem_of_lookup_imap in Hin as (i & k & -> & Hik). simpl in Hp. subst.
  exfalso. apply Hk. by eapply list_elem_of_lookup_2.
Qed.

(** C4.  The legend maps exactly the 9 icons, which are pairwise distinct;
    every icon receives one number in 1..9; two different icons never
    receive the same number; and every number of 1..9 is the number of
    some icon. *)
Theorem generateGame_legend_bijection (g : rng) :
  let lg := MaHoaLocal.legend (MaHoaLocal.generateGame g).1 in
  NoDup MaHoaLocal.iconKeys /\
  length MaHoaLocal.iconKeys = 9%nat /\
  dom lg = list_to_set MaHoaLocal.iconKeys /\
  (forall key, key ∈ MaHoaLocal.iconKeys ->
     exists n, lg !! key = Some (Some n) /\ 1 <= n <= 9) /\
  (forall k1 k2 n,
     lg !! k1 = Some (Some n) -> lg !! k2 = Some (Some n) -> k1 = k2) /\
  (forall n, 1 <= n <= 9 ->
     exists key, key ∈ MaHoaLocal.iconKeys /\ lg !! key = Some (Some n)).
Proof.
  intros lg.
  assert (Hlg : exists numbers,
             numbers ≡ₚ [1; 2; 3; 4; 5; 6; 7; 8; 9] /\
             lg = MaHoaLocal.assign_legend numbers MaHoaLocal.iconKeys).
  { subst lg. unfold MaHoaLocal.generateGame. unfold mbind at 1, Rand_bind.
    pose proof (shuffleArray_perm ((fun i => Z.of_nat i + 1) <$> seq 0 9) g)
      as Hperm.
    destruct (shuffleArray _ g) as [numbers g1]. simpl in Hperm.
    exists numbers. split; [exact Hperm |].
    unfold mbind, Rand_bind. by destruct (array_from _ _ g1). }
  destruct Hlg as (numbers & Hperm & Hlg). clearbody lg. subst lg.
  assert (Hkeys : NoDup MaHoaLocal.iconKeys).
  { apply NoDup_ListNoDup. unfold MaHoaLocal.iconKeys.
    repeat (constructor; [simpl; intuition discriminate |]). constructor. }
  assert (Hlen : length numbers = 9%nat) by (by rewrite Hperm).
  assert (Hnd : NoDup numbers).
  { rewrite Hperm. apply NoDup_ListNoDup.
    repeat (constructor; [simpl; intuition discriminate |]). constructor. }
  assert (Hmem : forall n, n ∈ numbers <-> 1 <= n <= 9).
  { intros n. rewrite Hperm. rewrite !elem_of_cons, elem_of_nil. lia. }
  split; [done |]. split; [done |]. split; [| split; [| split]].
  - apply set_eq. intros key. rewrite elem_of_dom, elem_of_list_to_set.
    split.
    + intros [v Hv]. destruct (decide (key ∈ MaHoaLocal.iconKeys)); [done |].
      rewrite legend_only_icons in Hv by done. discriminate.
    + intros Hin. apply list_elem_of_lookup in Hin as [i Hi].
      rewrite (legend_of_icon _ i) by done. eauto.
  - intros key Hin. apply list_elem_of_lookup in Hin as [i Hi].
    rewrite (legend_of_icon _ i) by done.
    assert (Hi9 : (i < 9)%nat) by (apply lookup_lt_Some in Hi; done).
    destruct (lookup_lt_is_Some_2 numbers i ltac:(lia)) as [n Hn].
    exists n. rewrite Hn. split; [done |]. apply Hmem.
    by eapply list_elem_of_lookup_2.
  - intros k1 k2 n H1 H2.
    assert (Hin : forall k, MaHoaLocal.assign_legend numbers MaHoaLocal.iconKeys
                              !! k = Some (Some n) ->
                            exists i, MaHoaLocal.iconKeys !! i = Some k /\
                                      numbers !! i = Some n).
    { intros k Hk. destruct (decide (k ∈ MaHoaLocal.iconKeys)) as [Hin | Hout].
      - apply list_elem_of_lookup in Hin as [i Hi]. exists i. split; [done |].
        rewrite (legend_of_icon _ i) in Hk by done. congruence.
      - rewrite legend_only_icons in Hk by done. discriminate. }
    destruct (Hin _ H1) as (i1 & Hk1 & Hn1).
    destruct (Hin _ H2) as (i2 & Hk2 & Hn2).
    assert (i1 = i2) by (eapply NoDup_lookup; eauto). congruence.
  - intros n Hn. apply Hmem in Hn. apply list_elem_of_lookup in Hn as [i Hi].
    assert (Hi9 : (i < 9)%nat) by (apply lookup_lt_Some in Hi; lia).
    destruct (lookup_lt_is_Some_2 MaHoaLocal.iconKeys i ltac:(done)) as [key Hk].
    exists key. split; [by eapply list_elem_of_lookup_2 |].
    rewrite (legend_of_icon _ i) by done. by rewrite Hi.
Qed.

(** ** The pairing generators *)

Lemma mapR_length {A B} (f : A -> Rand B) xs g :
  length (mapR f xs g).1 = length xs.
Proof.
  revert g. induction xs as [| x xs IH]; intros g; simpl; [done |].
  unfold mbind, Rand_bind. destruct (f x g) as [y g1].
  specialize (IH g1). destruct (mapR f xs g1) as [ys g2]. simpl in *.
  by rewrite IH.
Qed.

Lemma array_from_length {A} (f : nat -> Rand A) len g :
  length (array_from len f g).1 = len.
Proof. unfold array_from. by rewrite mapR_length, length_seq. Qed.

Lemma tagged_index_inj (tag : string) :
  Inj (=) (=) (fun i : nat => tag +:+ pretty i).
Proof.
  intros i j H. induction tag as [| c tag IH]; simpl in H.
  - by apply (inj pretty).
  - injection H as H. auto.
Qed.

Lemma NoDup_tagged_indices {A} (tag : string) (xs : list A) :
  NoDup (imap (fun i _ => tag +:+ pretty i) xs).
Proof.
  rewrite (imap_seq_0 xs (fun i => tag +:+ pretty i)).
  apply NoDup_fmap_2; [apply tagged_index_inj | apply NoDup_seq].
Qed.

Lemma imap_ignore_index {A B} (f : nat -> A -> B) (h : A -> B) xs :
  (forall i x, f i x = h x) -> imap f xs = h <$> xs.
Proof. intros Hf. rewrite <- imap_const. apply imap_ext. intros; apply Hf. Qed.

Lemma NoDup_fmap_eq {A B} (f : A -> B) (xs : list A) x y :
  NoDup (f <$> xs) -> x ∈ xs -> y ∈ xs -> f x = f y -> x = y.
Proof.
  intros Hnd Hx Hy Hf.
  apply list_elem_of_lookup in Hx as [i Hi].
  apply list_elem_of_lookup in Hy as [j Hj].
  assert (i = j).
  { eapply NoDup_lookup; [exact Hnd | |];
      rewrite list_lookup_fmap; [by rewrite Hi | by rewrite Hj, Hf]. }
  congruence.
Qed.

(** The icon game: everything about its generated state that does not
    depend on the draws. *)
Lemma NoiBong_generateItems_shape (g : rng) :
  exists chosen reshuffled,
    chosen ≡ₚ NoiBong.iconKeys /\ reshuffled ≡ₚ chosen /\
    (NoiBong.generateItems g).1 =
      {| NoiBong.leftItems :=
           imap (fun i iconId => {| NoiBong.id := "l-" +:+ pretty i;
                                    NoiBong.iconId := iconId |}) chosen;
         NoiBong.rightItems :=
           imap (fun i iconId => {| NoiBong.id := "r-" +:+ pretty i;
                                    NoiBong.iconId := iconId |}) reshuffled;
         NoiBong.selectedLeft := None;
         NoiBong.connections := ∅ |}.
Proof.
  unfold NoiBong.generateItems. unfold mbind at 1, Rand_bind.
  pose proof (shuffleArray_perm NoiBong.iconKeys g) as Hp1.
  destruct (shuffleArray NoiBong.iconKeys g) as [shuffled g1]. simpl in Hp1.
  assert (Htake : take 5 shuffled = shuffled).
  { apply take_ge. by rewrite Hp1. }
  rewrite Htake. unfold mbind, Rand_bind.
  pose proof (shuffleArray_perm shuffled g1) as Hp2.
  destruct (shuffleArray shuffled g1) as [reshuffled g2]. simpl in *.
  by exists shuffled, reshuffled.
Qed.

Lemma NoiBong_well_paired (g : rng) :
  let st := (NoiBong.generateItems g).1 in
  well_paired NoiBong.id NoiBong.iconId NoiBong.iconId
              NoiBong.iconId NoiBong.iconId
              (NoiBong.leftItems st) (NoiBong.rightItems st).
Proof.
  intros st. subst st.
  destruct (NoiBong_generateItems_shape g)
    as (chosen & reshuffled & Hc & Hr & ->). simpl.
  assert (Hnd : NoDup chosen).
  { rewrite Hc. apply NoDup_ListNoDup. unfold NoiBong.iconKeys.
    repeat (constructor; [simpl; intuition discriminate |]). constructor. }
  assert (Hndr : NoDup reshuffled) by (by rewrite Hr).
  unfold well_paired. rewrite length_imap, !fmap_imap.
  split; [by rewrite Hc |]. split; [apply NoDup_tagged_indices |]. split.
  { rewrite (imap_ignore_index _ id reshuffled) by done.
    rewrite (imap_ignore_index _ id chosen) by done.
    by rewrite !list_fmap_id. }
  intros l Hl. apply elem_of_lookup_imap in Hl as (i & icon & -> & Hi).
  simpl.
  assert (Hin : icon ∈ reshuffled).
  { rewrite Hr. by eapply list_elem_of_lookup_2. }
  apply list_elem_of_lookup in Hin as [j Hj].
  exists {| NoiBong.id := "r-" +:+ pretty j; NoiBong.iconId := icon |}.
  split; [apply elem_of_lookup_imap; by exists j, icon |].
  split; [done |].
  intros r' Hr' Hkey.
  apply elem_of_lookup_imap in Hr' as (j' & icon' & -> & Hj').
  simpl in Hkey. subst icon'.
  assert (j' = j) by (eapply NoDup_lookup; eauto). by subst.
Qed.

Lemma NoiPhepTinh_generateItems_shape (g : rng) :
  exists baseItems right,
    length baseItems = 5%nat /\
    right ≡ₚ imap NoiPhepTinh_right baseItems /\
    (NoiPhepTinh.generateItems g).1 =
      {| NoiPhepTinh.leftItems := imap NoiPhepTinh_left baseItems;
         NoiPhepTinh.rightItems := right;
         NoiPhepTinh.selectedLeft := None;
         NoiPhepTinh.connections := ∅ |}.
Proof.
  unfold NoiPhepTinh.generateItems. unfold mbind at 1, Rand_bind.
  match goal with |- context [array_from 5 ?f g] =>
    pose proof (array_from_length f 5 g) as Hlen;
    destruct (array_from 5 f g) as [baseItems g1]
  end.
  simpl in Hlen. unfold mbind, Rand_bind.
  match goal with |- context [shuffleArray ?xs g1] =>
    pose proof (shuffleArray_perm xs g1) as Hperm;
    destruct (shuffleArray xs g1) as [right g2]
  end.
  simpl in *. by exists baseItems, right.
Qed.

(** C1, as stated, fails on the equation game.  With the draws below no
    right item carries the match-key of the first left item; and if a right
    item is taken to match by the value it shows, two right items show the
    answer of the first left item ("2 + 4" and "5 + 1" both make 6). *)
Lemma NoiPhepTinh_not_well_paired :
  let st := (NoiPhepTinh.generateItems
               (cycle [1 # 3; 7 # 10; 9 # 10; 0 # 1; 1 # 2; 99 # 100; 3 # 5])).1 in
  ~ well_paired NoiPhepTinh.id NoiPhepTinh.matchId NoiPhepTinh.matchId
                NoiPhepTinh.content NoiPhepTinh.matchId
                (NoiPhepTinh.leftItems st) (NoiPhepTinh.rightItems st) /\
  ~ well_paired NoiPhepTinh.id NoiPhepTinh.matchId NoiPhepTinh.matchId
                NoiPhepTinh.content NoiPhepTinh.content
                (NoiPhepTinh.leftItems st) (NoiPhepTinh.rightItems st).
Proof.
  intros st.
  assert (Hl : {| NoiPhepTinh.id := "l-0"; NoiPhepTinh.content := "2 + 4";
                  NoiPhepTinh.matchId := "6" |} ∈ NoiPhepTinh.leftItems st).
  { vm_compute. left. }
  split; intros (_ & _ & _ & Hmatch);
    destruct (Hmatch _ Hl) as (r & Hin & Hkey & Hone).
  - vm_compute in Hin.
    repeat (apply elem_of_cons in Hin as [-> | Hin]; [discriminate Hkey |]).
    by apply elem_of_nil in Hin.
  - assert (H0 : {| NoiPhepTinh.id := "r-0"; NoiPhepTinh.content := "6";
                    NoiPhepTinh.matchId := "2 + 4" |} = r).
    { apply Hone; [| reflexivity]. vm_compute.
      do 4 apply list_elem_of_further. left. }
    assert (H1 : {| NoiPhepTinh.id := "r-1"; NoiPhepTinh.content := "6";
                    NoiPhepTinh.matchId := "5 + 1" |} = r).
    { apply Hone; [| reflexivity]. vm_compute.
      apply list_elem_of_further. left. }
    rewrite <- H1 in H0. discriminate H0.
Qed.

(** C1, as the code has it.  The icon game is well paired on the icon
    identifier.  The equation game has 5 left items with distinct
    identifiers; its right column shows a permutation of the left items'
    answers and carries, as match-keys, a permutation of the left items'
    equations; every left item has a right item showing its answer and
    keyed by its equation; and when the five answers are pairwise distinct
    that right item is the only one showing that answer. *)
Theorem generateItems_pairing (g : rng) :
  let icons := (NoiBong.generateItems g).1 in
  let sums := (NoiPhepTinh.generateItems g).1 in
  well_paired NoiBong.id NoiBong.iconId NoiBong.iconId
              NoiBong.iconId NoiBong.iconId
              (NoiBong.leftItems icons) (NoiBong.rightItems icons) /\
  length (NoiPhepTinh.leftItems sums) = 5%nat /\
  NoDup (NoiPhepTinh.id <$> NoiPhepTinh.leftItems sums) /\
  NoiPhepTinh.content <$> NoiPhepTinh.rightItems sums
    ≡ₚ NoiPhepTinh.matchId <$> NoiPhepTinh.leftItems sums /\
  NoiPhepTinh.matchId <$> NoiPhepTinh.rightItems sums
    ≡ₚ NoiPhepTinh.content <$> NoiPhepTinh.leftItems sums /\
  (forall l, l ∈ NoiPhepTinh.leftItems sums ->
     exists r, r ∈ NoiPhepTinh.rightItems sums /\
               NoiPhepTinh.content r = NoiPhepTinh.matchId l /\
               NoiPhepTinh.matchId r = NoiPhepTinh.content l) /\
  (NoDup (NoiPhepTinh.matchId <$> NoiPhepTinh.leftItems sums) ->
   forall l r r', l ∈ NoiPhepTinh.leftItems sums ->
     r ∈ NoiPhepTinh.rightItems sums -> r' ∈ NoiPhepTinh.rightItems sums ->
     NoiPhepTinh.content r = NoiPhepTinh.matchId l ->
     NoiPhepTinh.content r' = NoiPhepTinh.matchId l -> r = r').
Proof.
  intros icons sums. split; [apply NoiBong_well_paired |].
  subst sums.
  destruct (NoiPhepTinh_generateItems_shape g)
    as (baseItems & right & Hlen & Hperm & ->). simpl.
  assert (Hvalues : NoiPhepTinh.content <$> right
                    ≡ₚ NoiPhepTinh.matchId <$> imap NoiPhepTinh_left baseItems).
  { rewrite Hperm, !fmap_imap.
    rewrite (imap_ignore_index _ NoiPhepTinh.b_matchId baseItems) by done.
    by rewrite (imap_ignore_index _ NoiPhepTinh.b_matchId baseItems). }
  split; [by rewrite length_imap |]. split.
  { rewrite fmap_imap. apply (NoDup_tagged_indices "l-"). }
  split; [exact Hvalues |]. split.
  { rewrite Hperm, !fmap_imap.
    rewrite (imap_ignore_index _ NoiPhepTinh.b_content baseItems) by done.
    by rewrite (imap_ignore_index _ NoiPhepTinh.b_content baseItems). }
  split.
  - intros l Hl. apply elem_of_lookup_imap in Hl as (i & item & -> & Hi).
    exists (NoiPhepTinh_right i item). split; [| done].
    rewrite Hperm. apply elem_of_lookup_imap. by exists i, item.
  - intros Hnd l r r' _ Hr Hr' Hc Hc'.
    rewrite <- Hvalues in Hnd.
    eapply NoDup_fmap_eq; eauto. congruence.
Qed.

(** ** Validation on connect *)

Lemma strict_eq_numbers (a b : Z) :
  Js.strict_eq (Js.JNum a) (Js.JNum b) = true <-> a = b.
Proof. simpl. apply Z.eqb_eq. Qed.

Lemma strict_eq_strings (a b : string) :
  Js.strict_eq (Js.JStr a) (Js.JStr b) = true <-> a = b.
Proof. simpl. apply bool_decide_eq_true. Qed.

(** C7.  With a left item selected, a click on a right item records the
    edge from the selected item to the clicked one when their match-keys
    are equal under [===] and leaves the connections as they were when
    they are not; either way the selection is cleared, the columns are
    untouched, and the error notice of the number game is not written.
    In the number game the keys are whatever the response held: numbers
    are compared by value, and an array or an object is equal only to
    itself, which the two items built from one entry of the response
    share. *)
Theorem handleRightClick_validates
    (numbers : NoiSo.state) (selN : NoiSo.LeftItem) (itemN : NoiSo.RightItem)
    (icons : NoiBong.state) (selI itemI : NoiBong.MatchItem) :
  NoiSo.selectedLeft numbers = Some selN ->
  NoiBong.selectedLeft icons = Some selI ->
  let numbers' := NoiSo.handleRightClick itemN numbers in
  let icons' := NoiBong.handleRightClick itemI icons in
  (NoiSo.selectedLeft numbers' = None /\
   (NoiSo_same_count selN itemN = true ->
    NoiSo.connections numbers'
      = <[NoiSo.id selN := NoiSo.r_id itemN]> (NoiSo.connections numbers)) /\
   (NoiSo_same_count selN itemN = false ->
    NoiSo.connections numbers' = NoiSo.connections numbers) /\
   (forall a b, NoiSo.count selN = Js.JNum a ->
                NoiSo.r_count itemN = Js.JNum b ->
      (a = b ->
       NoiSo.connections numbers'
         = <[NoiSo.id selN := NoiSo.r_id itemN]> (NoiSo.connections numbers)) /\
      (a <> b -> NoiSo.connections numbers' = NoiSo.connections numbers)) /\
   (forall a b, NoiSo.count selN = Js.JStr a ->
                NoiSo.r_count itemN = Js.JStr b ->
      (a = b ->
       NoiSo.connections numbers'
         = <[NoiSo.id selN := NoiSo.r_id itemN]> (NoiSo.connections numbers)) /\
      (a <> b -> NoiSo.connections numbers' = NoiSo.connections numbers)) /\
   (is_reference (NoiSo.count selN) ->
    same_kind (NoiSo.count selN) (NoiSo.r_count itemN) ->
      (NoiSo.entry selN = NoiSo.r_entry itemN ->
       NoiSo.connections numbers'
         = <[NoiSo.id selN := NoiSo.r_id itemN]> (NoiSo.connections numbers)) /\
      (NoiSo.entry selN <> NoiSo.r_entry itemN ->
       NoiSo.connections numbers' = NoiSo.connections numbers)) /\
   (~ same_kind (NoiSo.count selN) (NoiSo.r_count itemN) ->
    NoiSo.connections numbers' = NoiSo.connections numbers) /\
   NoiSo.error numbers' = NoiSo.error numbers /\
   NoiSo.isLoading numbers' = NoiSo.isLoading numbers /\
   NoiSo.leftItems numbers' = NoiSo.leftItems numbers /\
   NoiSo.rightItems numbers' = NoiSo.rightItems numbers) /\
  (NoiBong.selectedLeft icons' = None /\
   (NoiBong.iconId selI = NoiBong.iconId itemI ->
    NoiBong.connections icons'
      = <[NoiBong.id selI := NoiBong.id itemI]> (NoiBong.connections icons)) /\
   (NoiBong.iconId selI <> NoiBong.iconId itemI ->
    NoiBong.connections icons' = NoiBong.connections icons) /\
   NoiBong.leftItems icons' = NoiBong.leftItems icons /\
   NoiBong.rightItems icons' = NoiBong.rightItems icons).
Proof.
  intros HselN HselI numbers' icons'. split.
  - subst numbers'. unfold NoiSo.handleRightClick. rewrite HselN.
    fold (NoiSo_same_count selN itemN).
    unfold NoiSo_same_count, Js.strict_eq_ref.
    destruct (NoiSo.count selN) eqn:Hc, (NoiSo.r_count itemN) eqn:Hr;
      simpl; try case_bool_decide; try case_match;
      repeat split; try done; try tauto; try (intros; simplify_eq; lia);
      try (intros; simplify_eq; done).
  - subst icons'. unfold NoiBong.handleRightClick. rewrite HselI. simpl.
    destruct (decide _); repeat split; done.
Qed.

Lemma handleRightClick_validates_witness :
  let numbers :=
    {| NoiSo.theme := "qua"; NoiSo.isLoading := false; NoiSo.error := None;
       NoiSo.leftItems := []; NoiSo.rightItems := [];
       NoiSo.selectedLeft :=
         Some {| NoiSo.id := "l-0"; NoiSo.svg := Js.JStr "<svg/>";
                 NoiSo.count := Js.JNum 3; NoiSo.entry := 0 |};
       NoiSo.connections := ∅ |} in
  let icons :=
    {| NoiBong.leftItems := []; NoiBong.rightItems := [];
       NoiBong.selectedLeft :=
         Some {| NoiBong.id := "l-1"; NoiBong.iconId := "leaf" |};
       NoiBong.connections := ∅ |} in
  NoiSo.connections
    (NoiSo.handleRightClick
       {| NoiSo.r_id := "r-2"; NoiSo.r_count := Js.JNum 3;
          NoiSo.r_entry := 2 |}
       numbers)
    = {[ "l-0" := "r-2" ]} /\
  NoiBong.connections
    (NoiBong.handleRightClick {| NoiBong.id := "r-0"; NoiBong.iconId := "acorn" |}
                              icons)
    = ∅.
Proof.
  intros numbers icons.
  destruct (handleRightClick_validates
              numbers
              {| NoiSo.id := "l-0"; NoiSo.svg := Js.JStr "<svg/>";
                 NoiSo.count := Js.JNum 3; NoiSo.entry := 0 |}
              {| NoiSo.r_id := "r-2"; NoiSo.r_count := Js.JNum 3;
                 NoiSo.r_entry := 2 |}
              icons
              {| NoiBong.id := "l-1"; NoiBong.iconId := "leaf" |}
              {| NoiBong.id := "r-0"; NoiBong.iconId := "acorn" |}
              eq_refl eq_refl)
    as [(_ & Hyes & _) (_ & _ & Hno & _)].
  split.
  - rewrite Hyes by reflexivity. reflexivity.
  - rewrite Hno by discriminate. reflexivity.
Defined.

(** One entry of a response whose count is an array: the left and the
    right item built from it hold the same array, and the click connects
    them; the items of two entries with equal-looking arrays are not
    connected. *)
Example handleRightClick_shared_array :
  let sel := {| NoiSo.id := "l-0"; NoiSo.svg := Js.JStr "<svg/>";
                NoiSo.count := Js.JArr [Js.JNum 3]; NoiSo.entry := 0 |} in
  let st := {| NoiSo.theme := "qua"; NoiSo.isLoading := false;
               NoiSo.error := None; NoiSo.leftItems := [];
               NoiSo.rightItems := []; NoiSo.selectedLeft := Some sel;
               NoiSo.connections := ∅ |} in
  NoiSo.connections
    (NoiSo.handleRightClick
       {| NoiSo.r_id := "r-0"; NoiSo.r_count := Js.JArr [Js.JNum 3];
          NoiSo.r_entry := 0 |} st) = {[ "l-0" := "r-0" ]} /\
  NoiSo.connections
    (NoiSo.handleRightClick
       {| NoiSo.r_id := "r-1"; NoiSo.r_count := Js.JArr [Js.JNum 3];
          NoiSo.r_entry := 1 |} st) = ∅.
Proof. by split. Qed.

(** ** Worksheet export *)

Section ExportFacts.
Import Exporter.

Lemma filter_all {A} (P : A -> Prop) `{!forall x, Decision (P x)} (l : list A) :
  Forall P l -> filter P l = l.
Proof.
  induction 1 as [| x l Hx _ IH]; [done |].
  rewrite filter_cons, decide_True by done. by rewrite IH.
Qed.

Lemma removeChild_mounted (n : node) (d : document) :
  well_formed d ->
  removeChild (next_id d) (appendChild n d).2
    = Js.Done {| next_id := S (next_id d); body := body d |}.
Proof.
  intros Hwf. unfold removeChild, appendChild. simpl.
  rewrite bool_decide_eq_true_2.
  - f_equal. f_equal. rewrite filter_app, filter_cons, filter_nil. simpl.
    rewrite decide_False by (intros H; by apply H).
    rewrite app_nil_r. apply filter_all.
    eapply Forall_impl; [exact Hwf |]. simpl. intros [i x] Hi. simpl in *. lia.
  - rewrite fmap_app. apply elem_of_app. right. simpl. left.
Qed.

Lemma removeChild_mounted_any (n : node) (d : document) :
  exists d', removeChild (next_id d) (appendChild n d).2 = Js.Done d'.
Proof.
  unfold removeChild, appendChild. simpl.
  rewrite bool_decide_eq_true_2; [eauto |].
  rewrite fmap_app. apply elem_of_app. right. simpl. left.
Qed.

Lemma settle_resolved name (n : node) (d : document) (c : canvas) :
  file (settle name (next_id d) (Resolved c) (appendChild n d).2)
    = Some (expected_pdf name c) /\
  unhandled (settle name (next_id d) (Resolved c) (appendChild n d).2) = None.
Proof.
  unfold settle, on_rasterized.
  destruct (removeChild_mounted_any n d) as [d' ->]. simpl.
  split; [| done]. f_equal. unfold expected_pdf. f_equal.
  - replace (width c + 40 * 2) with (width c + 2 * 40) by lia.
    replace (height c + 40 * 2) with (height c + 2 * 40) by lia.
    destruct (Z.gtb_spec (width c + 2 * 40) (height c + 2 * 40)).
    + by rewrite bool_decide_eq_true_2 by lia.
    + by rewrite bool_decide_eq_false_2 by lia.
Qed.

Lemma expected_pdf_fits name c o :
  file o = Some (expected_pdf name c) -> unhandled o = None ->
  page_fits name c o.
Proof.
  intros Hfile Hun. exists (expected_pdf name c).
  unfold expected_pdf. simpl.
  repeat split; try done; case_bool_decide; try done; try lia.
Qed.

(** C8.  For a bitmap of width [w] and height [h], the exported page
    measures [w + 2 * 40] by [h + 2 * 40] points, holds the one image at
    offset (40, 40) with its [w] by [h] dimensions, is landscape exactly
    when the margined width exceeds the margined height, and is saved under
    the fixed name of the game. *)
Theorem exportPdf_page_geometry
    (current : mounted) (c : canvas) (d : document) :
  page_fits "cong-so.pdf" c (exportPdf_CongSo (Some current) (Resolved c) d) /\
  page_fits "noi-so.pdf" c (exportPdf_NoiSo (Some current) (Resolved c) d).
Proof.
  split; apply expected_pdf_fits; apply settle_resolved.
Qed.

(** C9, as stated, fails: when rasterization rejects, the container mounted
    by [exportPdf] is still in the body afterwards. *)
Lemma exportPdf_leaks_on_rejection :
  let d := {| next_id := 0; body := [] |} in
  let game :=
    {| element := Element "div" ["sum-it-up-game"] "" None
                    [Element "input" ["sum-item-input"] "7" None []];
       scrollWidth := 640 |} in
  ~ no_leak d (exportPdf_CongSo (Some game) (Rejected (Js.Err "tainted")) d).
Proof. intros d game. unfold no_leak. vm_compute. discriminate. Qed.

(** The number game's exporter leaks in the same way. *)
Example exportPdf_NoiSo_leaks_on_rejection :
  let d := {| next_id := 0; body := [] |} in
  let game :=
    {| element := Element "div" ["matching-game-container"] "" None
                    [Element "canvas" ["matching-canvas"] "" None []];
       scrollWidth := 640 |} in
  page (exportPdf_NoiSo (Some game) (Rejected (Js.Err "tainted")) d) =
    {| next_id := 1;
       body := [(0%nat, Element "div" ["pdf-print-container"] "" None
                          [Element "div" ["matching-game-container"] ""
                                   (Some 640) []])] |}.
Proof. reflexivity. Qed.

(** C9, as the code has it.  An export whose rasterization resolves
    detaches the container and leaves the body exactly as it found it; an
    export started with no surface mounted attaches nothing, whatever the
    rasterizer would have done. *)
Theorem exportPdf_unmounts_when_resolved
    (current : option mounted) (c : canvas) (r : raster) (d : document) :
  well_formed d ->
  no_leak d (exportPdf_CongSo current (Resolved c) d) /\
  no_leak d (exportPdf_NoiSo current (Resolved c) d) /\
  no_leak d (exportPdf_CongSo None r d) /\
  no_leak d (exportPdf_NoiSo None r d).
Proof.
  intros Hwf. unfold no_leak.
  assert (Hsettle : forall name n,
             body (page (settle name (next_id d) (Resolved c)
                                (appendChild n d).2)) = body d).
  { intros name n. unfold settle, on_rasterized.
    by rewrite removeChild_mounted. }
  repeat split; try done; destruct current; try done; apply Hsettle.
Qed.

Lemma exportPdf_unmounts_when_resolved_witness :
  let d :=
    {| next_id := 3;
       body := [(0%nat, Element "div" ["app"] "" None []);
                (2%nat, Element "div" ["toast"] "" None [])] |} in
  let game :=
    {| element := Element "div" ["sum-it-up-game"] "" None
                    [Element "input" ["sum-item-input"] "7" None []];
       scrollWidth := 640 |} in
  let c := {| width := 1280; height := 900; png := "data:image/png;base64," |} in
  no_leak d (exportPdf_CongSo (Some game) (Resolved c) d) /\
  no_leak d (exportPdf_NoiSo (Some game) (Resolved c) d) /\
  no_leak d (exportPdf_CongSo None (Rejected Js.NonErr) d) /\
  no_leak d (exportPdf_NoiSo None (Rejected Js.NonErr) d).
Proof.
  intros d game c. apply exportPdf_unmounts_when_resolved.
  unfold well_formed. simpl. repeat constructor; simpl; lia.
Defined.
End ExportFacts.

(** ** Remote generation: what a failure leaves behind *)

Section RemoteFacts.
Import Js.
Context {engine : Engine}.

Lemma NoiSo_loadDefaultData_spec (st : NoiSo.state) (g : rng) :
  NoiSo_fallen_back (NoiSo.loadDefaultData st g).1 /\
  NoiSo.error (NoiSo.loadDefaultData st g).1 = None /\
  NoiSo.theme (NoiSo.loadDefaultData st g).1 = NoiSo.theme st /\
  NoiSo.isLoading (NoiSo.loadDefaultData st g).1 = NoiSo.isLoading st.
Proof.
  unfold NoiSo.loadDefaultData, mbind, Rand_bind.
  pose proof (shuffleArray_perm NoiSo.defaultGameData g) as Hbase.
  destruct (shuffleArray NoiSo.defaultGameData g) as [baseItems g1].
  match goal with |- context [shuffleArray ?xs g1] =>
    pose proof (shuffleArray_perm xs g1) as Hright;
    destruct (shuffleArray xs g1) as [right g2]
  end.
  simpl in *. split; [| done]. by exists baseItems.
Qed.

Lemma NoiSo_generateNew_failure (r : remote) (e : thrown)
    (st : NoiSo.state) (g : rng) :
  is_blank (NoiSo.theme st) = false ->
  NoiSo.try_body r = Raise e ->
  (NoiSo.generateNew r st g).1 =
    NoiSo.setIsLoading false
      (NoiSo.loadDefaultData
         (NoiSo.setError (Some (NoiSo.catch_message e))
            (NoiSo.setError None (NoiSo.setIsLoading true st))) g).1.
Proof.
  intros Hth Hfail. unfold NoiSo.generateNew. simpl. rewrite Hth, Hfail.
  unfold mbind, Rand_bind. by destruct (NoiSo.loadDefaultData _ g).
Qed.

Lemma ToMauAI_puzzle_at_default (colors : list jsval) (i : nat) (g : rng) :
  ToMauAI.puzzle_at ToMauAI.defaultGameData colors i g =
    (Done {| ToMauAI.id := Z.of_nat i;
             ToMauAI.palette := (shuffleArray colors g).1;
             ToMauAI.pieceColors := replicate 5 (JStr "white") |},
     (shuffleArray colors g).2).
Proof.
  unfold ToMauAI.puzzle_at, mbind, Rand_bind.
  by destruct (shuffleArray colors g).
Qed.

Lemma ToMauAI_puzzles_at_default (colors : list jsval) (indices : list nat) :
  forall g, exists ps g',
    ToMauAI.puzzles_at ToMauAI.defaultGameData colors indices g
      = (Done ps, g') /\
    Forall2 (fun k p => ToMauAI.id p = Z.of_nat k /\
                        ToMauAI.palette p ≡ₚ colors /\
                        ToMauAI.pieceColors p = replicate 5 (JStr "white"))
            indices ps.
Proof.
  induction indices as [| i rest IH]; intros g.
  - exists [], g. by split.
  - cbn [ToMauAI.puzzles_at]. unfold mbind at 1, Rand_bind at 1.
    rewrite ToMauAI_puzzle_at_default.
    pose proof (shuffleArray_perm colors g) as Hpal.
    destruct (shuffleArray colors g) as [pal g1]. cbn [fst snd] in *.
    unfold mbind, Rand_bind.
    destruct (IH g1) as (ps & g2 & -> & Hps).
    eexists _, g2. split; [reflexivity |].
    constructor; [| exact Hps]. by simpl.
Qed.

Lemma ToMauAI_loadDefaultData_spec (st : ToMauAI.state) (g : rng) :
  exists st',
    (ToMauAI.loadDefaultData st g).1 = (st', None) /\
    ToMauAI_fallen_back st' /\
    ToMauAI.error st' = None /\
    ToMauAI.isLoading st' = ToMauAI.isLoading st.
Proof.
  unfold ToMauAI.loadDefaultData, ToMauAI.setupPuzzleState.
  change (colors ← prop "template" ToMauAI.defaultGameData "colors";
          ToMauAI.spread colors)
    with (Done ToMauAI.default_colors).
  cbv iota beta. unfold mbind, Rand_bind.
  pose proof (shuffleArray_perm ToMauAI.default_colors g) as Hcol.
  destruct (shuffleArray ToMauAI.default_colors g) as [shuffled g1].
  destruct (ToMauAI_puzzles_at_default shuffled (seq 0 4) g1)
    as (ps & g2 & -> & Hps).
  eexists. split; [reflexivity |]. split; [| done].
  split; [done |]. split; [done |]. simpl.
  split; [by rewrite <- (Forall2_length _ _ _ Hps) |].
  split; [| done]. intros i p Hp.
  destruct (Forall2_lookup_r _ _ _ _ _ Hps Hp) as (k & Hk & Hid & Hpal & Hwhite).
  apply lookup_seq in Hk as [-> _].
  split; [done |]. split; [| done]. by rewrite Hpal.
Qed.

Lemma ToMauAI_generateNew_failure (r : remote) (e : thrown)
    (st st1 : ToMauAI.state) (g : rng) :
  (ToMauAI.try_body r (ToMauAI.setError None (ToMauAI.setIsLoading true st))
                    g).1 = (st1, Some e) ->
  exists st',
    (ToMauAI.generateNew r st g).1 = (st', None) /\
    ToMauAI_fallen_back st' /\
    ToMauAI.error st' = None /\
    ToMauAI.isLoading st' = false.
Proof.
  intros Hfail. unfold ToMauAI.generateNew.
  unfold mbind at 1, Rand_bind at 1.
  destruct (ToMauAI.try_body _ _ g) as [[st1' thrown] g1].
  simpl in Hfail. injection Hfail as -> ->.
  unfold mbind, Rand_bind.
  match goal with |- context [ToMauAI.loadDefaultData ?s g1] =>
    destruct (ToMauAI_loadDefaultData_spec s g1) as (st2 & Hload & Hfb & Herr & _);
    destruct (ToMauAI.loadDefaultData s g1) as [[st2' escaped] g2]
  end.
  simpl in Hload. injection Hload as -> ->. simpl.
  eexists. split; [reflexivity |].
  destruct Hfb as (? & ? & ? & ? & ?). done.
Qed.



(** The responses the two validations reject: too few pairs or no array
    at all for the number game; no "MISSING" cell, or a number of options
    other than 5, for the grid game. *)
Lemma malformed_is_rejected :
  (forall items, (length items < 5)%nat ->
     NoiSo.try_body (Parsed (JArr items))
       = Raise (Err "Dữ liệu từ AI không hợp lệ.")) /\
  (forall data, isArray data = false ->
     NoiSo.try_body (Parsed data) = Raise (Err "Dữ liệu từ AI không hợp lệ.")) /\
  (forall fields cells,
     assoc "grid" fields = Some (JArr cells) ->
     index_of "MISSING" cells 0 = -1 ->
     TimHinhDung.try_body (Parsed (JObj fields))
       = Raise (Err "Invalid data structure from AI.")) /\
  (forall fields cells options,
     assoc "grid" fields = Some (JArr cells) ->
     index_of "MISSING" cells 0 <> -1 ->
     assoc "options" fields = Some (JArr options) ->
     length options <> 5%nat ->
     TimHinhDung.try_body (Parsed (JObj fields))
       = Raise (Err "Invalid data structure from AI.")).
Proof.
  repeat split.
  - intros items Hlen. simpl.
    destruct (Z.ltb_spec (Z.of_nat (length items)) 5); [done | lia].
  - intros data Hna. by destruct data.
  - intros fields cells Hgrid Hidx. simpl. rewrite Hgrid. simpl.
    by rewrite Hidx.
  - intros fields cells options Hgrid Hidx Hopts Hlen. simpl.
    rewrite Hgrid. simpl.
    destruct (Z.eqb_spec (index_of "MISSING" cells 0) (-1)); [done |].
    rewrite Hopts. simpl.
    destruct (Z.eqb_spec (Z.of_nat (length options)) 5); [lia | done].
Qed.

(** C6.  On a response that validation rejects (a grid with no "MISSING"
    cell; an array of 4 pairs) each game ends on its hard-coded default
    puzzle, and the notice that the [catch] clause had just set is gone:
    loading the default clears it. *)
Theorem fallback_drops_notice :
  let stT :=
    {| TimHinhDung.puzzle := None; TimHinhDung.isLoading := false;
       TimHinhDung.error := None; TimHinhDung.selection := None |} in
  let no_sentinel :=
    Parsed (JObj [("grid", JArr (replicate 9 (JStr "<svg/>")));
                  ("options", JArr (replicate 5 (JStr "<svg/>")));
                  ("correctOptionIndex", JNum 0)]) in
  let stN :=
    {| NoiSo.theme := "trái cây"; NoiSo.isLoading := false;
       NoiSo.error := None; NoiSo.leftItems := []; NoiSo.rightItems := [];
       NoiSo.selectedLeft := None; NoiSo.connections := ∅ |} in
  let four_pairs :=
    Parsed (JArr (replicate 4 (JObj [("svg", JStr "<svg/>");
                                     ("count", JNum 1)]))) in
  let g := cycle [1 # 3; 4 # 5; 1 # 2; 9 # 10] in
  let stT' := TimHinhDung.generateNew no_sentinel stT in
  let stN' := (NoiSo.generateNew four_pairs stN g).1 in
  TimHinhDung.try_body no_sentinel = Raise (Err "Invalid data structure from AI.") /\
  NoiSo.try_body four_pairs = Raise (Err "Dữ liệu từ AI không hợp lệ.") /\
  TimHinhDung_fallen_back stT' /\
  NoiSo_fallen_back stN' /\
  TimHinhDung.error stT' = None /\
  NoiSo.error stN' = None.
Proof.
  intros stT no_sentinel stN four_pairs g stT' stN'.
  split; [reflexivity |]. split; [reflexivity |].
  split; [reflexivity |]. split.
  - subst stN'. rewrite (NoiSo_generateNew_failure four_pairs
      (Err "Dữ liệu từ AI không hợp lệ.")) by reflexivity.
    match goal with |- context [NoiSo.loadDefaultData ?s g] =>
      destruct (NoiSo_loadDefaultData_spec s g) as (Hfb & _);
      destruct Hfb as (base & ? & ? & ? & ? & ?)
    end.
    by exists base.
  - split; [reflexivity |]. subst stN'.
    rewrite (NoiSo_generateNew_failure four_pairs
      (Err "Dữ liệu từ AI không hợp lệ.")) by reflexivity.
    match goal with |- context [NoiSo.loadDefaultData ?s g] =>
      destruct (NoiSo_loadDefaultData_spec s g) as (_ & Herr & _)
    end.
    exact Herr.
Qed.

(** The notice is dropped on every failure, not only on these two. *)
Lemma fallback_never_keeps_notice (rN rT : remote) (eN eT : thrown)
    (stN : NoiSo.state) (stT : TimHinhDung.state) (g : rng) :
  is_blank (NoiSo.theme stN) = false ->
  NoiSo.try_body rN = Raise eN ->
  TimHinhDung.try_body rT = Raise eT ->
  NoiSo.error (NoiSo.generateNew rN stN g).1 = None /\
  TimHinhDung.error (TimHinhDung.generateNew rT stT) = None.
Proof.
  intros Hth HfN HfT. split.
  - rewrite (NoiSo_generateNew_failure rN eN) by done.
    match goal with |- context [NoiSo.loadDefaultData ?s g] =>
      destruct (NoiSo_loadDefaultData_spec s g) as (_ & Herr & _)
    end.
    exact Herr.
  - unfold TimHinhDung.generateNew. by rewrite HfT.
Qed.
(** On the emoji game a failed request that is not a rate limit does not
    bring up the fallback puzzle, whatever the engine. *)
Lemma MaHoaAI_plain_failure_keeps_puzzle :
  let st :=
    {| MaHoaAI.theme := "trái cây"; MaHoaAI.isLoading := false;
       MaHoaAI.error := None; MaHoaAI.legend := JArr [];
       MaHoaAI.problems := []; MaHoaAI.userAnswers := ∅ |} in
  ~ MaHoaAI_fallen_back
      (MaHoaAI.generateGame (Threw (Err "Failed to fetch")) st).
Proof. intros st [Hlegend _]. vm_compute in Hlegend. discriminate. Qed.

(** There the rate-limit signal decides between the two branches. *)
Example MaHoaAI_rate_limit_switches_branch :
  let st :=
    {| MaHoaAI.theme := "trái cây"; MaHoaAI.isLoading := false;
       MaHoaAI.error := None; MaHoaAI.legend := JArr [];
       MaHoaAI.problems := []; MaHoaAI.userAnswers := ∅ |} in
  MaHoaAI_fallen_back
    (MaHoaAI.generateGame (Threw (Err "429 Too Many Requests")) st) /\
  MaHoaAI.error
    (MaHoaAI.generateGame (Threw (Err "429 Too Many Requests")) st) = None /\
  MaHoaAI.error (MaHoaAI.generateGame (Threw (Err "Failed to fetch")) st)
    = Some "Failed to fetch".
Proof. intros st. vm_compute. done. Qed.

(** The earlier version of the emoji game has no fallback even then. *)
Example MaHoaAI_v1_rate_limit_no_fallback :
  let st :=
    {| MaHoaAI.theme := "trái cây"; MaHoaAI.isLoading := false;
       MaHoaAI.error := None; MaHoaAI.legend := JArr [];
       MaHoaAI.problems := []; MaHoaAI.userAnswers := ∅ |} in
  let st' := MaHoaAI.generateGame_v1 (Threw (Err "429 Too Many Requests")) st in
  MaHoaAI.legend st' = JArr [] /\
  MaHoaAI.error st' = Some "429 Too Many Requests".
Proof. intros st st'. vm_compute. done. Qed.

(** The pattern game has no fallback: a grid of 24 cells is rejected and the
    patterns stay as they were. *)
Example ToTracNghiem_short_grid_no_fallback :
  let st :=
    {| ToTracNghiem.patterns := []; ToTracNghiem.isLoading := false;
       ToTracNghiem.error := None |} in
  let reply := Parsed (JObj [("grid", JArr (replicate 24 (JNum 1)))]) in
  let st' :=
    (ToTracNghiem.generateNew (ToTracNghiem.BatchResolved (replicate 8 reply))
                              st (cycle [1 # 3; 4 # 5])).1 in
  ToTracNghiem.patterns st' = [] /\
  ToTracNghiem.isLoading st' = false /\
  exists m, ToTracNghiem.error st' = Some m.
Proof. intros st reply st'. vm_compute. eauto. Qed.

(** The colouring game reads the two lengths of a response whose pieces
    and colours are numbers as [undefined] twice, lets it pass, stores it as
    the template, and throws on spreading the colours; the fallback puzzle
    replaces it. *)
Example ToMauAI_numbers_pass_then_fall_back (st : ToMauAI.state) (g : rng) :
  let data := JObj [("pieces", JNum 5); ("colors", JNum 7)] in
  ToMauAI.invalid data = Done false /\
  (ToMauAI.try_body (Parsed data) st g).1 =
    (ToMauAI.setCurrentTemplate (Some data) st,
     Some (Err (error_text "[...array]" (JNum 7)))) /\
  ToMauAI_fallen_back (ToMauAI.generateNew (Parsed data) st g).1.1 /\
  (ToMauAI.generateNew (Parsed data) st g).1.2 = None.
Proof.
  intros data. split; [done |]. split; [done |].
  destruct (ToMauAI_generateNew_failure (Parsed data)
              (Err (error_text "[...array]" (JNum 7))) st
              (ToMauAI.setCurrentTemplate (Some data)
                 (ToMauAI.setError None (ToMauAI.setIsLoading true st))) g)
    as (st' & -> & Hfb & _); done.
Qed.

End RemoteFacts.

Section RemoteRuns.
Import Js.
#[local] Existing Instance plain_engine.



End RemoteRuns.

(** * Further properties of the code *)

(** ** getRandomInt *)

(** X1.  On a fair source, [getRandomInt(min, max)] with [min <= max]
    returns an integer of the closed range from [min] to [max]. *)
Theorem getRandomInt_within (min max : Z) (g : rng) :
  fair g -> min <= max ->
  min <= (getRandomInt min max g).1 <= max.
Proof.
  intros Hg Hle. by destruct (ensures_getRandomInt min max Hle g Hg).
Qed.

Lemma getRandomInt_within_witness :
  2 <= (getRandomInt 2 3 (cycle [99 # 100; 1 # 7])).1 <= 3.
Proof.
  apply getRandomInt_within; [| lia].
  apply fair_cycle; [discriminate |].
  repeat constructor; vm_compute; congruence.
Defined.



(** The same through the largest range that the bounds allow, at its two
    ends. *)
Example getRandomInt_reaches_ends :
  (getRandomInt (- 2 ^ 31) (2 ^ 31)
     (cycle [draw_for (- 2 ^ 31) (2 ^ 31) (- 2 ^ 31)])).1 = - 2 ^ 31 /\
  (getRandomInt (- 2 ^ 31) (2 ^ 31)
     (cycle [draw_for (- 2 ^ 31) (2 ^ 31) (2 ^ 31)])).1 = 2 ^ 31.
Proof. by vm_compute. Qed.

(** ** Answer fields *)

Lemma keep_digits_all_digits (value : string) :
  Forall (fun c => Input.is_digit c = true)
         (list_ascii_of_string (Input.keep_digits value)).
Proof.
  induction value as [| c rest IH]; simpl; [constructor |].
  destruct (Input.is_digit c) eqn:Hc; [| done]. simpl. by constructor.
Qed.

Lemma keep_digits_fixes_digits (value : string) :
  Forall (fun c => Input.is_digit c = true) (list_ascii_of_string value) ->
  Input.keep_digits value = value.
Proof.
  induction value as [| c rest IH]; simpl; [done |].
  intros H. apply Forall_cons in H as [Hc Hrest].
  rewrite Hc. by rewrite IH.
Qed.

Lemma keep_digits_length (value : string) :
  (String.length (Input.keep_digits value) <= String.length value)%nat.
Proof.
  induction value as [| c rest IH]; simpl; [done |].
  destruct (Input.is_digit c); simpl; lia.
Qed.

(** X3.  After [handleInputChange(id, value)] the field [id] shows only
    digits: the typed value when it was all digits, never a longer text,
    and filtering it again changes nothing; every other field keeps its
    answer. *)
Theorem handleInputChange_keeps_digits
    (id : Z) (value : string) (prev : gmap Z string) :
  let next := Input.handleInputChange id value prev in
  Forall (fun c => Input.is_digit c = true)
         (list_ascii_of_string (Input.shown next id)) /\
  (Forall (fun c => Input.is_digit c = true) (list_ascii_of_string value) ->
   Input.shown next id = value) /\
  (String.length (Input.shown next id) <= String.length value)%nat /\
  Input.handleInputChange id (Input.shown next id) next = next /\
  (forall other, other <> id -> next !! other = prev !! other).
Proof.
  intros next.
  assert (Hshown : Input.shown next id = Input.keep_digits value).
  { unfold Input.shown, next, Input.handleInputChange.
    by rewrite lookup_insert_eq. }
  rewrite Hshown. split; [apply keep_digits_all_digits |].
  split; [apply keep_digits_fixes_digits |].
  split; [apply keep_digits_length |]. split.
  - unfold next, Input.handleInputChange.
    rewrite (keep_digits_fixes_digits _ (keep_digits_all_digits value)).
    by rewrite insert_insert_eq.
  - intros other Hne. unfold next, Input.handleInputChange.
    by rewrite lookup_insert_ne.
Qed.

(** ** The local symbol problems *)

Lemma at_index_iconKeys (k : Z) :
  0 <= k <= 8 ->
  exists key, MaHoaLocal.at_index MaHoaLocal.iconKeys k = Some key /\
              MaHoaLocal.iconKeys !! Z.to_nat k = Some key.
Proof.
  intros Hk. unfold MaHoaLocal.at_index.
  destruct (Z.ltb_spec k 0); [lia |].
  destruct (lookup_lt_is_Some_2 MaHoaLocal.iconKeys (Z.to_nat k)) as [key Hkey].
  { simpl. lia. }
  eauto.
Qed.

Lemma generateGame_legend_numbers (g : rng) :
  exists numbers,
    numbers ≡ₚ [1; 2; 3; 4; 5; 6; 7; 8; 9] /\
    MaHoaLocal.legend (MaHoaLocal.generateGame g).1
      = MaHoaLocal.assign_legend numbers MaHoaLocal.iconKeys.
Proof.
  unfold MaHoaLocal.generateGame. unfold mbind at 1, Rand_bind.
  pose proof (shuffleArray_perm ((fun i => Z.of_nat i + 1) <$> seq 0 9) g)
    as Hperm.
  destruct (shuffleArray _ g) as [numbers g1]. simpl in Hperm.
  exists numbers. split; [exact Hperm |].
  unfold mbind, Rand_bind. by destruct (array_from _ _ g1).
Qed.

Lemma legend_number_of_icon (g : rng) (i : nat) (key : string) :
  MaHoaLocal.iconKeys !! i = Some key ->
  exists n, MaHoaLocal.legend (MaHoaLocal.generateGame g).1 !! key
              = Some (Some n) /\ 1 <= n <= 9.
Proof.
  intros Hi. destruct (generateGame_legend_numbers g) as (numbers & Hperm & ->).
  rewrite (legend_of_icon _ i) by done.
  assert (Hi9 : (i < 9)%nat) by (apply lookup_lt_Some in Hi; done).
  destruct (lookup_lt_is_Some_2 numbers i) as [n Hn].
  { rewrite Hperm. simpl. lia. }
  exists n. rewrite Hn. split; [done |].
  assert (Hin : n ∈ numbers) by (by eapply list_elem_of_lookup_2).
  rewrite Hperm in Hin. rewrite !elem_of_cons, elem_of_nil in Hin. lia.
Qed.

(** X4.  The local symbol game poses 12 problems numbered 0 to 11; both
    symbols of a problem are icons of the legend, and the stored answer is
    the sum of their two legend numbers, between 2 and 18. *)
Theorem generateGame_problems_sum_legend (g : rng) :
  fair g ->
  let game := (MaHoaLocal.generateGame g).1 in
  MaHoaLocal.id <$> MaHoaLocal.problems game
    = (fun i => Z.of_nat i) <$> seq 0 12 /\
  Forall (fun p =>
            exists s1 s2 n1 n2,
              MaHoaLocal.symbol1 p = Some s1 /\
              MaHoaLocal.symbol2 p = Some s2 /\
              MaHoaLocal.legend game !! s1 = Some (Some n1) /\
              MaHoaLocal.legend game !! s2 = Some (Some n2) /\
              MaHoaLocal.answer p = Some (n1 + n2) /\
              2 <= n1 + n2 <= 18)
         (MaHoaLocal.problems game).
Proof.
  intros Hg game.
  assert (Hens : ensures MaHoaLocal.generateGame (fun gm =>
            Forall2 (fun i p =>
              MaHoaLocal.id p = Z.of_nat i /\
              exists k1 k2, 0 <= k1 <= 8 /\ 0 <= k2 <= 8 /\
                MaHoaLocal.symbol1 p = MaHoaLocal.at_index MaHoaLocal.iconKeys k1 /\
                MaHoaLocal.symbol2 p = MaHoaLocal.at_index MaHoaLocal.iconKeys k2 /\
                MaHoaLocal.answer p =
                  MaHoaLocal.js_add
                    (MaHoaLocal.legend_get (MaHoaLocal.legend gm)
                                           (MaHoaLocal.symbol1 p))
                    (MaHoaLocal.legend_get (MaHoaLocal.legend gm)
                                           (MaHoaLocal.symbol2 p)))
              (seq 0 12) (MaHoaLocal.problems gm))).
  { unfold MaHoaLocal.generateGame.
    eapply ensures_bind; [apply ensures_shuffleArray |].
    intros numbers _. eapply ensures_bind.
    - apply (ensures_array_from _ (fun i p =>
        MaHoaLocal.id p = Z.of_nat i /\
        exists k1 k2, 0 <= k1 <= 8 /\ 0 <= k2 <= 8 /\
          MaHoaLocal.symbol1 p = MaHoaLocal.at_index MaHoaLocal.iconKeys k1 /\
          MaHoaLocal.symbol2 p = MaHoaLocal.at_index MaHoaLocal.iconKeys k2 /\
          MaHoaLocal.answer p =
            MaHoaLocal.js_add
              (MaHoaLocal.legend_get
                 (MaHoaLocal.assign_legend numbers MaHoaLocal.iconKeys)
                 (MaHoaLocal.symbol1 p))
              (MaHoaLocal.legend_get
                 (MaHoaLocal.assign_legend numbers MaHoaLocal.iconKeys)
                 (MaHoaLocal.symbol2 p)))).
      intros i _. eapply ensures_bind.
      { apply (ensures_getRandomInt 0 8). lia. }
      intros k1 Hk1. eapply ensures_bind.
      { apply (ensures_getRandomInt 0 8). lia. }
      intros k2 Hk2. apply ensures_ret. simpl. split; [done |].
      by exists k1, k2.
    - intros ps Hps. by apply ensures_ret. }
  destruct (Hens g Hg) as [Hps _]. fold game in Hps. split.
  - apply Forall2_fmap_eq. eapply Forall2_impl; [exact Hps |].
    by intros i p [? _].
  - eapply Forall2_Forall_r; [| exact Hps].
    intros i p (_ & k1 & k2 & Hk1 & Hk2 & Hs1 & Hs2 & Hans).
    destruct (at_index_iconKeys k1 Hk1) as (s1 & Hat1 & Hin1).
    destruct (at_index_iconKeys k2 Hk2) as (s2 & Hat2 & Hin2).
    destruct (legend_number_of_icon g _ _ Hin1) as (n1 & Hn1 & Hr1).
    destruct (legend_number_of_icon g _ _ Hin2) as (n2 & Hn2 & Hr2).
    fold game in Hn1, Hn2.
    exists s1, s2, n1, n2. rewrite Hs1, Hs2, Hat1, Hat2 in *.
    repeat split; try done; try lia.
    rewrite Hans. unfold MaHoaLocal.legend_get. by rewrite Hn1, Hn2.
Qed.

Lemma generateGame_problems_sum_legend_witness :
  let game :=
    (MaHoaLocal.generateGame (cycle [1 # 3; 7 # 10; 9 # 10; 1 # 2])).1 in
  MaHoaLocal.id <$> MaHoaLocal.problems game
    = (fun i => Z.of_nat i) <$> seq 0 12 /\
  Forall (fun p =>
            exists s1 s2 n1 n2,
              MaHoaLocal.symbol1 p = Some s1 /\
              MaHoaLocal.symbol2 p = Some s2 /\
              MaHoaLocal.legend game !! s1 = Some (Some n1) /\
              MaHoaLocal.legend game !! s2 = Some (Some n2) /\
              MaHoaLocal.answer p = Some (n1 + n2) /\
              2 <= n1 + n2 <= 18)
         (MaHoaLocal.problems game).
Proof.
  apply generateGame_problems_sum_legend.
  apply fair_cycle; [discriminate |].
  repeat constructor; vm_compute; congruence.
Defined.

(** ** Playing the pairing games *)

(** X5.  In the equation game a connection is recorded whatever the two
    items are, and connecting the same left item again replaces its edge;
    a click on the right with nothing selected changes nothing. *)
Theorem NoiPhepTinh_last_connection_wins
    (st : NoiPhepTinh.state) (l r1 r2 : NoiPhepTinh.MatchItem) :
  let st1 := NoiPhepTinh.handleRightClick r1 (NoiPhepTinh.handleLeftClick l st) in
  let st2 := NoiPhepTinh.handleRightClick r2 (NoiPhepTinh.handleLeftClick l st1) in
  NoiPhepTinh.connections st1
    = <[NoiPhepTinh.id l := NoiPhepTinh.id r1]> (NoiPhepTinh.connections st) /\
  NoiPhepTinh.connections st2
    = <[NoiPhepTinh.id l := NoiPhepTinh.id r2]> (NoiPhepTinh.connections st) /\
  NoiPhepTinh.selectedLeft st1 = None /\
  NoiPhepTinh.handleRightClick r2 st1 = st1 /\
  NoiPhepTinh.leftItems st2 = NoiPhepTinh.leftItems st /\
  NoiPhepTinh.rightItems st2 = NoiPhepTinh.rightItems st.
Proof.
  intros st1 st2. subst st1 st2.
  unfold NoiPhepTinh.handleRightClick, NoiPhepTinh.handleLeftClick. simpl.
  repeat split; try done. apply insert_insert_eq.
Qed.

Lemma ensures_NoiPhepTinh_generateItems :
  ensures NoiPhepTinh.generateItems (fun st =>
    Forall (fun l => sum_pair (NoiPhepTinh.content l) (NoiPhepTinh.matchId l))
           (NoiPhepTinh.leftItems st) /\
    Forall (fun r => sum_pair (NoiPhepTinh.matchId r) (NoiPhepTinh.content r))
           (NoiPhepTinh.rightItems st)).
Proof.
  unfold NoiPhepTinh.generateItems. eapply ensures_bind.
  { apply (ensures_array_from _ (fun _ item =>
      sum_pair (NoiPhepTinh.b_content item) (NoiPhepTinh.b_matchId item))).
    intros i _. eapply ensures_bind.
    { apply (ensures_getRandomInt 0 5). lia. }
    intros a Ha. eapply ensures_bind.
    { apply (ensures_getRandomInt 1 5). lia. }
    intros b Hb. apply ensures_ret. by exists a, b. }
  intros baseItems Hbase.
  assert (Hall : Forall (fun item =>
            sum_pair (NoiPhepTinh.b_content item) (NoiPhepTinh.b_matchId item))
            baseItems).
  { eapply Forall2_Forall_r; [| exact Hbase]. done. }
  eapply ensures_bind; [apply ensures_shuffleArray |].
  intros right Hright. apply ensures_ret. simpl. split.
  - apply Forall_forall. intros l Hl.
    apply elem_of_lookup_imap in Hl as (i & item & -> & Hi). simpl.
    rewrite Forall_forall in Hall. apply Hall.
    by eapply list_elem_of_lookup_2.
  - rewrite Hright. apply Forall_forall. intros r Hr.
    apply elem_of_lookup_imap in Hr as (i & item & -> & Hi). simpl.
    rewrite Forall_forall in Hall. apply Hall.
    by eapply list_elem_of_lookup_2.
Qed.

(** X6.  Every item of the equation game is built from one sum [a + b] with
    [a] in 0..5 and [b] in 1..5: a left item shows the equation and is
    keyed by the decimal sum, a right item shows the decimal sum and is
    keyed by the equation. *)
Theorem NoiPhepTinh_items_are_sums (g : rng) :
  fair g ->
  let st := (NoiPhepTinh.generateItems g).1 in
  Forall (fun l => sum_pair (NoiPhepTinh.content l) (NoiPhepTinh.matchId l))
         (NoiPhepTinh.leftItems st) /\
  Forall (fun r => sum_pair (NoiPhepTinh.matchId r) (NoiPhepTinh.content r))
         (NoiPhepTinh.rightItems st).
Proof.
  intros Hg st. by destruct (ensures_NoiPhepTinh_generateItems g Hg).
Qed.

Lemma NoiPhepTinh_items_are_sums_witness :
  let st :=
    (NoiPhepTinh.generateItems (cycle [1 # 3; 7 # 10; 9 # 10; 0 # 1])).1 in
  Forall (fun l => sum_pair (NoiPhepTinh.content l) (NoiPhepTinh.matchId l))
         (NoiPhepTinh.leftItems st) /\
  Forall (fun r => sum_pair (NoiPhepTinh.matchId r) (NoiPhepTinh.content r))
         (NoiPhepTinh.rightItems st).
Proof.
  apply NoiPhepTinh_items_are_sums.
  apply fair_cycle; [discriminate |].
  repeat constructor; vm_compute; congruence.
Defined.

Lemma NoiBong_click_keeps (st : NoiBong.state) c :
  NoiBong.leftItems (NoiBong_click st c) = NoiBong.leftItems st /\
  NoiBong.rightItems (NoiBong_click st c) = NoiBong.rightItems st.
Proof.
  destruct c; simpl; [done |]. unfold NoiBong.handleRightClick.
  by destruct (NoiBong.selectedLeft st).
Qed.

Lemma NoiBong_play_sound cs : forall st,
  on_board (NoiBong.leftItems st) (NoiBong.rightItems st) cs ->
  NoiBong_edges_match st ->
  (forall sel, NoiBong.selectedLeft st = Some sel ->
               sel ∈ NoiBong.leftItems st) ->
  let st' := fold_left NoiBong_click cs st in
  NoiBong_edges_match st' /\
  NoiBong.leftItems st' = NoiBong.leftItems st /\
  NoiBong.rightItems st' = NoiBong.rightItems st.
Proof.
  induction cs as [| c cs IH]; intros st Hboard Hsound Hsel; [done |].
  apply Forall_cons in Hboard as [Hc Hboard]. simpl.
  destruct (NoiBong_click_keeps st c) as [Hl Hr].
  destruct (IH (NoiBong_click st c)) as (H1 & H2 & H3).
  - by rewrite Hl, Hr.
  - destruct c as [item | item]; simpl; [exact Hsound |].
    unfold NoiBong.handleRightClick.
    destruct (NoiBong.selectedLeft st) as [sel |] eqn:Hs; [| exact Hsound].
    intros l r. simpl. destruct (decide _) as [Heq | Hne]; [| apply Hsound].
    destruct (decide (NoiBong.id sel = l)) as [<- | Hl'].
    + rewrite lookup_insert_eq. intros [= <-].
      exists sel, item. repeat split; auto.
    + rewrite lookup_insert_ne by done. apply Hsound.
  - destruct c as [item | item]; simpl.
    + by intros sel [= <-].
    + unfold NoiBong.handleRightClick.
      destruct (NoiBong.selectedLeft st) eqn:Hs; simpl; [done |].
      rewrite Hs. done.
  - split; [exact H1 |]. by rewrite H2, H3, Hl, Hr.
Qed.

(** X7.  In the icon game, starting with nothing connected and nothing
    selected, no sequence of clicks on the items of the two columns ever
    records an edge between items with different icons; the columns
    themselves never change. *)
Theorem NoiBong_never_records_mismatch
    (st : NoiBong.state)
    (cs : list (click NoiBong.MatchItem NoiBong.MatchItem)) :
  NoiBong.connections st = ∅ ->
  NoiBong.selectedLeft st = None ->
  on_board (NoiBong.leftItems st) (NoiBong.rightItems st) cs ->
  let st' := fold_left NoiBong_click cs st in
  NoiBong_edges_match st' /\
  NoiBong.leftItems st' = NoiBong.leftItems st /\
  NoiBong.rightItems st' = NoiBong.rightItems st.
Proof.
  intros Hconn Hsel Hboard. apply NoiBong_play_sound; [done | |].
  - intros l r. by rewrite Hconn, lookup_empty.
  - intros sel. by rewrite Hsel.
Qed.

Lemma NoiBong_never_records_mismatch_witness :
  let leaf := {| NoiBong.id := "l-0"; NoiBong.iconId := "leaf" |} in
  let acorn := {| NoiBong.id := "r-0"; NoiBong.iconId := "acorn" |} in
  let leaf' := {| NoiBong.id := "r-1"; NoiBong.iconId := "leaf" |} in
  let st := {| NoiBong.leftItems := [leaf]; NoiBong.rightItems := [acorn; leaf'];
               NoiBong.selectedLeft := None; NoiBong.connections := ∅ |} in
  NoiBong_edges_match
    (fold_left NoiBong_click
               [OnLeft leaf; OnRight acorn; OnLeft leaf; OnRight leaf'] st).
Proof.
  intros leaf acorn leaf' st.
  apply (NoiBong_never_records_mismatch st); [done | done |].
  unfold on_board. repeat constructor; simpl;
    repeat first [apply list_elem_of_here | apply list_elem_of_further].
Defined.

Lemma NoiSo_click_keeps (st : NoiSo.state) c :
  NoiSo.leftItems (NoiSo_click st c) = NoiSo.leftItems st /\
  NoiSo.rightItems (NoiSo_click st c) = NoiSo.rightItems st.
Proof.
  destruct c; simpl; [done |]. unfold NoiSo.handleRightClick.
  destruct (NoiSo.selectedLeft st); [| done].
  by destruct (Js.strict_eq_ref _ _ _).
Qed.

Lemma NoiSo_play_sound cs : forall st,
  on_board (NoiSo.leftItems st) (NoiSo.rightItems st) cs ->
  NoiSo_edges_match st ->
  (forall sel, NoiSo.selectedLeft st = Some sel -> sel ∈ NoiSo.leftItems st) ->
  let st' := fold_left NoiSo_click cs st in
  NoiSo_edges_match st' /\
  NoiSo.leftItems st' = NoiSo.leftItems st /\
  NoiSo.rightItems st' = NoiSo.rightItems st /\
  NoiSo.error st' = NoiSo.error st.
Proof.
  induction cs as [| c cs IH]; intros st Hboard Hsound Hsel; [done |].
  apply Forall_cons in Hboard as [Hc Hboard]. simpl.
  destruct (NoiSo_click_keeps st c) as [Hl Hr].
  destruct (IH (NoiSo_click st c)) as (H1 & H2 & H3 & H4).
  - by rewrite Hl, Hr.
  - destruct c as [item | item]; simpl; [exact Hsound |].
    unfold NoiSo.handleRightClick.
    destruct (NoiSo.selectedLeft st) as [sel |] eqn:Hs; [| exact Hsound].
    destruct (Js.strict_eq_ref _ _ _) eqn:Heq; [| exact Hsound].
    intros l r. simpl.
    destruct (decide (NoiSo.id sel = l)) as [<- | Hl'].
    + rewrite lookup_insert_eq. intros [= <-].
      exists sel, item. repeat split; auto.
    + rewrite lookup_insert_ne by done. apply Hsound.
  - destruct c as [item | item]; simpl.
    + by intros sel [= <-].
    + unfold NoiSo.handleRightClick.
      destruct (NoiSo.selectedLeft st) eqn:Hs; simpl; [done |].
      rewrite Hs. done.
  - split; [exact H1 |]. rewrite H2, H3, H4, Hl, Hr. repeat split.
    destruct c as [item | item]; simpl; [done |].
    unfold NoiSo.handleRightClick.
    destruct (NoiSo.selectedLeft st); [| done].
    by destruct (Js.strict_eq_ref _ _ _).
Qed.

(** X8.  In the number game, starting with nothing connected and nothing
    selected, no sequence of clicks on the items of the two columns ever
    records an edge between items whose counts differ under [===], where
    an array or an object is equal only to itself, which the two items
    built from one entry share; the columns and the error notice never
    change. *)
Theorem NoiSo_never_records_mismatch
    (st : NoiSo.state) (cs : list (click NoiSo.LeftItem NoiSo.RightItem)) :
  NoiSo.connections st = ∅ ->
  NoiSo.selectedLeft st = None ->
  on_board (NoiSo.leftItems st) (NoiSo.rightItems st) cs ->
  let st' := fold_left NoiSo_click cs st in
  NoiSo_edges_match st' /\
  NoiSo.leftItems st' = NoiSo.leftItems st /\
  NoiSo.rightItems st' = NoiSo.rightItems st /\
  NoiSo.error st' = NoiSo.error st.
Proof.
  intros Hconn Hsel Hboard. apply NoiSo_play_sound; [done | |].
  - intros l r. by rewrite Hconn, lookup_empty.
  - intros sel. by rewrite Hsel.
Qed.

Lemma NoiSo_never_records_mismatch_witness :
  let three := {| NoiSo.id := "l-0"; NoiSo.svg := Js.JStr "<svg/>";
                  NoiSo.count := Js.JNum 3; NoiSo.entry := 0 |} in
  let r2 := {| NoiSo.r_id := "r-1"; NoiSo.r_count := Js.JNum 2;
               NoiSo.r_entry := 1 |} in
  let r3 := {| NoiSo.r_id := "r-0"; NoiSo.r_count := Js.JNum 3;
               NoiSo.r_entry := 0 |} in
  let st := {| NoiSo.theme := "qua"; NoiSo.isLoading := false;
               NoiSo.error := None; NoiSo.leftItems := [three];
               NoiSo.rightItems := [r2; r3]; NoiSo.selectedLeft := None;
               NoiSo.connections := ∅ |} in
  NoiSo_edges_match
    (fold_left NoiSo_click
               [OnLeft three; OnRight r2; OnLeft three; OnRight r3] st).
Proof.
  intros three r2 r3 st.
  apply (NoiSo_never_records_mismatch st); [done | done |].
  unfold on_board. repeat constructor; simpl;
    repeat first [apply list_elem_of_here | apply list_elem_of_further].
Defined.

(** ** Accepted responses *)

Section AcceptedFacts.
Import Js.
Context {engine : Engine}.

Lemma prop_not_nullish (site : string) (v : jsval) (k : string) :
  not_nullish v -> prop site v k = Done (field v k).
Proof.
  intros [Hn Hu]. unfold field, prop.
  destruct v; simpl; try done; by destruct (decide _).
Qed.

Lemma mapA_Done {A B} (f : A -> attempt B) (h : A -> B) (xs : list A) :
  Forall (fun x => f x = Done (h x)) xs -> mapA f xs = Done (h <$> xs).
Proof.
  induction 1 as [| x xs Hx _ IH]; simpl; [done |]. by rewrite Hx, IH.
Qed.

Lemma NoiSo_read_pairs_accepts (items : list jsval) :
  (5 <= length items)%nat -> Forall not_nullish items ->
  NoiSo.read_pairs (JArr items) =
    Done (imap (fun i item =>
                  {| NoiSo.id := "l-" +:+ pretty i;
                     NoiSo.svg := field item "svg";
                     NoiSo.count := field item "count";
                     NoiSo.entry := i |}) items,
          imap (fun i item =>
                  {| NoiSo.r_id := "r-" +:+ pretty i;
                     NoiSo.r_count := field item "count";
                     NoiSo.r_entry := i |}) items).
Proof.
  intros Hlen Hall. unfold NoiSo.read_pairs.
  destruct (Z.ltb_spec (Z.of_nat (length items)) 5); [lia |].
  assert (Hin : forall i item, (i, item) ∈ imap (fun (i : nat) item => (i, item)) items ->
                               not_nullish item).
  { intros i item Hi. apply elem_of_lookup_imap in Hi as (j & x & [= -> ->] & Hj).
    rewrite Forall_forall in Hall. apply Hall. by eapply list_elem_of_lookup_2. }
  rewrite (mapA_Done _ (fun '(i, item) =>
             {| NoiSo.id := "l-" +:+ pretty i; NoiSo.svg := field item "svg";
                NoiSo.count := field item "count"; NoiSo.entry := i |})).
  2:{ apply Forall_forall. intros [i item] Hi. specialize (Hin _ _ Hi).
      by rewrite !prop_not_nullish. }
  unfold mbind at 1, attempt_bind.
  rewrite (mapA_Done _ (fun '(i, item) =>
             {| NoiSo.r_id := "r-" +:+ pretty i;
                NoiSo.r_count := field item "count"; NoiSo.r_entry := i |})).
  2:{ apply Forall_forall. intros [i item] Hi. specialize (Hin _ _ Hi).
      by rewrite !prop_not_nullish. }
  unfold mbind, attempt_bind. f_equal.
  by rewrite !fmap_imap.
Qed.

(** X9.  With a theme that is not blank, a response that is an array of at
    least five entries, none of them null, is taken whole: the left column
    lists the entries in their order, each with its [svg] and [count] as
    sent; the right column is a rearrangement of their counts, each still
    tied to its entry; nothing is selected or connected, no notice is shown
    and loading has ended. *)
Theorem NoiSo_generateNew_accepts
    (items : list jsval) (st : NoiSo.state) (g : rng) :
  is_blank (NoiSo.theme st) = false ->
  (5 <= length items)%nat ->
  Forall not_nullish items ->
  let st' := (NoiSo.generateNew (Parsed (JArr items)) st g).1 in
  NoiSo.leftItems st' =
    imap (fun i item =>
            {| NoiSo.id := "l-" +:+ pretty i;
               NoiSo.svg := field item "svg";
               NoiSo.count := field item "count";
               NoiSo.entry := i |}) items /\
  NoiSo.rightItems st' ≡ₚ
    imap (fun i item =>
            {| NoiSo.r_id := "r-" +:+ pretty i;
               NoiSo.r_count := field item "count";
               NoiSo.r_entry := i |}) items /\
  NoiSo.selectedLeft st' = None /\
  NoiSo.connections st' = ∅ /\
  NoiSo.error st' = None /\
  NoiSo.isLoading st' = false /\
  NoiSo.theme st' = NoiSo.theme st.
Proof.
  intros Hth Hlen Hall st'. subst st'. unfold NoiSo.generateNew. cbv zeta.
  change (NoiSo.theme (NoiSo.setError None (NoiSo.setIsLoading true st)))
    with (NoiSo.theme st).
  rewrite Hth. unfold NoiSo.try_body.
  rewrite NoiSo_read_pairs_accepts by done.
  unfold mbind, Rand_bind.
  match goal with |- context [shuffleArray ?xs g] =>
    pose proof (shuffleArray_perm xs g) as Hperm;
    destruct (shuffleArray xs g) as [right g1]
  end.
  simpl in *. done.
Qed.

End AcceptedFacts.

Section AcceptedRuns.
Import Js.
#[local] Existing Instance plain_engine.

Lemma NoiSo_generateNew_accepts_witness :
  let pair n := JObj [("svg", JStr "<svg/>"); ("count", JNum n)] in
  let st :=
    {| NoiSo.theme := "qua"; NoiSo.isLoading := false;
       NoiSo.error := Some "x"; NoiSo.leftItems := []; NoiSo.rightItems := [];
       NoiSo.selectedLeft := None; NoiSo.connections := {[ "l-0" := "r-0" ]} |} in
  let st' :=
    (NoiSo.generateNew
       (Parsed (JArr [pair 1; pair 2; pair 3; pair 4; pair 5; pair 5])) st
       (cycle [1 # 3; 4 # 5])).1 in
  length (NoiSo.leftItems st') = 6%nat /\ NoiSo.error st' = None.
Proof.
  intros pair st st'.
  destruct (NoiSo_generateNew_accepts
              [pair 1; pair 2; pair 3; pair 4; pair 5; pair 5] st
              (cycle [1 # 3; 4 # 5]))
    as (Hl & _ & _ & _ & He & _).
  - reflexivity.
  - simpl. lia.
  - repeat constructor; discriminate.
  - split; [| exact He]. unfold st'. by rewrite Hl.
Defined.

End AcceptedRuns.

(** ** A theme left blank *)

Section BlankFacts.
Import Js.
Context {engine : Engine}.

(** X10.  With a theme that [trim] leaves empty (nothing but white space
    and line terminators, the no-break and the ideographic space among
    them) no generation is attempted: the outcome of the request plays no
    part and no draw is consumed; the puzzle stays as it was and a message
    asks for a theme.  The number game lowers its loading flag; the emoji
    cipher, in both its versions, and the emoji legend game leave theirs as
    it was. *)
Theorem blank_theme_blocks_generation
    (r r' : remote) (numbers : NoiSo.state) (emoji : MaHoaAI.state)
    (symbols : DienKiTuAI.state) (g : rng) :
  is_blank (NoiSo.theme numbers) = true ->
  is_blank (MaHoaAI.theme emoji) = true ->
  is_blank (DienKiTuAI.theme symbols) = true ->
  let numbers' := NoiSo.generateNew r numbers g in
  let emoji' := MaHoaAI.generateGame r emoji in
  let emoji1' := MaHoaAI.generateGame_v1 r emoji in
  let symbols' := DienKiTuAI.generateGame r symbols g in
  (numbers' = NoiSo.generateNew r' numbers g /\
   numbers'.2 = g /\
   NoiSo.error numbers'.1 = Some "Vui lòng nhập chủ đề." /\
   NoiSo.isLoading numbers'.1 = false /\
   NoiSo.leftItems numbers'.1 = NoiSo.leftItems numbers /\
   NoiSo.rightItems numbers'.1 = NoiSo.rightItems numbers /\
   NoiSo.connections numbers'.1 = NoiSo.connections numbers /\
   NoiSo.selectedLeft numbers'.1 = NoiSo.selectedLeft numbers) /\
  (emoji' = MaHoaAI.generateGame r' emoji /\
   MaHoaAI.error emoji' = Some "Vui lòng nhập chủ đề để tạo trò chơi." /\
   MaHoaAI.isLoading emoji' = MaHoaAI.isLoading emoji /\
   MaHoaAI.legend emoji' = MaHoaAI.legend emoji /\
   MaHoaAI.problems emoji' = MaHoaAI.problems emoji /\
   MaHoaAI.userAnswers emoji' = MaHoaAI.userAnswers emoji) /\
  emoji1' = emoji' /\
  (symbols' = DienKiTuAI.generateGame r' symbols g /\
   symbols'.2 = g /\
   DienKiTuAI.error symbols'.1 = Some "Vui lòng nhập chủ đề để tạo trò chơi." /\
   DienKiTuAI.isLoading symbols'.1 = DienKiTuAI.isLoading symbols /\
   DienKiTuAI.legend symbols'.1 = DienKiTuAI.legend symbols /\
   DienKiTuAI.problems symbols'.1 = DienKiTuAI.problems symbols).
Proof.
  intros HN HM HS numbers' emoji' emoji1' symbols'.
  subst numbers' emoji' emoji1' symbols'.
  unfold NoiSo.generateNew, MaHoaAI.generateGame, MaHoaAI.generateGame_v1,
    DienKiTuAI.generateGame.
  cbv zeta.
  change (NoiSo.theme (NoiSo.setError None (NoiSo.setIsLoading true numbers)))
    with (NoiSo.theme numbers).
  rewrite HN, HM, HS. done.
Qed.

(** What [trim] removes: the white space and the line terminators of the
    language, the no-break space, the ideographic space and the byte order
    mark among them; the zero-width space is not one of them. *)
Example is_blank_white_space :
  is_blank (String (ascii_of_nat 9) (String (ascii_of_nat 10)
             (String (ascii_of_nat 11) (String (ascii_of_nat 12)
               (String (ascii_of_nat 13) " "))))) = true /\
  is_blank nbsp = true /\
  is_blank (unit3 5760) = true /\
  Forall (fun c => is_blank (unit3 c) = true)
         ((fun i => 8192 + N.of_nat i)%N <$> seq 0 11) /\
  is_blank (unit3 8232 +:+ unit3 8233 +:+ unit3 8239 +:+ unit3 8287
            +:+ unit3 12288 +:+ unit3 65279) = true /\
  is_blank (unit3 8203) = false /\
  is_blank (unit3 6158) = false /\
  is_blank (" a ") = false.
Proof. vm_compute. repeat split; repeat constructor. Qed.

End BlankFacts.

Section BlankRuns.
Import Js.
#[local] Existing Instance plain_engine.

Lemma blank_theme_blocks_generation_witness :
  let numbers :=
    {| NoiSo.theme := "   "; NoiSo.isLoading := false; NoiSo.error := None;
       NoiSo.leftItems := []; NoiSo.rightItems := [];
       NoiSo.selectedLeft := None; NoiSo.connections := ∅ |} in
  let emoji :=
    {| MaHoaAI.theme := nbsp +:+ unit3 12288; MaHoaAI.isLoading := true;
       MaHoaAI.error := None;
       MaHoaAI.legend := JArr []; MaHoaAI.problems := [];
       MaHoaAI.userAnswers := ∅ |} in
  let symbols :=
    {| DienKiTuAI.theme := " "; DienKiTuAI.isLoading := false;
       DienKiTuAI.error := None; DienKiTuAI.legend := [];
       DienKiTuAI.problems := []; DienKiTuAI.userAnswers := ∅ |} in
  NoiSo.isLoading (NoiSo.generateNew (Threw NonErr) numbers (cycle [1 # 2])).1
    = false /\
  MaHoaAI.isLoading (MaHoaAI.generateGame (Threw NonErr) emoji) = true.
Proof.
  intros numbers emoji symbols.
  destruct (blank_theme_blocks_generation
              (Threw NonErr) (Parsed JNull) numbers emoji symbols
              (cycle [1 # 2]) eq_refl eq_refl eq_refl)
    as ((_ & _ & _ & HN & _) & (_ & _ & HM & _) & _).
  split; [exact HN | exact HM].
Defined.

End BlankRuns.

(** ** The grid puzzle *)

Section GridFacts.
Import Js.
Context {engine : Engine}.

Lemma is_str_true (v : jsval) (s : string) : is_str v s = true -> v = JStr s.
Proof.
  destruct v; simpl; try done. intros H. by apply bool_decide_eq_true in H as ->.
Qed.

Lemma index_of_found (s : string) (items : list jsval) : forall k r,
  0 <= k -> index_of s items k = r -> r <> -1 ->
  k <= r /\
  items !! Z.to_nat (r - k) = Some (JStr s) /\
  forall j, (j < Z.to_nat (r - k))%nat -> items !! j <> Some (JStr s).
Proof.
  induction items as [| v items IH]; intros k r Hk Hr Hne; simpl in Hr.
  - congruence.
  - destruct (is_str v s) eqn:Hv.
    + subst r. rewrite Z.sub_diag. simpl. split; [lia |].
      split; [by rewrite (is_str_true _ _ Hv) |]. intros j Hj. lia.
    + destruct (IH (k + 1) r ltac:(lia) Hr Hne) as (Hle & Hat & Hbefore).
      split; [lia |].
      replace (Z.to_nat (r - k)) with (S (Z.to_nat (r - (k + 1)))) by lia.
      split; [exact Hat |]. intros [| j] Hj; simpl.
      * intros [= ->]. simpl in Hv. by rewrite bool_decide_eq_true_2 in Hv.
      * apply Hbefore. lia.
Qed.

Lemma assoc_obj_set_eq k v fields : assoc k (obj_set k v fields) = Some v.
Proof.
  induction fields as [| [k' v'] fields IH]; simpl.
  - by rewrite decide_True.
  - destruct (decide (k = k')) as [-> | Hne]; simpl.
    + by rewrite decide_True.
    + by rewrite decide_False.
Qed.

Lemma assoc_obj_set_ne k k' v fields :
  k' <> k -> assoc k' (obj_set k v fields) = assoc k' fields.
Proof.
  intros Hne. induction fields as [| [k0 v0] fields IH]; simpl.
  - by rewrite decide_False.
  - destruct (decide (k = k0)) as [-> | Hne0]; simpl.
    + by rewrite !decide_False.
    + destruct (decide (k' = k0)); [done | exact IH].
Qed.

(** X11.  When the grid game accepts a response whose [grid] is an array,
    the puzzle it stores is the response with [missingIndex] set to the
    position of the first "MISSING" cell of the grid, every other property
    as sent; the options were five; no notice is shown, nothing is selected
    and loading has ended. *)
Theorem TimHinhDung_accepts_first_missing
    (fields : list (string * jsval)) (cells : list jsval) (p : jsval)
    (st : TimHinhDung.state) :
  assoc "grid" fields = Some (JArr cells) ->
  TimHinhDung.try_body (Parsed (JObj fields)) = Done p ->
  exists i : nat,
    cells !! i = Some (JStr "MISSING") /\
    (forall j, (j < i)%nat -> cells !! j <> Some (JStr "MISSING")) /\
    field p "missingIndex" = JNum (Z.of_nat i) /\
    (forall k, k <> "missingIndex" -> field p k = field (JObj fields) k) /\
    field (field p "options") "length" = JNum 5 /\
    TimHinhDung.generateNew (Parsed (JObj fields)) st =
      {| TimHinhDung.puzzle := Some p; TimHinhDung.isLoading := false;
         TimHinhDung.error := None; TimHinhDung.selection := None |}.
Proof.
  intros Hgrid Htry.
  assert (Hgen : TimHinhDung.generateNew (Parsed (JObj fields)) st =
            {| TimHinhDung.puzzle := Some p; TimHinhDung.isLoading := false;
               TimHinhDung.error := None; TimHinhDung.selection := None |}).
  { unfold TimHinhDung.generateNew. by rewrite Htry. }
  unfold TimHinhDung.try_body in Htry. simpl in Htry. rewrite Hgrid in Htry.
  simpl in Htry.
  destruct (Z.eqb_spec (index_of "MISSING" cells 0) (-1)) as [| Hfound];
    [done |].
  destruct (index_of_found "MISSING" cells 0 _ ltac:(lia) eq_refl Hfound)
    as (Hpos & Hat & Hbefore).
  rewrite Z.sub_0_r in Hat, Hbefore.
  unfold prop in Htry.
  destruct (get (default JUndefined (assoc "options" fields)) "length")
    as [len |] eqn:Hlen; [| done].
  simpl in Htry. destruct (is_num len 5) eqn:Hfive; [| done].
  simpl in Htry. injection Htry as <-.
  exists (Z.to_nat (index_of "MISSING" cells 0)).
  split; [exact Hat |]. split; [exact Hbefore |].
  rewrite Z2Nat.id by lia. split.
  { unfold field. simpl. by rewrite assoc_obj_set_eq. }
  split.
  { intros k Hk. unfold field. simpl. by rewrite assoc_obj_set_ne. }
  split; [| exact Hgen].
  unfold field at 2. simpl. rewrite assoc_obj_set_ne by done.
  unfold field. rewrite Hlen. simpl.
  destruct len; simpl in Hfive; try done. f_equal. lia.
Qed.

(** X12.  After a click on option [k] of a puzzle whose correct option is
    the number [c], the option [c] is the one marked correct, the clicked
    option is marked incorrect when it is not [c], and every other option
    is left unmarked; the puzzle itself is untouched. *)
Theorem handleOptionClick_reveals_answer
    (st : TimHinhDung.state) (p : jsval) (c k i : Z) :
  TimHinhDung.puzzle st = Some p ->
  TimHinhDung.correct_option p = JNum c ->
  let st' := TimHinhDung.handleOptionClick k st in
  TimHinhDung.puzzle st' = Some p /\
  TimHinhDung.selection st' = Some (k, bool_decide (k = c)) /\
  TimHinhDung.option_class p (TimHinhDung.selection st') i =
    if bool_decide (i = c) then "pattern-option-cell correct"
    else if bool_decide (i = k) then "pattern-option-cell incorrect"
    else "pattern-option-cell".
Proof.
  intros Hp Hc st'. subst st'. unfold TimHinhDung.handleOptionClick.
  rewrite Hp, Hc. simpl. split; [done |].
  assert (Hkc : (k =? c) = bool_decide (k = c)).
  { destruct (Z.eqb_spec k c);
      [by rewrite bool_decide_eq_true_2 | by rewrite bool_decide_eq_false_2]. }
  rewrite Hkc. split; [done |].
  unfold TimHinhDung.option_class. rewrite Hc. simpl.
  destruct (Z.eqb_spec k i) as [-> | Hki].
  - repeat case_bool_decide; try done; congruence.
  - destruct (Z.eqb_spec i c) as [-> | Hic];
      repeat case_bool_decide; try done; congruence.
Qed.

Lemma handleOptionClick_reveals_answer_witness :
  let p := JObj (TimHinhDung.defaultPuzzle ++ [("missingIndex", JNum 4)]) in
  let st := {| TimHinhDung.puzzle := Some p; TimHinhDung.isLoading := false;
               TimHinhDung.error := None; TimHinhDung.selection := None |} in
  TimHinhDung.option_class
    p (TimHinhDung.selection (TimHinhDung.handleOptionClick 3 st)) 1
    = "pattern-option-cell correct".
Proof.
  intros p st.
  destruct (handleOptionClick_reveals_answer st p 1 3 1 eq_refl eq_refl)
    as (_ & _ & H).
  exact H.
Defined.

(** Options sent as one string are counted in code units: five letters
    pass, accented or not; four letters do not, whatever their bytes; a
    character outside the basic plane counts for two. *)
Example TimHinhDung_options_in_code_units :
  let reply options :=
    Parsed (JObj [("grid", JArr [JStr "MISSING"]); ("options", options)]) in
  (exists p, TimHinhDung.try_body (reply (JStr "abcde")) = Done p) /\
  (exists p, TimHinhDung.try_body (reply (JStr "ééééé")) = Done p) /\
  TimHinhDung.try_body (reply (JStr "éabc"))
    = Raise (Err "Invalid data structure from AI.") /\
  (exists p, TimHinhDung.try_body (reply (JStr "😀😀a")) = Done p) /\
  TimHinhDung.try_body (reply (JStr "😀😀😀😀😀"))
    = Raise (Err "Invalid data structure from AI.").
Proof. intros reply. vm_compute. repeat split; eauto. Qed.

End GridFacts.

Section GridRuns.
Import Js.
#[local] Existing Instance plain_engine.

Lemma TimHinhDung_accepts_first_missing_witness :
  let fields :=
    [("grid", JArr [JStr "a"; JStr "MISSING"; JStr "MISSING"]);
     ("options", JArr (replicate 5 (JStr "o")));
     ("correctOptionIndex", JNum 3)] in
  exists p, TimHinhDung.try_body (Parsed (JObj fields)) = Done p /\
            field p "missingIndex" = JNum 1.
Proof.
  intros fields. eexists. split; [reflexivity |].
  destruct (TimHinhDung_accepts_first_missing
              fields [JStr "a"; JStr "MISSING"; JStr "MISSING"] _
              {| TimHinhDung.puzzle := None; TimHinhDung.isLoading := true;
                 TimHinhDung.error := None; TimHinhDung.selection := None |}
              eq_refl eq_refl)
    as (i & _ & _ & Hi & _).
  reflexivity.
Defined.

End GridRuns.

(** ** The emoji cipher, accepted responses *)

Section CipherFacts.
Import Js.
Context {engine : Engine}.

(** X13.  A response whose [iconMap] is an array of at least nine entries
    and whose [problems] is an array, of any length, is taken: the legend
    is the array as sent and the problems are numbered by position, the
    number overriding any [id] that was sent and every other property kept;
    earlier answers are discarded. *)
Theorem MaHoaAI_generateGame_numbers_problems
    (fields : list (string * jsval)) (icons items : list jsval)
    (st : MaHoaAI.state) :
  is_blank (MaHoaAI.theme st) = false ->
  assoc "iconMap" fields = Some (JArr icons) ->
  (9 <= length icons)%nat ->
  assoc "problems" fields = Some (JArr items) ->
  let st' := MaHoaAI.generateGame (Parsed (JObj fields)) st in
  MaHoaAI.legend st' = JArr icons /\
  MaHoaAI.userAnswers st' = ∅ /\
  MaHoaAI.error st' = None /\
  MaHoaAI.isLoading st' = false /\
  length (MaHoaAI.problems st') = length items /\
  forall (i : nat) (sent : list (string * jsval)),
    items !! i = Some (JObj sent) ->
    exists q, MaHoaAI.problems st' !! i = Some q /\
      field q "id" = JNum (Z.of_nat i) /\
      forall k, k <> "id" -> field q k = field (JObj sent) k.
Proof.
  intros Hth Hicons Hnine Hitems st'.
  assert (Htry : MaHoaAI.try_body (Parsed (JObj fields))
                 = Done (JArr icons, MaHoaAI.number_problems items)).
  { unfold MaHoaAI.try_body, MaHoaAI.invalid, orA, prop. simpl.
    rewrite Hicons, Hitems. simpl.
    destruct (Z.ltb_spec (Z.of_nat (length icons)) 9); [lia | done]. }
  subst st'. unfold MaHoaAI.generateGame. rewrite Hth. cbv zeta.
  rewrite Htry. simpl.
  split; [done |]. split; [done |]. split; [done |]. split; [done |].
  unfold MaHoaAI.number_problems. split; [by rewrite length_imap |].
  intros i sent Hi. eexists. split.
  { rewrite list_lookup_imap, Hi. reflexivity. }
  unfold field. simpl. split.
  - by rewrite assoc_obj_set_eq.
  - intros k Hk. by rewrite assoc_obj_set_ne.
Qed.

End CipherFacts.

Section CipherRuns.
Import Js.
#[local] Existing Instance plain_engine.

Lemma MaHoaAI_generateGame_numbers_problems_witness :
  let fields :=
    [("iconMap", JArr MaHoaAI.default_iconMap);
     ("problems", JArr [JObj [("id", JNum 7); ("result", JNum 3)]])] in
  let st :=
    {| MaHoaAI.theme := "xe"; MaHoaAI.isLoading := false;
       MaHoaAI.error := None; MaHoaAI.legend := JNull;
       MaHoaAI.problems := []; MaHoaAI.userAnswers := ∅ |} in
  MaHoaAI.problems (MaHoaAI.generateGame (Parsed (JObj fields)) st)
    = [JObj [("id", JNum 0); ("result", JNum 3)]].
Proof.
  intros fields st.
  destruct (MaHoaAI_generateGame_numbers_problems
              fields MaHoaAI.default_iconMap
              [JObj [("id", JNum 7); ("result", JNum 3)]] st
              eq_refl eq_refl ltac:(simpl; lia) eq_refl)
    as (_ & _ & _ & _ & _ & H).
  destruct (H 0%nat _ eq_refl) as (q & Hq & _).
  reflexivity.
Defined.

End CipherRuns.

(** ** The dot-grid game *)

Section DotGridFacts.
Import Js ToTracNghiem.
Context {engine : Engine}.

Lemma field_prop (site : string) (v x : jsval) (k : string) :
  field v k = x -> x <> JUndefined -> prop site v k = Done x.
Proof.
  unfold field, prop. destruct (get v k); simpl; [by intros -> | congruence].
Qed.

Lemma read_patterns_accept (selectedChars : list string) responses grids :
  Forall2 grid_response responses grids ->
  forall k : nat,
    mapA (fun '(index, r) => read_pattern selectedChars index r)
         (imap (fun (index : nat) r => ((k + index)%nat, r)) responses)
    = Done (imap (fun (index : nat) cells =>
                    {| id := Z.of_nat (k + index); model := cells;
                       userGrid := replicate 25 0 |}) grids).
Proof.
  induction 1 as [| r cells responses grids Hr _ IH]; intros k; [done |].
  destruct Hr as (data & -> & Hgrid & Hlen).
  simpl. rewrite (field_prop _ _ _ _ Hgrid) by done. simpl.
  rewrite bool_decide_eq_true_2 by done.
  rewrite (imap_ext _ (fun index r => ((S k + index)%nat, r)) responses)
    by (intros; simpl; f_equal; lia).
  rewrite IH. do 2 f_equal.
  apply imap_ext. intros. simpl. do 2 f_equal. lia.
Qed.


(** X14.  When every response carries a grid of 25 cells, the rows are the
    responses in order: row [i] has id [i], the received grid as its model
    and 25 empty cells for the child; no notice is shown and loading has
    ended. *)
Theorem ToTracNghiem_generateNew_accepts
    (responses : list remote) (grids : list (list jsval))
    (st : state) (g : rng) :
  Forall2 grid_response responses grids ->
  let st' := (generateNew (BatchResolved responses) st g).1 in
  patterns st' =
    imap (fun (i : nat) cells =>
            {| id := Z.of_nat i; model := cells; userGrid := replicate 25 0 |})
         grids /\
  dot_grids_ok st' /\
  error st' = None /\
  isLoading st' = false.
Proof.
  intros Hall st'. subst st'. unfold generateNew. cbv zeta.
  unfold mbind, Rand_bind.
  destruct (shuffleArray characters g) as [shuffled g'].
  unfold try_body.
  pose proof (read_patterns_accept (take 8 shuffled) _ _ Hall 0) as Hread.
  simpl in Hread. rewrite Hread. simpl.
  split; [done |]. split; [| done].
  unfold dot_grids_ok. simpl. apply Forall_lookup. intros i row Hi.
  rewrite list_lookup_imap in Hi.
  destruct (grids !! i); [| done]. injection Hi as <-. simpl.
  split; [done |]. repeat constructor.
Qed.


Lemma toggle_some (userGrid : list Z) (dotIndex : nat) :
  (dotIndex < length userGrid)%nat ->
  exists v, userGrid !! dotIndex = Some v /\
    toggle userGrid dotIndex
    = Some (<[dotIndex := if v =? 1 then 0 else 1]> userGrid).
Proof.
  intros Hlt. destruct (lookup_lt_is_Some_2 _ _ Hlt) as (v & Hv).
  exists v. split; [done |]. unfold toggle. by rewrite Hv.
Qed.

Lemma toggle_twice (userGrid newUserGrid : list Z) (dotIndex : nat) :
  Forall (fun v => v = 0 \/ v = 1) userGrid ->
  toggle userGrid dotIndex = Some newUserGrid ->
  toggle newUserGrid dotIndex = Some userGrid.
Proof.
  intros Hbits. unfold toggle.
  destruct (userGrid !! dotIndex) as [v |] eqn:Hv; [| done]. simpl.
  intros [= <-].
  rewrite list_lookup_insert_eq by (by eapply lookup_lt_Some). simpl.
  rewrite list_insert_insert_eq. f_equal.
  apply list_insert_id.
  rewrite Forall_lookup in Hbits. destruct (Hbits _ _ Hv) as [-> | ->]; done.
Qed.

Lemma flip_cell_step (rowId : Z) (dotIndex : nat) rows :
  Forall (fun row => (dotIndex < length (userGrid row))%nat) rows ->
  mapM (fun row =>
          if id row =? rowId then
            newUserGrid ← toggle (userGrid row) dotIndex;
            Some {| id := id row; model := model row;
                    userGrid := newUserGrid |}
          else Some row) rows
  = Some (flip_cell rowId dotIndex <$> rows).
Proof.
  induction 1 as [| row rows Hlt _ IH]; [done |].
  cbn [mapM]. rewrite IH. rewrite fmap_cons. unfold flip_cell at 2.
  destruct (id row =? rowId); [| done].
  destruct (toggle_some _ _ Hlt) as (v & Hv & ->). simpl. by rewrite Hv.
Qed.

Lemma flip_cell_twice (rowId : Z) (dotIndex : nat) row :
  Forall (fun v => v = 0 \/ v = 1) (userGrid row) ->
  flip_cell rowId dotIndex (flip_cell rowId dotIndex row) = row.
Proof.
  intros Hbits. destruct row as [i m u]. unfold flip_cell. simpl in *.
  destruct (i =? rowId) eqn:Hi; simpl; rewrite Hi; [| done]. f_equal.
  destruct (u !! dotIndex) as [v |] eqn:Hv.
  - rewrite list_lookup_insert_eq by (by eapply lookup_lt_Some). simpl.
    rewrite list_insert_insert_eq. apply list_insert_id.
    rewrite Forall_lookup in Hbits. rewrite Hv.
    destruct (Hbits _ _ Hv) as [-> | ->]; done.
  - apply lookup_ge_None in Hv.
    rewrite !list_insert_ge; [done | done |].
    by rewrite list_insert_ge.
Qed.

(** X16.  On a board of 25-cell grids of 0 and 1, a click on cell
    [dotIndex] of row [rowId] flips that cell and nothing else: rows with
    another id, and the ids and models of all rows, are as before; the
    board stays a board of 25-cell grids of 0 and 1; and the same click
    again gives back the board as it was. *)
Theorem handleDotClick_flips_one_cell
    (rowId : Z) (dotIndex : nat) (st : state) :
  dot_grids_ok st ->
  (dotIndex < 25)%nat ->
  exists st',
    handleDotClick rowId dotIndex st = Some st' /\
    dot_grids_ok st' /\
    handleDotClick rowId dotIndex st' = Some st /\
    length (patterns st') = length (patterns st) /\
    forall (n : nat) row, patterns st !! n = Some row ->
      exists row', patterns st' !! n = Some row' /\
        id row' = id row /\ model row' = model row /\
        forall (j : nat) v, userGrid row !! j = Some v ->
          userGrid row' !! j =
            Some (if bool_decide (id row = rowId /\ j = dotIndex)
                  then 1 - v else v).
Proof.
  destruct st as [rows loading err]. unfold dot_grids_ok. simpl.
  intros Hok Hlt.
  assert (Hok' : Forall (fun row =>
                   length (userGrid row) = 25%nat /\
                   Forall (fun v => v = 0 \/ v = 1) (userGrid row))
                 (flip_cell rowId dotIndex <$> rows)).
  { apply Forall_fmap. eapply Forall_impl; [exact Hok |].
    intros row (Hlen & Hbits). unfold flip_cell. simpl.
    destruct (id row =? rowId); [| done]. simpl.
    rewrite length_insert. split; [done |].
    apply Forall_insert; [done |].
    destruct (_ =? 1); auto. }
  assert (Hin : forall rows', Forall (fun row =>
                   length (userGrid row) = 25%nat /\
                   Forall (fun v => v = 0 \/ v = 1) (userGrid row)) rows' ->
                 Forall (fun row => (dotIndex < length (userGrid row))%nat)
                        rows').
  { intros rows' H. eapply Forall_impl; [exact H |].
    intros row (Hlen & _). lia. }
  exists {| patterns := flip_cell rowId dotIndex <$> rows;
            isLoading := loading; error := err |}.
  unfold handleDotClick. simpl.
  rewrite !flip_cell_step by auto. simpl.
  split; [done |]. split; [exact Hok' |]. split.
  { unfold setPatterns. simpl. do 2 f_equal.
    rewrite <- list_fmap_compose. rewrite <- (list_fmap_id rows) at 2.
    apply Forall_fmap_ext. eapply Forall_impl; [exact Hok |].
    intros row (_ & Hbits). by apply flip_cell_twice. }
  split; [by rewrite length_fmap |].
  intros n row Hn. exists (flip_cell rowId dotIndex row).
  rewrite list_lookup_fmap, Hn. split; [done |].
  rewrite Forall_lookup in Hok. destruct (Hok _ _ Hn) as (Hlen & Hbits).
  unfold flip_cell.
  destruct (Z.eqb_spec (id row) rowId) as [Hid | Hid]; simpl.
  - split; [done |]. split; [done |]. intros j v Hj.
    destruct (decide (j = dotIndex)) as [-> | Hne].
    + rewrite bool_decide_eq_true_2 by done.
      rewrite list_lookup_insert_eq by lia. rewrite Hj. simpl.
      rewrite Forall_lookup in Hbits.
      destruct (Hbits _ _ Hj) as [-> | ->]; done.
    + rewrite bool_decide_eq_false_2 by (intros (_ & ?); done).
      by rewrite list_lookup_insert_ne.
  - split; [done |]. split; [done |]. intros j v Hj.
    by rewrite bool_decide_eq_false_2 by (intros (? & _); done).
Qed.

Lemma handleDotClick_flips_one_cell_witness :
  let st :=
    {| patterns := [ {| id := 0; model := []; userGrid := replicate 25 0 |} ];
       isLoading := false; error := None |} in
  exists st', handleDotClick 0 3 st = Some st' /\
              handleDotClick 0 3 st' = Some st.
Proof.
  intros st.
  destruct (handleDotClick_flips_one_cell 0 3 st) as (st' & H1 & _ & H2 & _).
  - repeat constructor.
  - lia.
  - exists st'. split; [exact H1 | exact H2].
Defined.

End DotGridFacts.

Section DotGridRuns.
Import Js ToTracNghiem.
#[local] Existing Instance plain_engine.

Lemma ToTracNghiem_generateNew_accepts_witness :
  let r := Parsed (JObj [("grid", JArr (replicate 25 (JNum 1)))]) in
  let st := {| patterns := []; isLoading := true; error := None |} in
  length (patterns (generateNew (BatchResolved [r; r]) st (cycle [1 # 3])).1)
    = 2%nat.
Proof.
  intros r st.
  destruct (ToTracNghiem_generateNew_accepts
              [r; r] [replicate 25 (JNum 1); replicate 25 (JNum 1)] st
              (cycle [1 # 3])) as (H & _).
  { repeat constructor; exists (JObj [("grid", JArr (replicate 25 (JNum 1)))]);
      done. }
  rewrite H. reflexivity.
Defined.


End DotGridRuns.

(** ** The number maze, layout and bounds *)

Section MazeLayoutFacts.
Import MeCung.

Lemma walk_layout len rest :
  forall i currentValue prevNode newNodes newConnections g,
  fair g -> 0 <= currentValue ->
  let m := (walk len i rest currentValue prevNode newNodes newConnections g).1 in
  exists ns,
    nodes m = newNodes ++ ns /\
    pos <$> ns = rest /\
    id <$> ns = Z.of_nat <$> seq i (length rest) /\
    isInput <$> ns =
      (fun j => negb (bool_decide (j = (len - 1)%nat)))
        <$> seq i (length rest) /\
    forall (j : nat) a b,
      (currentValue :: (value <$> ns)) !! j = Some a ->
      (value <$> ns) !! j = Some b ->
      Z.abs (b - a) <= 9.
Proof.
  induction rest as [| p rest IH];
    intros i cv prev nodesAcc connsAcc g Hg Hcv m.
  - exists []. subst m. simpl. rewrite app_nil_r. repeat split; done.
  - subst m. rewrite walk_cons.
    destruct (ensures_coin (fun _ => True) (fun _ => I) g Hg) as [_ Hg1].
    destruct (coin g) as [add g1]. simpl in Hg1.
    destruct (ensures_getRandomInt 1 9 ltac:(lia) g1 Hg1) as [Hamount Hg2].
    destruct (getRandomInt 1 9 g1) as [amount g2]. simpl in Hamount, Hg2.
    cbv zeta.
    set (cv' := if add then cv + amount else Z.max 0 (cv - amount)).
    assert (Hcv' : 0 <= cv') by (unfold cv'; destruct add; lia).
    set (node := {| id := Z.of_nat i; value := cv';
                    isInput := negb (bool_decide (i = (len - 1)%nat));
                    pos := p |}).
    set (conn := {| from := prev; to := node;
                    op := (if add then "+" else "-")%string +:+ pretty amount |}).
    destruct (IH (S i) cv' node (nodesAcc ++ [node]) (connsAcc ++ [conn])
                 g2 Hg2 Hcv') as (ns & Hn & Hpos & Hid & Hin & Hstep).
    exists (node :: ns). rewrite Hn, <- app_assoc. simpl.
    split; [done |]. split; [by f_equal |]. split; [by f_equal |].
    split; [by f_equal |].
    intros [| j] a b; simpl.
    + intros [= <-] [= <-]. unfold cv'. destruct add; lia.
    + apply Hstep.
Qed.

Lemma content_bounds_of_layout (ns : list MazeNode) :
  content_bounds ns =
    if (0 <? length ns)%nat then
      fold_left (fun '(maxX, maxY) p =>
                   (Z.max maxX (p.1 + NODE_WIDTH),
                    Z.max maxY (p.2 + NODE_HEIGHT)))
                (pos <$> ns) (0, 0)
    else (0, 0).
Proof.
  unfold content_bounds. destruct (0 <? length ns)%nat; [| done].
  generalize (0, 0). induction ns as [| n ns IH]; intros acc; [done |].
  simpl. rewrite IH. by destruct acc.
Qed.

(** X17.  A generated maze follows one of the two fixed layouts, the one of
    26 cells when the first draw exceeds one half and the one of 10 cells
    otherwise: cell [i] has id [i] and the [i]-th position of the layout;
    the first and the last cell show their numbers and every cell between
    them is an input; the first number lies between 5 and 15 and
    neighbouring numbers differ by at most 9. *)
Theorem generateMaze_follows_layout (g : rng) :
  fair g ->
  let layout :=
    if Qlt_le_dec (1 # 2) (g 0%nat) then complexMazeLayout
    else simpleMazeLayout in
  exists m,
    (generateMaze g).1 = Some m /\
    pos <$> nodes m = layout /\
    id <$> nodes m = Z.of_nat <$> seq 0 (length layout) /\
    isInput <$> nodes m =
      false :: replicate (length layout - 2) true ++ [false] /\
    (exists first, head (nodes m) = Some first /\ 5 <= value first <= 15) /\
    forall (j : nat) a b,
      (value <$> nodes m) !! j = Some a ->
      (value <$> nodes m) !! S j = Some b ->
      Z.abs (b - a) <= 9.
Proof.
  intros Hg layout. unfold generateMaze.
  unfold mbind at 1, Rand_bind.
  destruct (ensures_coin (fun _ => True) (fun _ => I) g Hg) as [_ Hg1].
  assert (Hcoin : (coin g).1
                  = if Qlt_le_dec (1 # 2) (g 0%nat) then true else false).
  { unfold coin, random, mbind, Rand_bind, mret, Rand_ret. simpl.
    destruct (Qlt_le_dec (1 # 2) (g 0%nat)) as [Hlt | Hle].
    - apply Qgt_alt in Hlt. by rewrite Hlt.
    - destruct (g 0%nat ?= 1 # 2)%Q eqn:Hc; [done | done |].
      apply Qgt_alt in Hc. exfalso.
      exact (Qlt_irrefl _ (Qlt_le_trans _ _ _ Hc Hle)). }
  destruct (coin g) as [complex g1]. simpl in Hg1, Hcoin.
  unfold mbind at 1, Rand_bind.
  destruct (ensures_getRandomInt 5 15 ltac:(lia) g1 Hg1) as [Hstart Hg2].
  destruct (getRandomInt 5 15 g1) as [start g2]. simpl in Hstart, Hg2.
  assert (Hs : 0 <= start) by lia.
  subst layout.
  destruct complex; destruct (Qlt_le_dec (1 # 2) (g 0%nat));
    try discriminate Hcoin; clear Hcoin.
  - set (first := {| id := 0; value := start; isInput := false;
                     pos := (20, 20) |}).
    pose proof (walk_layout (length complexMazeLayout) (tail complexMazeLayout)
                  1 start first [first] [] g2 Hg2 Hs) as Hw.
    cbv zeta in Hw. destruct Hw as (ns & Hn & Hpos & Hid & Hin & Hstep).
    exists (walk (length complexMazeLayout) 1 (tail complexMazeLayout)
                 start first [first] [] g2).1.
    split.
    { unfold complexMazeLayout at 1. unfold mbind, Rand_bind.
      by destruct (walk _ _ _ _ _ _ _ g2). }
    rewrite Hn. change ([first] ++ ns) with (first :: ns).
    rewrite !fmap_cons, Hpos, Hid, Hin.
    split; [reflexivity |]. split; [reflexivity |]. split; [reflexivity |].
    split; [exists first; split; [reflexivity | exact Hstart] |]. exact Hstep.
  - set (first := {| id := 0; value := start; isInput := false;
                     pos := (170, 20) |}).
    pose proof (walk_layout (length simpleMazeLayout) (tail simpleMazeLayout)
                  1 start first [first] [] g2 Hg2 Hs) as Hw.
    cbv zeta in Hw. destruct Hw as (ns & Hn & Hpos & Hid & Hin & Hstep).
    exists (walk (length simpleMazeLayout) 1 (tail simpleMazeLayout)
                 start first [first] [] g2).1.
    split.
    { unfold simpleMazeLayout at 1. unfold mbind, Rand_bind.
      by destruct (walk _ _ _ _ _ _ _ g2). }
    rewrite Hn. change ([first] ++ ns) with (first :: ns).
    rewrite !fmap_cons, Hpos, Hid, Hin.
    split; [reflexivity |]. split; [reflexivity |]. split; [reflexivity |].
    split; [exists first; split; [reflexivity | exact Hstart] |]. exact Hstep.
Qed.

Lemma generateMaze_follows_layout_witness :
  exists m,
    (generateMaze (cycle [3 # 10; 1 # 4; 9 # 10; 2 # 5; 4 # 5; 1 # 9])).1
      = Some m /\
    length (nodes m) = 10%nat.
Proof.
  destruct (generateMaze_follows_layout
              (cycle [3 # 10; 1 # 4; 9 # 10; 2 # 5; 4 # 5; 1 # 9]))
    as (m & Hm & Hpos & _).
  { apply fair_cycle; [discriminate |].
    repeat constructor; vm_compute; congruence. }
  exists m. split; [exact Hm |].
  rewrite <- (length_fmap pos), Hpos. reflexivity.
Defined.

Lemma bounds_fold_covers (ns : list MazeNode) : forall acc,
  let out :=
    fold_left (fun '(maxX, maxY) node =>
                 (Z.max maxX ((pos node).1 + NODE_WIDTH),
                  Z.max maxY ((pos node).2 + NODE_HEIGHT))) ns acc in
  acc.1 <= out.1 /\ acc.2 <= out.2 /\
  forall n, n ∈ ns ->
    (pos n).1 + NODE_WIDTH <= out.1 /\ (pos n).2 + NODE_HEIGHT <= out.2.
Proof.
  induction ns as [| n0 ns IH]; intros [x y]; simpl.
  - split; [lia |]. split; [lia |]. intros n Hn. by apply elem_of_nil in Hn.
  - destruct (IH (Z.max x ((pos n0).1 + NODE_WIDTH),
                  Z.max y ((pos n0).2 + NODE_HEIGHT)))
      as (Hx & Hy & Hall). simpl in Hx, Hy.
    split; [lia |]. split; [lia |].
    intros n Hn. apply elem_of_cons in Hn as [-> | Hn]; [lia | by apply Hall].
Qed.

(** X18.  The size the maze exporter computes for the page content covers
    the 60 by 60 box of every cell on screen; and it is written into the
    clone whenever there is a cell whose box reaches into the positive
    quadrant. *)
Theorem content_bounds_cover_cells (ns : list MazeNode) (n : MazeNode) :
  n ∈ ns ->
  let '(computedWidth, computedHeight) := content_bounds ns in
  (pos n).1 + NODE_WIDTH <= computedWidth /\
  (pos n).2 + NODE_HEIGHT <= computedHeight /\
  (0 < (pos n).1 + NODE_WIDTH -> 0 < (pos n).2 + NODE_HEIGHT ->
   clone_size ns = Some (computedWidth, computedHeight)).
Proof.
  intros Hn. unfold clone_size.
  assert (Hlen : (0 <? length ns)%nat = true).
  { apply Nat.ltb_lt. destruct ns; [by apply elem_of_nil in Hn | simpl; lia]. }
  unfold content_bounds. rewrite Hlen.
  destruct (bounds_fold_covers ns (0, 0)) as (_ & _ & Hall).
  destruct (Hall n Hn) as [Hx Hy].
  destruct (fold_left _ ns (0, 0)) as [w h]. simpl in Hx, Hy.
  split; [exact Hx |]. split; [exact Hy |]. intros Hpx Hpy.
  destruct (Z.gtb_spec w 0); [| lia]. destruct (Z.gtb_spec h 0); [| lia]. done.
Qed.

Lemma content_bounds_cover_cells_witness :
  clone_size [ {| id := 0; value := 7; isInput := false; pos := (170, 20) |};
               {| id := 1; value := 9; isInput := false; pos := (320, 620) |} ]
    = Some (380, 680).
Proof.
  pose proof (content_bounds_cover_cells
    [ {| id := 0; value := 7; isInput := false; pos := (170, 20) |};
      {| id := 1; value := 9; isInput := false; pos := (320, 620) |} ]
    {| id := 0; value := 7; isInput := false; pos := (170, 20) |}
    ltac:(by left)) as H.
  simpl in H. destruct H as (_ & _ & H).
  apply H; reflexivity.
Defined.
End MazeLayoutFacts.

(** ** The stick-figure legend *)

Section FigureFacts.
Import DienKiTu.

Lemma lookups_of_indices {A B C} (f : B -> option A -> C) (h : C -> option A)
    (xs : list B) (ys : list A) :
  (forall b o, h (f b o) = o) ->
  length xs = length ys ->
  h <$> imap (fun i b => f b (ys !! i)) xs = Some <$> ys.
Proof.
  intros Hh Hlen. apply list_eq. intros i.
  rewrite !list_lookup_fmap, list_lookup_imap.
  destruct (xs !! i) as [b |] eqn:Hb; simpl.
  - rewrite Hh. destruct (ys !! i) eqn:Hy; [done |].
    apply lookup_lt_Some in Hb. apply lookup_ge_None in Hy. lia.
  - apply lookup_ge_None in Hb.
    rewrite (proj2 (lookup_ge_None ys i)) by lia. done.
Qed.

Lemma ensures_DienKiTu_generateNew :
  ensures generateNew (fun st =>
    length (legend st) = 5%nat /\
    NoDup (poseIndex <$> legend st) /\
    Forall (fun p => 0 <= p < 15) (poseIndex <$> legend st) /\
    symbolIndex <$> legend st ≡ₚ Some <$> [0; 1; 2; 3; 4] /\
    Forall2 (fun i p => id p = Z.of_nat i /\ 0 <= p_poseIndex p < 15)
            (seq 0 20) (problems st) /\
    userAnswers st = ∅).
Proof.
  unfold generateNew. cbv zeta.
  eapply ensures_bind; [apply ensures_shuffleArray |].
  intros shuffledPoses Hposes.
  eapply ensures_bind; [apply ensures_shuffleArray |].
  intros symbolIndices Hsymbols.
  eapply ensures_bind.
  { apply (ensures_array_from _
             (fun i p => id p = Z.of_nat i /\ 0 <= p_poseIndex p < 15)).
    intros i _.
    eapply ensures_bind;
      [apply ensures_getRandomInt; unfold poses_length; lia |].
    intros p Hp. apply ensures_ret. unfold poses_length in Hp. simpl.
    split; [done | lia]. }
  intros newProblems Hproblems. apply ensures_ret. simpl.
  assert (Hlen : length shuffledPoses = 15%nat)
    by (by rewrite (Permutation_length Hposes)).
  assert (Hslen : length symbolIndices = 5%nat)
    by (by rewrite (Permutation_length Hsymbols)).
  assert (Hfive : length (take 5 shuffledPoses) = 5%nat)
    by (rewrite length_take; lia).
  assert (Hpose : poseIndex <$>
            imap (fun i p => {| poseIndex := p;
                                symbolIndex := symbolIndices !! i |})
                 (take 5 shuffledPoses) = take 5 shuffledPoses).
  { apply list_eq. intros i. rewrite list_lookup_fmap, list_lookup_imap.
    by destruct (take 5 shuffledPoses !! i). }
  rewrite Hpose.
  split; [by rewrite length_imap |].
  assert (Hnodup : NoDup shuffledPoses).
  { rewrite Hposes. apply NoDup_fmap_2; [apply _ | apply NoDup_seq]. }
  assert (Hrange : Forall (fun p => 0 <= p < 15) shuffledPoses).
  { rewrite Hposes. apply Forall_fmap, Forall_seq.
    intros i Hi. unfold poses_length in Hi. simpl. lia. }
  split.
  { rewrite <- (take_drop 5 shuffledPoses) in Hnodup.
    by apply NoDup_app in Hnodup as (? & _). }
  split; [by apply Forall_take |].
  split; [| done].
  rewrite (lookups_of_indices
             (fun p o => {| poseIndex := p; symbolIndex := o |}) symbolIndex)
    by (done || lia).
  by rewrite Hsymbols.
Qed.

(** X19.  A new stick-figure sheet has a legend of five different poses
    out of the fifteen, carrying the five symbols once each, and twenty
    problems numbered from 0 whose poses are drawn from all fifteen poses,
    the legend playing no part in the draw; earlier answers are gone. *)
Theorem DienKiTu_generateNew_sheet (g : rng) :
  fair g ->
  let st := (generateNew g).1 in
  length (legend st) = 5%nat /\
  NoDup (poseIndex <$> legend st) /\
  Forall (fun p => 0 <= p < 15) (poseIndex <$> legend st) /\
  symbolIndex <$> legend st ≡ₚ Some <$> [0; 1; 2; 3; 4] /\
  Forall2 (fun i p => id p = Z.of_nat i /\ 0 <= p_poseIndex p < 15)
          (seq 0 20) (problems st) /\
  userAnswers st = ∅.
Proof.
  intros Hg. exact (proj1 (ensures_DienKiTu_generateNew g Hg)).
Qed.

Lemma DienKiTu_generateNew_sheet_witness :
  length (legend (generateNew (cycle [7 # 10; 1 # 5; 3 # 5])).1) = 5%nat.
Proof.
  apply DienKiTu_generateNew_sheet.
  apply fair_cycle; [discriminate |].
  repeat constructor; vm_compute; congruence.
Defined.
End FigureFacts.

(** ** The emoji legend *)

Section EmojiFacts.
Import Js DienKiTuAI.
Context {engine : Engine}.

Lemma invalid_arrays (fields : list (string * jsval))
    (emojis : list jsval) (grid : jsval) (n : nat) :
  assoc "legendEmojis" fields = Some (JArr emojis) ->
  assoc "problemEmojis" fields = Some grid ->
  truthy grid = true ->
  get grid "length" = Some (JNum (Z.of_nat n)) ->
  (5 <= length emojis)%nat -> (20 <= n)%nat ->
  invalid (JObj fields) = Done false.
Proof.
  intros Hl Hp Htruthy Hn H5 H20. unfold invalid, orA, prop. simpl.
  rewrite Hl, Hp. simpl. rewrite Htruthy, Hn. simpl.
  destruct (Z.ltb_spec (Z.of_nat (length emojis)) 5); [lia |]. simpl.
  destruct (Z.ltb_spec (Z.of_nat n) 20); [lia |]. done.
Qed.

Lemma emoji_legend_symbols (emojis : list jsval) (shuffled : list string) :
  shuffled ≡ₚ SYMBOLS ->
  (5 <= length emojis)%nat ->
  let newLegend :=
    imap (fun index e => {| emoji := e; symbol := shuffled !! index |})
         emojis in
  emoji <$> newLegend = emojis /\
  symbol <$> take 5 newLegend ≡ₚ Some <$> SYMBOLS /\
  Forall (fun item => symbol item = None) (drop 5 newLegend).
Proof.
  intros Hperm H5 newLegend. subst newLegend.
  assert (Hlen : length shuffled = 5%nat)
    by (by rewrite (Permutation_length Hperm)).
  split.
  { apply list_eq. intros i. rewrite list_lookup_fmap, list_lookup_imap.
    by destruct (emojis !! i). }
  split.
  - rewrite <- Hperm.
    assert (Hshape : symbol <$>
              take 5 (imap (fun index e =>
                              {| emoji := e; symbol := shuffled !! index |})
                           emojis) = Some <$> shuffled);
      [| by rewrite Hshape].
    apply list_eq. intros i.
    rewrite !list_lookup_fmap.
    destruct (decide (i < 5)%nat) as [Hi | Hi].
    + rewrite lookup_take_lt by done. rewrite list_lookup_imap.
      destruct (lookup_lt_is_Some_2 emojis i ltac:(lia)) as (e & ->).
      destruct (lookup_lt_is_Some_2 shuffled i ltac:(lia)) as (s & ->).
      done.
    + rewrite lookup_take_ge by lia.
      rewrite (proj2 (lookup_ge_None shuffled i)) by lia. done.
  - apply Forall_lookup. intros i item Hi.
    rewrite lookup_drop, list_lookup_imap in Hi.
    destruct (emojis !! (5 + i)%nat); [| done]. injection Hi as <-. simpl.
    apply lookup_ge_None. lia.
Qed.

(** X20.  With a theme that is not blank, a response with at least five
    legend emojis and at least twenty problem emojis, both arrays, is taken
    whole, whatever their lengths:
    the legend lists the emojis as sent; its first five entries carry the
    five symbols once each and every entry after the fifth carries no
    symbol; the problems are the emojis sent, numbered from 0; earlier
    answers are gone and no notice is shown. *)
Theorem DienKiTuAI_generateGame_accepts
    (fields : list (string * jsval)) (emojis grid : list jsval)
    (st : state) (g : rng) :
  is_blank (theme st) = false ->
  assoc "legendEmojis" fields = Some (JArr emojis) ->
  assoc "problemEmojis" fields = Some (JArr grid) ->
  (5 <= length emojis)%nat ->
  (20 <= length grid)%nat ->
  let st' := (generateGame (Parsed (JObj fields)) st g).1 in
  emoji <$> legend st' = emojis /\
  symbol <$> take 5 (legend st') ≡ₚ Some <$> SYMBOLS /\
  Forall (fun item => symbol item = None) (drop 5 (legend st')) /\
  problems st' = imap (fun i e => {| id := Z.of_nat i; p_emoji := e |}) grid /\
  userAnswers st' = ∅ /\
  error st' = None /\
  isLoading st' = false.
Proof.
  intros Hth Hl Hp H5 H20 st'. subst st'.
  unfold generateGame. rewrite Hth. cbv zeta.
  unfold try_body.
  rewrite (invalid_arrays fields emojis (JArr grid) (length grid))
    by done.
  simpl. rewrite Hl, Hp. simpl.
  unfold mbind, Rand_bind.
  pose proof (shuffleArray_perm SYMBOLS g) as Hperm.
  destruct (shuffleArray SYMBOLS g) as [shuffled g']. simpl in Hperm. simpl.
  destruct (emoji_legend_symbols emojis shuffled Hperm H5) as (He & Hs & Hn).
  done.
Qed.



(** Ten emojis outside the basic plane are twenty code units and pass the
    check of the length; nineteen letters do not. *)
Example DienKiTuAI_text_in_code_units :
  invalid (JObj [("legendEmojis", JArr (replicate 5 (JStr "a")));
                 ("problemEmojis", JStr "😀😀😀😀😀😀😀😀😀😀")])
    = Done false /\
  invalid (JObj [("legendEmojis", JArr (replicate 5 (JStr "a")));
                 ("problemEmojis", JStr "aaaaaaaaaaaaaaaaaaa")])
    = Done true.
Proof. by vm_compute. Qed.


End EmojiFacts.

Section EmojiRuns.
Import Js DienKiTuAI.
#[local] Existing Instance plain_engine.

Lemma DienKiTuAI_generateGame_accepts_witness :
  let fields :=
    [("legendEmojis", JArr (replicate 6 (JStr "a")));
     ("problemEmojis", JArr (replicate 20 (JStr "a")))] in
  let st := {| theme := "xe"; isLoading := false; error := None;
               legend := []; problems := []; userAnswers := ∅ |} in
  length (legend (generateGame (Parsed (JObj fields)) st
                               (cycle [1 # 3])).1) = 6%nat.
Proof.
  intros fields st.
  destruct (DienKiTuAI_generateGame_accepts
              fields (replicate 6 (JStr "a")) (replicate 20 (JStr "a")) st
              (cycle [1 # 3]) eq_refl eq_refl eq_refl
              ltac:(simpl; lia) ltac:(simpl; lia)) as (He & _).
  rewrite <- (length_fmap emoji), He. reflexivity.
Defined.

End EmojiRuns.

(** ** Colouring the pieces *)

Section ColourFacts.
Import ToMauManhGhep.

Lemma ensures_ToMauManhGhep_generateNew :
  ensures generateNew (fun o =>
    exists st, o = Some st /\
      currentTemplate st ∈ puzzleTemplates /\
      referenceColors st ≡ₚ colors (currentTemplate st) /\
      length (referenceColors st) = length (pieces (currentTemplate st)) /\
      Forall2 (fun i p =>
                 id p = Z.of_nat i /\
                 palette p ≡ₚ colors (currentTemplate st) /\
                 pieceColors p =
                   replicate (length (pieces (currentTemplate st)))
                             (Some "white"))
              (seq 0 4) (puzzles st) /\
      selectedColor st = None).
Proof.
  unfold generateNew.
  eapply ensures_bind; [apply ensures_random |].
  intros r [H0 H1]. cbv zeta.
  pose proof (floor_scaled_range r 2 H0 H1 ltac:(lia)) as Hindex.
  change (inject_Z (Z.of_nat (length puzzleTemplates))) with (inject_Z 2).
  assert (Htemplate : exists template,
            MaHoaLocal.at_index puzzleTemplates (Qfloor (r * inject_Z 2))
              = Some template /\
            template ∈ puzzleTemplates /\
            length (colors template) = length (pieces template)).
  { assert (Hc : Qfloor (r * inject_Z 2) = 0 \/ Qfloor (r * inject_Z 2) = 1)
      by lia.
    destruct Hc as [-> | ->]; eexists; (split; [reflexivity |]);
      (split; [| reflexivity]).
    - by left.
    - right. by left. }
  destruct Htemplate as (template & -> & Hin & Hsame).
  eapply ensures_bind; [apply ensures_shuffleArray |].
  intros shuffledColors Hshuffled.
  eapply ensures_bind.
  { apply (ensures_array_from _
             (fun i p =>
                id p = Z.of_nat i /\
                palette p ≡ₚ colors template /\
                pieceColors p =
                  replicate (length (pieces template)) (Some "white"))).
    intros i _.
    eapply ensures_bind; [apply ensures_shuffleArray |].
    intros pal Hpal. apply ensures_ret. simpl.
    split; [done |]. split; [by rewrite Hpal | done]. }
  intros newPuzzles Hpuzzles. apply ensures_ret.
  eexists. split; [reflexivity |]. simpl.
  split; [done |]. split; [done |].
  split; [by rewrite (Permutation_length Hshuffled) |]. done.
Qed.

(** X22.  A new colouring sheet uses one of the two templates; the
    reference shows the template's colours in some order, one for each
    piece; each of the four puzzles, numbered from 0, offers the same
    colours in an order of its own and starts with every piece white; no
    colour is selected. *)
Theorem ToMauManhGhep_generateNew_sheet (g : rng) :
  fair g ->
  exists st,
    (generateNew g).1 = Some st /\
    currentTemplate st ∈ puzzleTemplates /\
    referenceColors st ≡ₚ colors (currentTemplate st) /\
    length (referenceColors st) = length (pieces (currentTemplate st)) /\
    Forall2 (fun i p =>
               id p = Z.of_nat i /\
               palette p ≡ₚ colors (currentTemplate st) /\
               pieceColors p =
                 replicate (length (pieces (currentTemplate st)))
                           (Some "white"))
            (seq 0 4) (puzzles st) /\
    selectedColor st = None.
Proof.
  intros Hg. exact (proj1 (ensures_ToMauManhGhep_generateNew g Hg)).
Qed.

Lemma ToMauManhGhep_generateNew_sheet_witness :
  exists st, (generateNew (cycle [7 # 10; 1 # 5; 3 # 5])).1 = Some st /\
             selectedColor st = None.
Proof.
  destruct (ToMauManhGhep_generateNew_sheet (cycle [7 # 10; 1 # 5; 3 # 5]))
    as (st & Hst & _ & _ & _ & _ & Hsel).
  { apply fair_cycle; [discriminate |].
    repeat constructor; vm_compute; congruence. }
  exists st. split; [exact Hst | exact Hsel].
Defined.

Lemma fill_of_assign (pieceColors : list (option string))
    (pieceIndex index : nat) (color : string) :
  color <> "" ->
  fill_of (Arrays.assign pieceColors pieceIndex color) index =
    if bool_decide (index = pieceIndex) then color
    else fill_of pieceColors index.
Proof.
  intros Hcolor. unfold fill_of, Arrays.assign.
  case_bool_decide as Hin.
  - case_bool_decide as Hi.
    + subst. rewrite list_lookup_insert_eq by done.
      by rewrite bool_decide_eq_false_2.
    + by rewrite list_lookup_insert_ne.
  - case_bool_decide as Hi.
    + subst. rewrite lookup_app_r by lia.
      rewrite lookup_app_r by (rewrite length_replicate; lia).
      rewrite length_replicate, Nat.sub_diag. simpl.
      by rewrite bool_decide_eq_false_2.
    + destruct (decide (index < length pieceColors)%nat) as [Hlt | Hge].
      * by rewrite lookup_app_l.
      * rewrite lookup_app_r by lia.
        rewrite (proj2 (lookup_ge_None pieceColors index)) by lia.
        destruct (decide (index < pieceIndex)%nat) as [Hlt | Hpast].
        -- rewrite lookup_app_l by (rewrite length_replicate; lia).
           rewrite lookup_replicate_2 by lia. done.
        -- rewrite lookup_app_r by (rewrite length_replicate; lia).
           rewrite length_replicate.
           destruct (index - length pieceColors
                     - (pieceIndex - length pieceColors))%nat eqn:Hd;
             [lia | done].
Qed.

(** X23.  With a colour selected, a click on piece [pieceIndex] of puzzle
    [puzzleId] changes what is drawn in one place only: that piece of that
    puzzle takes the selected colour, and every other piece of every puzzle
    is drawn as before; ids and palettes, the template, the reference and
    the selection stay.  With no colour selected the click changes
    nothing. *)
Theorem handlePieceClick_paints_one_piece
    (puzzleId : Z) (pieceIndex : nat) (st : state) :
  let st' := handlePieceClick puzzleId pieceIndex st in
  currentTemplate st' = currentTemplate st /\
  referenceColors st' = referenceColors st /\
  selectedColor st' = selectedColor st /\
  (selectedColor st = None -> st' = st) /\
  forall color, selectedColor st = Some color -> color <> "" ->
    length (puzzles st') = length (puzzles st) /\
    forall (n : nat) p, puzzles st !! n = Some p ->
      exists p', puzzles st' !! n = Some p' /\
        id p' = id p /\ palette p' = palette p /\
        forall index,
          fill_of (pieceColors p') index =
            if bool_decide (id p = puzzleId /\ index = pieceIndex)
            then color else fill_of (pieceColors p) index.
Proof.
  intros st'. subst st'. unfold handlePieceClick.
  destruct (selectedColor st) as [color |] eqn:Hsel; [| done].
  case_bool_decide as Hempty.
  { do 4 (split; [done |]). intros c [= <-] Hc. done. }
  simpl. do 4 (split; [done |]). intros c [= <-] _.
  split; [by rewrite length_fmap |].
  intros n p Hn. rewrite list_lookup_fmap, Hn. simpl.
  eexists. split; [reflexivity |].
  destruct (Z.eqb_spec (id p) puzzleId) as [Hid | Hid]; simpl.
  - split; [done |]. split; [done |]. intros index.
    rewrite fill_of_assign by done.
    destruct (decide (index = pieceIndex)) as [-> | Hne].
    + by rewrite !bool_decide_eq_true_2.
    + rewrite !bool_decide_eq_false_2; [done | | done]. by intros (_ & ?).
  - split; [done |]. split; [done |]. intros index.
    rewrite bool_decide_eq_false_2; [done |]. by intros (? & _).
Qed.
End ColourFacts.

Section ColourWitness.
Import ToMauManhGhep.

Lemma handlePieceClick_paints_one_piece_witness :
  let st :=
    {| currentTemplate :=
         {| t_id := "square-shape"; pieces := ["SquarePiece1"];
            colors := ["#e67e22"]; viewBox := "-2 -2 104 104" |};
       referenceColors := ["#e67e22"];
       puzzles := [ {| id := 0; palette := ["#e67e22"];
                       pieceColors := [Some "white"] |} ];
       selectedColor := Some "#e67e22" |} in
  exists p', puzzles (handlePieceClick 0 0 st) !! 0%nat = Some p' /\
             fill_of (pieceColors p') 0 = "#e67e22".
Proof.
  intros st.
  destruct (handlePieceClick_paints_one_piece 0 0 st) as (_ & _ & _ & _ & H).
  destruct (H "#e67e22" eq_refl ltac:(done)) as (_ & Hp).
  destruct (Hp 0%nat _ eq_refl) as (p' & Hp' & _ & _ & Hfill).
  exists p'. split; [exact Hp' |]. exact (Hfill 0%nat).
Defined.
End ColourWitness.

(** ** What the exporters do to the duplicate *)

Section CloneFacts.
Import Exporter.

Lemma node_induction (P : node -> Prop) :
  (forall tag classes value sw children,
     Forall P children -> P (Element tag classes value sw children)) ->
  forall n, P n.
Proof.
  intros H. fix IH 1. intros [tag classes value sw children].
  apply H. induction children as [| c cs IHcs]; constructor;
    [apply IH | exact IHcs].
Qed.

Lemma clear_inputs_blanks (n : node) :
  input_values (clear_inputs n) = replicate (length (input_values n)) "".
Proof.
  induction n as [tag classes value sw children IH] using node_induction.
  simpl. rewrite length_app, replicate_add. f_equal.
  - by destruct (decide (tag = "input")).
  - induction IH as [| c cs Hc _ IHcs]; [done |].
    simpl. rewrite length_app, replicate_add. by rewrite Hc, IHcs.
Qed.

Lemma clear_inputs_idemp (n : node) :
  clear_inputs (clear_inputs n) = clear_inputs n.
Proof.
  induction n as [tag classes value sw children IH] using node_induction.
  simpl. f_equal.
  - by destruct (decide (tag = "input")).
  - induction IH as [| c cs Hc _ IHcs]; [done |].
    simpl. by rewrite Hc, IHcs.
Qed.

(** X24.  After the sum game's exporter has cleared the inputs of the
    duplicate, the duplicate has as many inputs below its root as the game
    on screen, all of them empty; nothing but the values of inputs differs
    from the original, the root keeps its own value, and clearing a second
    time changes nothing. *)
Theorem clear_descendant_inputs_blanks_answers (n : node) :
  let clone := clear_descendant_inputs n in
  descendant_inputs clone = replicate (length (descendant_inputs n)) "" /\
  clear_inputs clone = clear_inputs n /\
  root_value clone = root_value n /\
  clear_descendant_inputs clone = clone.
Proof.
  destruct n as [tag classes value sw children]. simpl.
  split.
  { induction children as [| c cs IH]; [done |].
    simpl. rewrite length_app, replicate_add.
    by rewrite clear_inputs_blanks, IH. }
  split.
  { f_equal. induction children as [| c cs IH]; [done |].
    simpl. by rewrite clear_inputs_idemp, IH. }
  split; [done |].
  f_equal. induction children as [| c cs IH]; [done |].
  simpl. by rewrite clear_inputs_idemp, IH.
Qed.





End CloneFacts.

(** ** The single-file games: checking the answers *)

Section NumeralFacts.
Import Legacy.

Lemma digit_value_char (d : N) :
  (d < 10)%N -> MeCung.digit_value (pretty_N_char d) = Some (Z.of_N d).
Proof.
  intros Hd.
  assert (Hc : (d = 0 \/ d = 1 \/ d = 2 \/ d = 3 \/ d = 4 \/ d = 5 \/ d = 6 \/
                d = 7 \/ d = 8 \/ d = 9)%N) by lia.
  repeat (destruct Hc as [-> | Hc]; [reflexivity |]). by subst.
Qed.

Lemma is_digit_char (d : N) : Input.is_digit (pretty_N_char d) = true.
Proof. unfold pretty_N_char. by repeat case_match. Qed.

Lemma digits_prefix_numeral (x : N) :
  (0 < x)%N ->
  exists k, 0 <= k /\ forall acc s,
    digits_prefix acc (pretty_N_go x s)
    = digits_prefix (Some (default 0 acc * 10 ^ k + Z.of_N x)) s.
Proof.
  induction (N.lt_wf_0 x) as [x _ IH]. intros Hx.
  destruct (decide (x `div` 10 = 0)%N) as [Hsmall | Hbig].
  - exists 1. split; [lia |]. intros acc s.
    rewrite pretty_N_go_step by done. rewrite Hsmall, pretty_N_go_0.
    cbn [digits_prefix].
    rewrite digit_value_char by (by apply N.mod_lt).
    do 2 f_equal. pose proof (N.div_mod x 10 ltac:(done)). lia.
  - destruct (IH (x `div` 10)%N) as (k & Hk & Hstep).
    { by apply N.div_lt. }
    { by apply N.neq_0_lt_0. }
    exists (k + 1). split; [lia |]. intros acc s.
    rewrite pretty_N_go_step by done. rewrite Hstep.
    cbn [digits_prefix].
    rewrite digit_value_char by (by apply N.mod_lt).
    do 2 f_equal. cbn [default].
    rewrite Z.pow_add_r, Z.pow_1_r by lia.
    replace (default 0 acc * (10 ^ k * 10))
      with (10 * (default 0 acc * 10 ^ k)) by ring.
    generalize (default 0 acc * 10 ^ k). intros m. unfold id.
    pose proof (N.div_mod x 10 ltac:(done)). lia.
Qed.

Lemma numeral_all_digits (x : N) : forall s,
  Forall (fun c => Input.is_digit c = true) (list_ascii_of_string s) ->
  Forall (fun c => Input.is_digit c = true)
         (list_ascii_of_string (pretty_N_go x s)).
Proof.
  induction (N.lt_wf_0 x) as [x _ IH]. intros s Hs.
  destruct (decide (0 < x)%N) as [Hx | Hx].
  - rewrite pretty_N_go_step by done. apply IH; [by apply N.div_lt |].
    simpl. constructor; [apply is_digit_char | exact Hs].
  - replace x with 0%N by lia. by rewrite pretty_N_go_0.
Qed.

Lemma pretty_all_digits (n : N) :
  Forall (fun c => Input.is_digit c = true)
         (list_ascii_of_string (pretty n)).
Proof.
  unfold pretty, pretty_N. destruct (decide (n = 0%N)).
  - repeat constructor.
  - apply numeral_all_digits. constructor.
Qed.

Lemma digits_prefix_pretty (n : N) (acc : option Z) :
  default 0 acc = 0 -> digits_prefix acc (pretty n) = Some (Z.of_N n).
Proof.
  intros Hacc. unfold pretty, pretty_N.
  destruct (decide (n = 0%N)) as [-> | Hn].
  - simpl. by rewrite Hacc.
  - destruct (digits_prefix_numeral n ltac:(lia)) as (k & _ & Hk).
    rewrite Hk, Hacc; simpl; f_equal; lia.
Qed.

Lemma digits_prefix_zeros (k : nat) (n : N) : forall acc,
  default 0 acc = 0 ->
  digits_prefix acc (zeros k +:+ pretty n) = Some (Z.of_N n).
Proof.
  induction k as [| k IH]; intros acc Hacc.
  - by apply digits_prefix_pretty.
  - simpl. apply IH. simpl. lia.
Qed.

Lemma zeros_all_digits (k : nat) (n : N) :
  Forall (fun c => Input.is_digit c = true)
         (list_ascii_of_string (zeros k +:+ pretty n)).
Proof.
  induction k as [| k IH]; [apply pretty_all_digits |].
  simpl. by constructor.
Qed.

Lemma trimStart_digit (c : ascii) (s : string) :
  Input.is_digit c = true -> Js.trimStart (String c s) = String c s.
Proof.
  intros Hc.
  destruct c as [[] [] [] [] [] [] [] []]; try discriminate Hc;
    by destruct s as [| d [| e s3]].
Qed.

Lemma parseInt_digits (s : string) :
  Forall (fun c => Input.is_digit c = true) (list_ascii_of_string s) ->
  parseInt (Some s) = digits_prefix None s.
Proof.
  destruct s as [| c s]; [done |]. intros H.
  apply Forall_cons in H as [Hc _].
  unfold parseInt. rewrite trimStart_digit by done.
  destruct c as [[] [] [] [] [] [] [] []]; try discriminate Hc; reflexivity.
Qed.

Lemma parseInt_numeral (k : nat) (n : N) :
  parseInt (Some (zeros k +:+ pretty n)) = Some (Z.of_N n).
Proof.
  rewrite parseInt_digits by apply zeros_all_digits.
  by apply digits_prefix_zeros.
Qed.

Lemma parses_to_numeral (k : nat) (n : N) (answer : Z) :
  parses_to (Some (zeros k +:+ pretty n)) answer
  = bool_decide (Z.of_N n = answer).
Proof.
  unfold parses_to. rewrite parseInt_numeral.
  destruct (Z.eqb_spec (Z.of_N n) answer);
    [by rewrite bool_decide_eq_true_2 | by rewrite bool_decide_eq_false_2].
Qed.

Lemma parses_to_blank (answer : Z) :
  parses_to None answer = false /\ parses_to (Some "") answer = false.
Proof. done. Qed.

(** X26.  In the single-file sum game, typing into a field removes every
    mark; after the check button, the field is marked correct exactly when
    the digits typed into it, other characters and leading zeros set
    aside, are the numeral of the answer; a field whose text has no digit,
    and a field never typed into, are marked incorrect, also when the
    answer is 0. *)
Theorem SumItUp_check_reads_numeral
    (st : SumItUp.state) (id : Z) (value : string) (answer : Z) :
  let typed := SumItUp.handleInputChange id value st in
  (forall id' answer', SumItUp.getStatus typed id' answer' = "") /\
  (forall (k : nat) (n : N),
     Input.keep_digits value = zeros k +:+ pretty n ->
     SumItUp.getStatus (SumItUp.check typed) id answer =
       if bool_decide (Z.of_N n = answer) then "correct" else "incorrect") /\
  (Input.keep_digits value = "" ->
   SumItUp.getStatus (SumItUp.check typed) id answer = "incorrect") /\
  (forall id', id' <> id -> SumItUp.userAnswers st !! id' = None ->
     SumItUp.getStatus (SumItUp.check typed) id' answer = "incorrect").
Proof.
  intros typed. subst typed.
  unfold SumItUp.getStatus, SumItUp.check, SumItUp.handleInputChange. simpl.
  split; [done |]. split.
  { intros k n Hdigits. rewrite lookup_insert_eq, Hdigits.
    rewrite parses_to_numeral. by case_bool_decide. }
  split.
  { intros Hnone. by rewrite lookup_insert_eq, Hnone. }
  intros id' Hne Hfree. by rewrite lookup_insert_ne, Hfree.
Qed.
End NumeralFacts.

Section MatchingFacts.
Import Legacy Legacy.Matching.

Lemma find_unique (items : list MatchItem) (l : MatchItem) :
  NoDup (id <$> items) -> l ∈ items -> find (id l) items = Some l.
Proof.
  unfold find. induction items as [| x items IH]; intros Hnd Hin.
  - by apply elem_of_nil in Hin.
  - rewrite fmap_cons in Hnd. apply NoDup_cons in Hnd as [Hx Hnd].
    cbn [list_find]. destruct (decide (id x = id l)) as [Heq | Hne].
    + simpl. f_equal. apply elem_of_cons in Hin as [-> | Hin]; [done |].
      exfalso. apply Hx. rewrite Heq. apply list_elem_of_fmap.
      by exists l.
    + apply elem_of_cons in Hin as [-> | Hin]; [done |].
      specialize (IH Hnd Hin).
      destruct (list_find _ items) as [[i y] |]; [| done].
      simpl in *. done.
Qed.

Lemma Matching_generateItems_shape (type : kind) (g : rng) :
  exists (baseItems : list (string * string)) newRightItems,
    (generateItems type g).1 =
      {| leftItems :=
           imap (fun i (item : string * string) =>
                   {| id := "l-" +:+ pretty i; content := item.1;
                      matchId := item.2 |}) baseItems;
         rightItems := newRightItems;
         selectedLeft := None; connections := ∅; checked := false |} /\
    newRightItems ≡ₚ
      imap (fun i (item : string * string) =>
              {| id := "r-" +:+ pretty i; content := item.2;
                 matchId := item.1 |}) baseItems.
Proof.
  unfold generateItems. unfold mbind at 1, Rand_bind.
  destruct type; cbv beta iota.
  - destruct (array_from _ _ g) as [baseItems g1].
    cbv zeta. unfold mbind, Rand_bind.
    pose proof (shuffleArray_perm
      (imap (fun i (item : string * string) =>
               {| id := "r-" +:+ pretty i; content := item.2;
                  matchId := item.1 |}) baseItems) g1) as Hperm.
    destruct (shuffleArray _ g1) as [newRightItems g2]. simpl in *.
    by exists baseItems, newRightItems.
  - unfold mbind at 1, Rand_bind.
    destruct (shuffleArray icons g) as [shuffled g1].
    unfold mret at 1, Rand_ret.
    set (baseItems := (fun icon : string => (icon, icon)) <$> take 5 shuffled).
    cbv zeta. unfold mbind, Rand_bind.
    pose proof (shuffleArray_perm
      (imap (fun i (item : string * string) =>
               {| id := "r-" +:+ pretty i; content := item.2;
                  matchId := item.1 |}) baseItems) g1) as Hperm.
    destruct (shuffleArray _ g1) as [newRightItems g2]. simpl in *.
    by exists baseItems, newRightItems.
Qed.

(** X27.  In the single-file pairing game, on the board of any generation
    and whatever was clicked since, the stroke style requested for the
    line from a left item to a right item is the correct colour exactly
    when the checked flag is up and the right item shows the left item's
    key (the sum of its equation, or its icon), the incorrect colour when
    the flag is up and it does not, and the neutral colour while the flag
    is down; and every left item has a right item that makes its line
    correct. *)
Theorem Matching_check_colours_lines
    (type : kind) (g : rng) (st : state) (l r : MatchItem) :
  let st0 := (generateItems type g).1 in
  leftItems st = leftItems st0 ->
  rightItems st = rightItems st0 ->
  l ∈ leftItems st0 ->
  r ∈ rightItems st0 ->
  strokeStyle st (id l) (id r) =
    (if checked st then
       if bool_decide (content r = matchId l) then "var(--correct-color)"
       else "var(--incorrect-color)"
     else "var(--primary-color)") /\
  exists r', r' ∈ rightItems st0 /\ content r' = matchId l.
Proof.
  intros st0 Hleft Hright Hl Hr.
  destruct (Matching_generateItems_shape type g)
    as (baseItems & newRightItems & Hst0 & HR0).
  fold st0 in Hst0.
  assert (HL : leftItems st0 =
            imap (fun i (item : string * string) =>
                    {| id := "l-" +:+ pretty i; content := item.1;
                       matchId := item.2 |}) baseItems)
    by (by rewrite Hst0).
  assert (HR : rightItems st0 ≡ₚ
            imap (fun i (item : string * string) =>
                    {| id := "r-" +:+ pretty i; content := item.2;
                       matchId := item.1 |}) baseItems)
    by (by rewrite Hst0).
  clear Hst0 HR0.
  assert (HndL : NoDup (id <$> leftItems st0)).
  { rewrite HL.
    replace (id <$> imap _ baseItems)
      with (imap (fun (i : nat) (_ : string * string) => "l-" +:+ pretty i)
                 baseItems).
    - apply NoDup_tagged_indices.
    - apply list_eq. intros i.
      rewrite list_lookup_fmap, !list_lookup_imap.
      by destruct (baseItems !! i). }
  assert (HndR : NoDup (id <$> rightItems st0)).
  { rewrite HR.
    replace (id <$> imap _ baseItems)
      with (imap (fun (i : nat) (_ : string * string) => "r-" +:+ pretty i)
                 baseItems).
    - apply NoDup_tagged_indices.
    - apply list_eq. intros i.
      rewrite list_lookup_fmap, !list_lookup_imap.
      by destruct (baseItems !! i). }
  split.
  - unfold strokeStyle. rewrite Hleft, Hright.
    rewrite (find_unique _ l HndL Hl), (find_unique _ r HndR Hr). simpl.
    destruct (checked st); [| done]. simpl.
    case_bool_decide as H1; case_bool_decide as H2; try done.
    + exfalso. apply H2. by injection H1.
    + exfalso. apply H1. by rewrite H2.
  - rewrite HL in Hl. apply list_elem_of_lookup in Hl as (i & Hi).
    rewrite list_lookup_imap in Hi.
    destruct (baseItems !! i) as [b |] eqn:Hb; [| done].
    injection Hi as <-. simpl.
    exists {| id := "r-" +:+ pretty i; content := b.2; matchId := b.1 |}.
    split; [| done]. rewrite HR.
    apply (list_elem_of_lookup_2 _ i). by rewrite list_lookup_imap, Hb.
Qed.

Lemma Matching_check_colours_lines_witness :
  let st0 := (generateItems equation (cycle [1 # 3])).1 in
  strokeStyle (check st0) "l-0" "r-4" = "var(--correct-color)".
Proof.
  intros st0.
  destruct (Matching_check_colours_lines
              equation (cycle [1 # 3]) (check st0)
              {| id := "l-0"; content := "2 + 2"; matchId := "4" |}
              {| id := "r-4"; content := "4"; matchId := "2 + 2" |}
              eq_refl eq_refl) as [H _].
  - apply (list_elem_of_lookup_2 _ 0%nat). vm_compute. reflexivity.
  - apply (list_elem_of_lookup_2 _ 0%nat). vm_compute. reflexivity.
  - exact H.
Defined.
End MatchingFacts.

Section PathFacts.
Import Legacy Legacy.MathMaze.

Lemma MathMaze_walk_cells rest : forall currentValue newPath g,
  fair g -> 0 <= currentValue ->
  exists cells,
    (walk rest currentValue newPath g).1 = newPath ++ cells /\
    length cells = length rest /\
    Forall (fun n => isInput n = true /\ 0 <= value n) cells.
Proof.
  induction rest as [| s rest IH]; intros cv newPath g Hg Hcv.
  - exists []. simpl. by rewrite app_nil_r.
  - cbn [walk]. unfold mbind at 1, Rand_bind.
    destruct (ensures_coin (fun _ => True) (fun _ => I) g Hg) as [_ Hg1].
    destruct (coin g) as [add g1]. simpl in Hg1.
    unfold mbind at 1, Rand_bind.
    destruct (ensures_getRandomInt 1 9 ltac:(lia) g1 Hg1) as [Hamount Hg2].
    destruct (getRandomInt 1 9 g1) as [amount g2]. simpl in Hamount, Hg2.
    cbv zeta.
    set (cv' := if add then cv + amount else Z.max 0 (cv - amount)).
    assert (Hcv' : 0 <= cv') by (unfold cv'; destruct add; lia).
    set (node := {| value := cv'; isInput := true; op := _;
                    gridPos := s.1; arrow := s.2 |}).
    destruct (IH cv' (newPath ++ [node]) g2 Hg2 Hcv')
      as (cells & Hcells & Hlen & Hall).
    exists (node :: cells). rewrite Hcells, <- app_assoc. simpl.
    split; [done |]. split; [by rewrite Hlen |]. by constructor.
Qed.

Lemma pretty_nonneg (v : Z) : 0 <= v -> pretty v = pretty (Z.to_N v).
Proof. intros Hv. destruct v; [done | done | lia]. Qed.

Lemma maze_act_keeps (st : state) (a : maze_action) :
  length (path st) = 11%nat ->
  userAnswers st !! 10%nat = None ->
  path (maze_act st a) = path st /\
  userAnswers (maze_act st a) !! 10%nat = None.
Proof.
  intros Hlen Hfree. destruct a as [index typed |]; simpl; [| done].
  unfold render_cell. destruct (path st !! index) as [node |]; [| done].
  simpl. destruct (isInput node); [| done].
  case_bool_decide as Hlast; [done |]. simpl.
  split; [done |]. rewrite lookup_insert_ne; [done |]. rewrite Hlen in Hlast.
  simpl in Hlast. done.
Qed.

Lemma maze_play_keeps (actions : list maze_action) : forall st,
  length (path st) = 11%nat ->
  userAnswers st !! 10%nat = None ->
  path (foldl maze_act st actions) = path st /\
  userAnswers (foldl maze_act st actions) !! 10%nat = None.
Proof.
  induction actions as [| a actions IH]; intros st Hlen Hfree; [done |].
  simpl. destruct (maze_act_keeps st a Hlen Hfree) as [Hp Hu].
  destruct (IH (maze_act st a)) as [Hp' Hu']; [by rewrite Hp | done |].
  split; [by rewrite Hp', Hp | done].
Qed.

(** X28.  The single-file maze has 11 cells; its end cell is an input that
    is read-only, so that nothing the user does puts a text into it, and
    after the check button it is marked incorrect in every game.  Each of
    the nine inputs before it is marked correct once the numeral of its
    value has been typed into it. *)
Theorem MathMaze_end_cell_never_correct
    (g : rng) (actions : list maze_action) :
  fair g ->
  exists st0,
    (generatePath g).1 = Some st0 /\
    let st := foldl maze_act st0 actions in
    path st = path st0 /\
    length (path st) = 11%nat /\
    render_cell (check st) 10
      = Some (InputCell "maze-input incorrect" "" true) /\
    forall (i : nat) node,
      (1 <= i <= 9)%nat -> path st !! i = Some node ->
      render_cell (check (maze_act st (MazeTyped i (pretty (value node))))) i
        = Some (InputCell "maze-input correct" (pretty (value node)) false).
Proof.
  intros Hg. unfold generatePath. unfold mbind at 1, Rand_bind.
  destruct (ensures_getRandomInt 3 10 ltac:(lia) g Hg) as [Hstart Hg1].
  destruct (getRandomInt 3 10 g) as [start g1]. simpl in Hstart, Hg1.
  unfold structure at 1. unfold mbind, Rand_bind.
  set (first := {| value := start; isInput := false; op := "";
                   gridPos := _; arrow := _ |}).
  destruct (MathMaze_walk_cells (tail structure) start [first] g1 Hg1
              ltac:(lia)) as (cells & Hwalk & Hlen & Hall).
  change (tail structure) with
    [ ((1, 2), Some "down"); ((2, 2), Some "down");
      ((3, 2), Some "left"); ((3, 1), Some "down"); ((4, 1), Some "right");
      ((4, 2), Some "right"); ((4, 3), Some "up"); ((3, 3), Some "up");
      ((2, 3), Some "right"); ((2, 4), @None string) ] in Hwalk, Hlen.
  destruct (walk _ start [first] g1) as [newPath g2]. simpl in Hwalk.
  subst newPath. simpl in Hlen.
  eexists. split; [reflexivity |]. cbv zeta.
  set (st0 := {| path := first :: cells; userAnswers := ∅;
                 checked := false |}).
  assert (Hlen0 : length (path st0) = 11%nat) by (simpl; by rewrite Hlen).
  destruct (maze_play_keeps actions st0 Hlen0 (lookup_empty _))
    as [Hpath Hfree].
  set (st := foldl maze_act st0 actions) in *.
  split; [exact Hpath |]. split; [by rewrite Hpath |].
  assert (Hcell : forall i node, (1 <= i)%nat -> path st !! i = Some node ->
                    isInput node = true /\ 0 <= value node).
  { intros i node Hi Hnode. rewrite Hpath in Hnode.
    destruct i as [| i]; [lia |]. simpl in Hnode.
    rewrite Forall_lookup in Hall. exact (Hall _ _ Hnode). }
  split.
  - destruct (lookup_lt_is_Some_2 (path st) 10) as (node & Hnode).
    { rewrite Hpath, Hlen0. lia. }
    destruct (Hcell 10%nat node ltac:(lia) Hnode) as [Hin _].
    unfold render_cell, getStatus. simpl. rewrite Hnode. simpl.
    rewrite Hin, Hfree. simpl. rewrite Hpath, Hlen0. done.
  - intros i node Hi Hnode.
    destruct (Hcell i node ltac:(lia) Hnode) as [Hin Hv].
    assert (Hrender : exists cls txt,
              render_cell st i = Some (InputCell cls txt false)).
    { unfold render_cell. rewrite Hnode. simpl. rewrite Hin.
      rewrite bool_decide_eq_false_2 by (rewrite Hpath, Hlen0; simpl; lia).
      by do 2 eexists. }
    destruct Hrender as (cls & txt & Hrender).
    unfold maze_act. rewrite Hrender.
    unfold render_cell, getStatus, check, handleInputChange. simpl.
    rewrite Hnode. simpl. rewrite Hin, lookup_insert_eq. simpl.
    rewrite bool_decide_eq_false_2 by (rewrite Hpath, Hlen0; simpl; lia).
    rewrite (pretty_nonneg _ Hv).
    rewrite (keep_digits_fixes_digits _ (pretty_all_digits _)).
    pose proof (parses_to_numeral 0 (Z.to_N (value node)) (value node))
      as Hparse.
    change (parses_to (Some (pretty (Z.to_N (value node)))) (value node)
            = bool_decide (Z.of_N (Z.to_N (value node)) = value node))
      in Hparse.
    rewrite Hparse, bool_decide_eq_true_2 by lia. done.
Qed.

Lemma MathMaze_end_cell_never_correct_witness :
  exists st0,
    (generatePath (cycle [3 # 10; 1 # 4; 9 # 10])).1 = Some st0 /\
    render_cell (check (foldl maze_act st0 [MazeTyped 10 "7"; MazeChecked])) 10
      = Some (InputCell "maze-input incorrect" "" true).
Proof.
  destruct (MathMaze_end_cell_never_correct
              (cycle [3 # 10; 1 # 4; 9 # 10]) [MazeTyped 10 "7"; MazeChecked])
    as (st0 & Hgen & _ & _ & Hend & _).
  { apply fair_cycle; [discriminate |].
    repeat constructor; vm_compute; congruence. }
  exists st0. split; [exact Hgen | exact Hend].
Defined.
End PathFacts.
